(** * Beat-sheet worker: report aggregation and rendering

    A shallow embedding of [beat-sheet/src/index.js] (with the helpers it
    imports from [ui.js] and [utils.js]) and the properties of its report
    pipeline: the aggregator that groups the rows of the join query by act,
    the CSV, HTML and print projectors, and the request handlers around
    them.

    JavaScript strings are modelled as [string] (byte sequences; the few
    non-ASCII characters of the templates are kept as their UTF-8 bytes),
    integers of the store as [Z], counters as [nat], nullable columns as
    [option].  Integers are written in decimal, which is what the worker
    does for every number that JavaScript holds exactly as an integer (up
    to 2^53 in magnitude).  The row source is seen through the statements
    the worker prepares: each gives its rows or throws.  The clock and the
    locale are inputs. *)

From Stdlib Require Import ZArith List String Ascii Bool Lia Sorted.
From Stdlib Require Import Decimal DecimalString DecimalZ.
Import ListNotations.
Open Scope string_scope.
Open Scope list_scope.

(** ** Strings *)

Module Str.

(** The double quote and the line feed, as one-character strings. *)
Definition dq_char : ascii := Ascii.ascii_of_nat 34.
Definition nl_char : ascii := Ascii.ascii_of_nat 10.
Definition dq : string := String dq_char EmptyString.
Definition nl : string := String nl_char EmptyString.

(** The characters of the templates outside ASCII, as their UTF-8 bytes:
    the arrows to the left and to the right (U+2190, U+2192) and the page
    pictogram (U+1F4C4). *)
Definition bytes (l : list nat) : string :=
  fold_right (fun n s => String (Ascii.ascii_of_nat n) s) EmptyString l.
Definition larr : string := bytes [226; 134; 144].
Definition rarr : string := bytes [226; 134; 146].
Definition page_icon : string := bytes [240; 159; 147; 132].

(** [Number.MAX_SAFE_INTEGER], and the integers that a JavaScript number
    holds exactly, with exact arithmetic on neighbours: those of absolute
    value at most 2^53 - 1. *)
Definition max_safe_integer : Z := 9007199254740991.

Definition safe_integer (z : Z) : Prop :=
  (- max_safe_integer <= z <= max_safe_integer)%Z.

(** [String(n)] and [`${n}`] for an integer [n]: decimal digits, with a
    leading minus sign for negative numbers.  This is the text that the
    language writes for a safe integer; past 2^53 it writes the shortest
    digits that give the number back, and from 10^21 on an exponent, so
    a statement on the text of a number that may be that large carries
    [safe_integer] as a hypothesis. *)
Definition string_of_Z (z : Z) : string := NilZero.string_of_int (Z.to_int z).

Definition string_of_nat (n : nat) : string := string_of_Z (Z.of_nat n).

(** [hay.includes(needle)] for a one-character needle. *)
Fixpoint includes_char (c : ascii) (hay : string) : bool :=
  match hay with
  | EmptyString => false
  | String a rest => Ascii.eqb a c || includes_char c rest
  end.

(** [Some rest] when [hay] is [needle] followed by [rest]. *)
Fixpoint strip_prefix (needle hay : string) : option string :=
  match needle with
  | EmptyString => Some hay
  | String a needle' =>
      match hay with
      | EmptyString => None
      | String b hay' =>
          if Ascii.eqb a b then strip_prefix needle' hay' else None
      end
  end.

(** [hay.includes(needle)]. *)
Fixpoint includes (needle hay : string) : bool :=
  match strip_prefix needle hay with
  | Some _ => true
  | None =>
      match hay with
      | EmptyString => false
      | String _ rest => includes needle rest
      end
  end.

(** [hay.replace(needle, by)] with a string needle: the first occurrence
    only; [hay] is returned unchanged when there is none. *)
Fixpoint replace_first (needle by_ hay : string) : string :=
  match strip_prefix needle hay with
  | Some rest => by_ ++ rest
  | None =>
      match hay with
      | EmptyString => EmptyString
      | String a rest => String a (replace_first needle by_ rest)
      end
  end.

(** What follows the first occurrence of [needle] in [hay], if any. *)
Fixpoint after_first (needle hay : string) : option string :=
  match strip_prefix needle hay with
  | Some rest => Some rest
  | None =>
      match hay with
      | EmptyString => None
      | String _ rest => after_first needle rest
      end
  end.

(** [parts.join(sep)] on an array of strings. *)
Fixpoint join (sep : string) (parts : list string) : string :=
  match parts with
  | [] => EmptyString
  | [p] => p
  | p :: rest => p ++ sep ++ join sep rest
  end.

(** [parts.join('')]. *)
Definition concat_all (parts : list string) : string :=
  fold_right String.append EmptyString parts.

End Str.
Import Str.

(** ** JavaScript values of the nullable columns *)

Module Js.

(** Truthiness of a nullable text column: [null] and the empty string are
    falsy. *)
Definition truthy_str (v : option string) : bool :=
  match v with
  | None => false
  | Some s => negb (String.eqb s EmptyString)
  end.

(** Truthiness of a nullable integer column: [null] and [0] are falsy. *)
Definition truthy_num (v : option Z) : bool :=
  match v with
  | None => false
  | Some z => negb (Z.eqb z 0)
  end.

(** [v || d] where the result is used as text. *)
Definition str_or (v : option string) (d : string) : string :=
  match v with
  | Some s => if String.eqb s EmptyString then d else s
  | None => d
  end.

(** [v || d] for an integer column, the result used as text. *)
Definition num_or (v : option Z) (d : string) : string :=
  match v with
  | Some z => if Z.eqb z 0 then d else string_of_Z z
  | None => d
  end.

(** [`${v}`] for a nullable text column: [null] is written as the word. *)
Definition str_text (v : option string) : string :=
  match v with
  | Some s => s
  | None => "null"
  end.

(** [`${v}`] for a nullable integer column. *)
Definition num_text (v : option Z) : string :=
  match v with
  | Some z => string_of_Z z
  | None => "null"
  end.

End Js.
Import Js.

(** ** Data model *)

(** A row of the join query of [generateBeatReport]: the selected columns
    of [beats] with [act_no] and [title] of the parent act. *)
Record BeatRow := mkBeatRow {
  row_id : Z;
  row_act_id : Z;
  row_beat_number : Z;
  row_scene_number : option Z;
  row_title : option string;
  row_description : option string;
  row_conflict : option string;
  row_emotion : option string;
  row_location : option string;
  row_time_of_day : option string;
  row_characters : option string;
  row_version : option Z;
  row_created_at : option string;
  row_updated_at : option string;
  row_act_no : Z;
  row_act_title : string
}.

(** The object pushed onto an act's [beats] array. *)
Record BeatView := mkBeatView {
  beat_number : Z;
  scene_number : option Z;
  title : option string;
  description : option string;
  conflict : option string;
  emotion : option string;
  location : option string;
  time_of_day : option string;
  characters : option string;
  version : option Z;
  created_at : option string;
  updated_at : option string
}.

Record ActGroup := mkActGroup {
  act_no : Z;
  act_id : Z;
  act_title : string;
  beats : list BeatView;
  beat_count : nat
}.

Record ActSummary := mkActSummary {
  sum_act_no : Z;
  sum_act_title : string;
  sum_beat_count : nat
}.

Record Summary := mkSummary {
  total_acts : nat;
  total_beats : nat;
  beats_per_act : list ActSummary
}.

Record Report := mkReport {
  report_type : string;
  generated_at : string;
  summary : Summary;
  acts : list ActGroup
}.

(** ** The aggregator: lines 312-364 of [generateBeatReport] *)

Module Aggregator.

(** [reportData]: a JavaScript object used as a map.  Its keys are the
    strings [Act <n>], none of which is an array index or a property of
    [Object.prototype], so the own properties are enumerated in insertion
    order: an association list, new keys appended at the end. *)
Definition Store := list (string * ActGroup).

Definition actKey (n : Z) : string := "Act " ++ string_of_Z n.

Fixpoint store_get (k : string) (st : Store) : option ActGroup :=
  match st with
  | [] => None
  | (k', g) :: rest => if String.eqb k' k then Some g else store_get k rest
  end.

(** In-place update of the object stored under [k]. *)
Fixpoint store_update (k : string) (f : ActGroup -> ActGroup) (st : Store)
  : Store :=
  match st with
  | [] => []
  | (k', g) :: rest =>
      if String.eqb k' k then (k', f g) :: rest
      else (k', g) :: store_update k f rest
  end.

Definition beatView (beat : BeatRow) : BeatView :=
  {| beat_number := row_beat_number beat;
     scene_number := row_scene_number beat;
     title := row_title beat;
     description := row_description beat;
     conflict := row_conflict beat;
     emotion := row_emotion beat;
     location := row_location beat;
     time_of_day := row_time_of_day beat;
     characters := row_characters beat;
     version := row_version beat;
     created_at := row_created_at beat;
     updated_at := row_updated_at beat |}.

Definition newGroup (beat : BeatRow) : ActGroup :=
  {| act_no := row_act_no beat;
     act_id := row_act_id beat;
     act_title := row_act_title beat;
     beats := [];
     beat_count := 0 |}.

Definition push_beat (v : BeatView) (g : ActGroup) : ActGroup :=
  {| act_no := act_no g; act_id := act_id g; act_title := act_title g;
     beats := beats g ++ [v]; beat_count := beat_count g |}.

Definition incr_count (g : ActGroup) : ActGroup :=
  {| act_no := act_no g; act_id := act_id g; act_title := act_title g;
     beats := beats g; beat_count := S (beat_count g) |}.

(** One iteration of [for (const beat of beats.results)], on the pair
    ([reportData], [totalBeats]). *)
Definition step (acc : Store * nat) (beat : BeatRow) : Store * nat :=
  let '(reportData, totalBeats) := acc in
  let key := actKey (row_act_no beat) in
  let created :=
    match store_get key reportData with
    | None => reportData ++ [(key, newGroup beat)]
    | Some _ => reportData
    end in
  let pushed := store_update key (push_beat (beatView beat)) created in
  let counted := store_update key incr_count pushed in
  (counted, S totalBeats).

Definition group_rows (rows : list BeatRow) : Store * nat :=
  fold_left step rows ([], 0).

(** [Object.values(reportData)]. *)
Definition values (st : Store) : list ActGroup := map snd st.

Definition act_summary (act : ActGroup) : ActSummary :=
  {| sum_act_no := act_no act;
     sum_act_title := act_title act;
     sum_beat_count := beat_count act |}.

(** The report object; [now_iso] is [new Date().toISOString()]. *)
Definition aggregate (now_iso : string) (rows : list BeatRow) : Report :=
  let '(reportData, totalBeats) := group_rows rows in
  let acts := values reportData in
  {| report_type := "beats_by_act";
     generated_at := now_iso;
     summary := {| total_acts := List.length acts;
                   total_beats := totalBeats;
                   beats_per_act := map act_summary acts |};
     acts := acts |}.

End Aggregator.
Import Aggregator.

(** ** The CSV projector *)

Module Csv.

Definition comma_char : ascii := Ascii.ascii_of_nat 44.

(** [str.replace] with the global pattern matching one double quote and
    the replacement made of two: every double quote is doubled. *)
Fixpoint double_quotes (str : string) : string :=
  match str with
  | EmptyString => EmptyString
  | String c rest =>
      if Ascii.eqb c dq_char
      then String dq_char (String dq_char (double_quotes rest))
      else String c (double_quotes rest)
  end.

(** The test of [escapeCSV]: [str.includes] of a comma, of a double quote
    or of a line feed. *)
Definition needs_escape (str : string) : bool :=
  includes_char comma_char str || includes_char dq_char str
  || includes_char nl_char str.

(** [escapeCSV(field)]; [None] stands for [null] and [undefined]. *)
Definition escapeCSV (field : option string) : string :=
  match field with
  | None => EmptyString
  | Some str =>
      if needs_escape str
      then (dq ++ double_quotes str ++ dq)%string
      else str
  end.

Definition csv_header : string :=
  ("Act Number,Act Title,Beat Number,Scene Number,Beat Title,Description,"
   ++ "Conflict,Emotion,Location,Time of Day,Characters,Version,Created At,"
   ++ "Updated At" ++ nl)%string.

(** The array [row] of [generateCSVReport], each element already converted
    to the text that [join] gives it. *)
Definition csv_row (act : ActGroup) (beat : BeatView) : list string :=
  [ string_of_Z (act_no act);
    escapeCSV (Some (str_or (Some (act_title act)) EmptyString));
    string_of_Z (beat_number beat);
    num_or (scene_number beat) EmptyString;
    escapeCSV (Some (str_or (title beat) EmptyString));
    escapeCSV (Some (str_or (description beat) EmptyString));
    escapeCSV (Some (str_or (conflict beat) EmptyString));
    escapeCSV (Some (str_or (emotion beat) EmptyString));
    escapeCSV (Some (str_or (location beat) EmptyString));
    escapeCSV (Some (str_or (time_of_day beat) EmptyString));
    escapeCSV (Some (str_or (characters beat) EmptyString));
    num_or (version beat) EmptyString;
    str_or (created_at beat) EmptyString;
    str_or (updated_at beat) EmptyString ].

Definition csv_line (act : ActGroup) (beat : BeatView) : string :=
  (join "," (csv_row act beat) ++ nl)%string.

(** The two nested loops of [generateCSVReport], appending to [csv]. *)
Definition csv_act (csv : string) (act : ActGroup) : string :=
  fold_left (fun acc beat => (acc ++ csv_line act beat)%string) (beats act) csv.

Definition generateCSVReport (report : Report) : string :=
  fold_left csv_act (acts report) csv_header.

(** *** What a reader of the file does with one field *)

(** The text of each column before escaping: the value, or the empty string
    for a falsy one. *)
Definition csv_row_texts (act : ActGroup) (beat : BeatView) : list string :=
  [ string_of_Z (act_no act);
    str_or (Some (act_title act)) EmptyString;
    string_of_Z (beat_number beat);
    num_or (scene_number beat) EmptyString;
    str_or (title beat) EmptyString;
    str_or (description beat) EmptyString;
    str_or (conflict beat) EmptyString;
    str_or (emotion beat) EmptyString;
    str_or (location beat) EmptyString;
    str_or (time_of_day beat) EmptyString;
    str_or (characters beat) EmptyString;
    num_or (version beat) EmptyString;
    str_or (created_at beat) EmptyString;
    str_or (updated_at beat) EmptyString ].

(** The escaping rule of the specification, for one field: quoted with the
    inner quotes doubled exactly when the text has a comma, a double quote
    or a line feed. *)
Definition csv_rule (text emitted : string) : Prop :=
  emitted = if needs_escape text
            then (dq ++ double_quotes text ++ dq)%string
            else text.

(** Collapse every doubled double quote into one. *)
Fixpoint collapse_quotes (s : string) : string :=
  match s with
  | EmptyString => EmptyString
  | String c rest =>
      match rest with
      | String c' rest' =>
          if Ascii.eqb c dq_char && Ascii.eqb c' dq_char
          then String dq_char (collapse_quotes rest')
          else String c (collapse_quotes rest)
      | EmptyString => String c EmptyString
      end
  end.

Fixpoint drop_last (s : string) : string :=
  match s with
  | EmptyString => EmptyString
  | String c EmptyString => EmptyString
  | String c rest => String c (drop_last rest)
  end.

(** Parse one CSV field: a field that opens with a double quote loses its
    outer quotes and has its doubled quotes collapsed; any other field is
    taken as it is. *)
Definition parse_field (s : string) : string :=
  match s with
  | String c rest =>
      if Ascii.eqb c dq_char then collapse_quotes (drop_last rest) else s
  | EmptyString => EmptyString
  end.

End Csv.
Import Csv.

(** ** The HTML and print projectors *)

Module Html.

(** One entry of the sidebar: the callback of [report.acts.map] in
    [sidebarHTML]. *)
Definition nav_item (act : ActGroup) : string :=
  ("
          <li class=" ++ dq ++ "nav-item" ++ dq ++ ">
            <a href=" ++ dq ++ "#act-" ++ string_of_Z (act_no act) ++ dq
   ++ " class=" ++ dq ++ "nav-link" ++ dq ++ ">Act "
   ++ string_of_Z (act_no act) ++ "</a>
          </li>
        ")%string.

Definition sidebarHTML (report : Report) : string :=
  ("
    <nav class=" ++ dq ++ "sidebar" ++ dq ++ ">
      <h3>Quick Navigation</h3>
      <ul class=" ++ dq ++ "nav-list" ++ dq ++ ">
        <li class=" ++ dq ++ "nav-item" ++ dq ++ "><a href=" ++ dq
   ++ "#overview" ++ dq ++ " class=" ++ dq ++ "nav-link" ++ dq
   ++ ">Overview</a></li>
        " ++ concat_all (map nav_item (acts report)) ++ "
      </ul>
    </nav>
  ")%string.

(** One beat: the callback of [act.beats.map] in [beatsHTML]. *)
Definition beat_entry (beat : BeatView) : string :=
  ("
          <div class=" ++ dq ++ "beat-entry" ++ dq ++ ">
            <h2>Beat " ++ string_of_Z (beat_number beat) ++ " "
   ++ (if truthy_num (scene_number beat)
       then "(Scene " ++ num_text (scene_number beat) ++ ")"
       else EmptyString) ++ "</h2>
            <h3>" ++ str_or (title beat) "Untitled Beat" ++ "</h3>
            <p><strong>Description:</strong> "
   ++ str_or (description beat) "No description available." ++ "</p>
            " ++ (if truthy_str (conflict beat)
       then "<p><strong>Conflict:</strong> " ++ str_text (conflict beat) ++ "</p>"
       else EmptyString) ++ "
            " ++ (if truthy_str (emotion beat)
       then "<p><strong>Emotion:</strong> " ++ str_text (emotion beat) ++ "</p>"
       else EmptyString) ++ "
            " ++ (if truthy_str (location beat)
       then "<p><strong>Location:</strong> " ++ str_text (location beat) ++ "</p>"
       else EmptyString) ++ "
            " ++ (if truthy_str (time_of_day beat)
       then "<p><strong>Time:</strong> " ++ str_text (time_of_day beat) ++ "</p>"
       else EmptyString) ++ "
            " ++ (if truthy_str (characters beat)
       then "<p><strong>Characters:</strong> " ++ str_text (characters beat) ++ "</p>"
       else EmptyString) ++ "
            <hr>
          </div>
        ")%string.

(** One act: the callback of [report.acts.map] in [beatsHTML]; [today] is
    the text of [new Date().toLocaleDateString('en-US', ...)] read while
    this section is built. *)
Definition act_section (today : string) (act : ActGroup) : string :=
  ("
    <div class=" ++ dq ++ "act-section" ++ dq ++ " id=" ++ dq ++ "act-"
   ++ string_of_Z (act_no act) ++ dq ++ ">
      <div class=" ++ dq ++ "act-header" ++ dq ++ ">
        <div class=" ++ dq ++ "act-title" ++ dq ++ ">Act "
   ++ string_of_Z (act_no act) ++ "</div>
        <div class=" ++ dq ++ "act-number" ++ dq ++ ">Last updated: " ++ today
   ++ "</div>
      </div>
      <div class=" ++ dq ++ "act-description" ++ dq ++ ">
        " ++ concat_all (map beat_entry (beats act)) ++ "
      </div>
    </div>
  ")%string.

(** The document up to, and without, the closing tag of its head: the
    prologue and the style sheet. *)
Definition report_head_pre : string :=
  ("<!DOCTYPE html>
<html lang=" ++ dq ++ "en" ++ dq ++ ">
<head>
    <meta charset=" ++ dq ++ "UTF-8" ++ dq ++ ">
    <meta name=" ++ dq ++ "viewport" ++ dq ++ " content=" ++ dq
   ++ "width=device-width, initial-scale=1.0" ++ dq ++ ">
    <title>Ally - Beat Sheets Report</title>
    <style>
        * {
            margin: 0;
            padding: 0;
            box-sizing: border-box;
        }

        body {
            font-family: 'Segoe UI', Roboto, 'Helvetica Neue', Arial, sans-serif;
            background: #0d1117;
            color: #c9d1d9;
            line-height: 1.6;
            padding: 2rem;
            transition: background-color 0.3s ease, color 0.3s ease;
        }

        .container {
            max-width: 1200px;
            margin: 0 auto;
            display: flex;
            gap: 2rem;
        }
        
        .sidebar {
            width: 250px;
            flex-shrink: 0;
            position: sticky;
            top: 2rem;
            height: fit-content;
            background: #161b22;
            border: 1px solid #30363d;
            border-radius: 6px;
            padding: 1.5rem;
        }
        
        .sidebar h3 {
            color: #58a6ff;
            font-size: 1rem;
            margin-bottom: 1rem;
            font-weight: 600;
        }
        
        .nav-list {
            list-style: none;
            margin: 0;
            padding: 0;
        }
        
        .nav-item {
            margin-bottom: 0.5rem;
        }
        
        .nav-link {
            color: #8b949e;
            text-decoration: none;
            font-size: 0.9rem;
            display: block;
            padding: 0.5rem;
            border-radius: 4px;
            transition: all 0.2s ease;
        }
        
        .nav-link:hover {
            background: #21262d;
            color: #c9d1d9;
        }
        
        .main-content {
            flex: 1;
            min-width: 0;
        }

        .back-link {
            color: #58a6ff;
            text-decoration: none;
            display: inline-block;
            margin-bottom: 2rem;
            font-size: 0.9rem;
        }

        .back-link:hover {
            text-decoration: underline;
        }

        .header {
            border-bottom: 2px solid #21262d;
            padding-bottom: 1.5rem;
            margin-bottom: 2rem;
            display: flex;
            justify-content: space-between;
            align-items: flex-start;
        }
        
        .header-content {
            flex: 1;
        }

        h1 {
            font-size: 2rem;
            font-weight: 600;
            color: #58a6ff;
            margin-bottom: 0.5rem;
        }

        .metadata {
            color: #8b949e;
            font-size: 0.9rem;
        }

        .act-section {
            background: #161b22;
            border: 1px solid #30363d;
            border-radius: 6px;
            padding: 1.5rem;
            margin-bottom: 2rem;
        }

        .act-header {
            display: flex;
            justify-content: space-between;
            align-items: baseline;
            margin-bottom: 1rem;
            padding-bottom: 0.5rem;
            border-bottom: 1px solid #21262d;
        }

        .act-title {
            font-size: 1.3rem;
            font-weight: 600;
            color: #58a6ff;
        }

        .act-number {
            color: #f85149;
            font-size: 0.9rem;
        }

        .act-description {
            color: #c9d1d9;
            font-size: 1rem;
            line-height: 1.7;
            transition: color 0.3s ease;
        }

        .beat-entry {
            margin-bottom: 2rem;
            padding: 1rem;
            background: #0d1117;
            border-radius: 6px;
            border: 1px solid #21262d;
        }
        
        .beat-entry h2 {
            font-size: 1.25rem;
            font-weight: 600;
            margin: 0 0 0.75rem 0;
            padding-bottom: 0.5rem;
            border-bottom: 1px solid #21262d;
            color: #c9d1d9;
        }

        .beat-entry h3 {
            font-size: 1.1rem;
            font-weight: 500;
            margin: 0 0 0.5rem 0;
            color: #58a6ff;
        }

        .beat-entry p {
            margin-bottom: 0.75rem;
            line-height: 1.6;
        }

        .beat-entry strong {
            color: #58a6ff;
            font-weight: 600;
        }

        .beat-entry hr {
            border: none;
            border-top: 1px solid #21262d;
            margin: 1.5rem 0 0 0;
        }

        .stats {
            background: #0d1117;
            border: 1px solid #30363d;
            border-radius: 6px;
            padding: 1rem;
            margin-bottom: 2rem;
            display: grid;
            grid-template-columns: 1fr 2fr 1fr 2fr;
            gap: 1rem;
            transition: background-color 0.3s ease, border-color 0.3s ease;
        }

        .stat {
            text-align: center;
        }

        .stat-value {
            font-size: 1.5rem;
            color: #58a6ff;
            font-weight: 600;
            transition: color 0.3s ease;
        }

        .stat-label {
            color: #8b949e;
            font-size: 0.85rem;
            text-transform: uppercase;
            letter-spacing: 0.5px;
            transition: color 0.3s ease;
        }

        @media (max-width: 768px) {
            body {
                padding: 1rem;
            }
            
            .container {
                flex-direction: column;
                gap: 1rem;
            }
            
            .sidebar {
                position: static;
                width: 100%;
                order: -1;
            }
            
            h1 {
                font-size: 1.5rem;
            }
            
            .act-section {
                padding: 1rem;
            }
        }
    </style>
")%string.

(** [beatsHTML]: the sections of the acts, the clock read once for each;
    [dates k] is the text of the [k]-th reading of the clock in one call
    of [generateHTMLReport], counted from 0. *)
Fixpoint act_sections (dates : nat -> string) (k : nat) (acts : list ActGroup)
  : list string :=
  match acts with
  | [] => []
  | act :: rest => act_section (dates k) act :: act_sections dates (S k) rest
  end.

Definition beatsHTML (dates : nat -> string) (report : Report) : string :=
  concat_all (act_sections dates 0 (acts report)).

(** The document after the closing tag of its head. *)
Definition report_body (dates : nat -> string) (report : Report) : string :=
  ("
<body>
    <div class=" ++ dq ++ "container" ++ dq ++ ">
        " ++ sidebarHTML report ++ "
        
        <main class=" ++ dq ++ "main-content" ++ dq ++ ">
            <a href=" ++ dq ++ "/" ++ dq ++ " class=" ++ dq ++ "back-link"
   ++ dq ++ ">" ++ larr ++ " Back to Beat Sheets</a>
            
            <div class=" ++ dq ++ "header" ++ dq ++ " id=" ++ dq ++ "overview"
   ++ dq ++ ">
                <div class=" ++ dq ++ "header-content" ++ dq ++ ">
                    <h1>ALLY - BEAT SHEETS REPORT</h1>
                    <div style=" ++ dq
   ++ "color: #58a6ff; font-size: 0.9rem; text-align: left;" ++ dq
   ++ ">As of " ++ dates (List.length (acts report)) ++ "</div>
                </div>
                <div style=" ++ dq ++ "text-align: right;" ++ dq ++ ">
                    <div style=" ++ dq ++ "margin-bottom: 0.5rem;" ++ dq ++ ">
                        <a href=" ++ dq ++ "/api/reports/beats/csv" ++ dq
   ++ " target=" ++ dq ++ "_blank" ++ dq ++ " style=" ++ dq
   ++ "color: #f85149; text-decoration: none; font-size: 0.9rem; padding: 0.5rem 1rem; border: 1px solid #30363d; border-radius: 4px; background: transparent;"
   ++ dq ++ ">" ++ page_icon ++ " Download CSV</a>
                    </div>
                </div>
            </div>
            
            <div class=" ++ dq ++ "stats" ++ dq ++ ">
                <div class=" ++ dq ++ "stat" ++ dq ++ ">
                    <div class=" ++ dq ++ "stat-value" ++ dq ++ ">"
   ++ string_of_nat (total_acts (summary report)) ++ "</div>
                    <div class=" ++ dq ++ "stat-label" ++ dq ++ ">Acts</div>
                </div>
                <div class=" ++ dq ++ "stat" ++ dq ++ ">
                    <div class=" ++ dq ++ "stat-value" ++ dq ++ ">"
   ++ string_of_nat (total_beats (summary report)) ++ "</div>
                    <div class=" ++ dq ++ "stat-label" ++ dq
   ++ ">Total Beats</div>
                </div>
                <div class=" ++ dq ++ "stat" ++ dq ++ ">
                    <div class=" ++ dq ++ "stat-value" ++ dq ++ ">Mark</div>
                    <div class=" ++ dq ++ "stat-label" ++ dq
   ++ ">Director</div>
                </div>
                <div class=" ++ dq ++ "stat" ++ dq ++ ">
                    <div class=" ++ dq ++ "stat-value" ++ dq
   ++ ">MobiCycle Productions</div>
                    <div class=" ++ dq ++ "stat-label" ++ dq
   ++ ">Producer</div>
                </div>
            </div>
        
            " ++ beatsHTML dates report ++ "
            
        </main>
    </div>
</body>
</html>")%string.

Definition head_close : string := "</head>".

Definition generateHTMLReport (dates : nat -> string) (report : Report)
  : string :=
  (report_head_pre ++ head_close ++ report_body dates report)%string.

(** The replacement of the first [replace] of [generatePDFOptimizedHTML]: a
    style block and the closing tag of the head. *)
Definition pdf_head_close : string :=
  ("
      <style>
        .actions { display: none !important; }
        body { padding: 0 !important; background: white !important; }
        .container { box-shadow: none !important; }
      </style>
    </head>")%string.

(** The opening tag that the pattern of the second [replace] starts with,
    and the closing tag it ends with. *)
Definition actions_open : string :=
  ("<div class=" ++ dq ++ "actions" ++ dq ++ ">")%string.

Definition div_close : string := "</div>".

(** The second [replace]: the pattern is the opening tag, then as few
    characters of any kind as possible, then the closing tag; its leftmost
    match is removed.  The leftmost opening tag followed somewhere by a
    closing tag is the start of that match; with no closing tag after it
    the pattern matches nowhere. *)
Fixpoint remove_actions (hay : string) : string :=
  match strip_prefix actions_open hay with
  | Some rest =>
      match after_first div_close rest with
      | Some tail => tail
      | None => hay
      end
  | None =>
      match hay with
      | EmptyString => EmptyString
      | String a rest => String a (remove_actions rest)
      end
  end.

Definition generatePDFOptimizedHTML (dates : nat -> string) (report : Report)
  : string :=
  let html := generateHTMLReport dates report in
  remove_actions (replace_first head_close pdf_head_close html).

End Html.
Import Html.

(** ** Exceptions, JSON and responses *)

Module Http.

(** A thrown [Error] object: its [name] and its [message]. *)
Record JsError := mkError {
  err_name : string;
  err_message : string
}.

(** The completion of a computation that may throw. *)
Inductive outcome (A : Type) : Type :=
| Ok (a : A)
| Throw (e : JsError).
Arguments Ok {A} a.
Arguments Throw {A} e.

Definition bind {A B : Type} (m : outcome A) (k : A -> outcome B) : outcome B :=
  match m with
  | Ok a => k a
  | Throw e => Throw e
  end.

(** [try { m } catch (error) { handler(error) }]. *)
Definition try_catch {A : Type} (m : outcome A) (handler : JsError -> outcome A)
  : outcome A :=
  match m with
  | Ok a => Ok a
  | Throw e => handler e
  end.

(** The values given to [JSON.stringify] by this worker. *)
#[local] Set Warnings "-register-all".
Inductive json : Type :=
| JNull
| JBool (b : bool)
| JNum (z : Z)
| JStr (s : string)
| JArr (items : list json)
| JObj (props : list (string * json)).

Definition backslash : string := "\".

Definition hex_digit (n : nat) : string :=
  String.substring n 1 "0123456789abcdef".

(** One character inside a JSON string literal. *)
Definition json_escape_char (c : ascii) : string :=
  let n := Ascii.nat_of_ascii c in
  if Nat.eqb n 34 then (backslash ++ dq)%string
  else if Nat.eqb n 92 then (backslash ++ backslash)%string
  else if Nat.eqb n 8 then (backslash ++ "b")%string
  else if Nat.eqb n 12 then (backslash ++ "f")%string
  else if Nat.eqb n 10 then (backslash ++ "n")%string
  else if Nat.eqb n 13 then (backslash ++ "r")%string
  else if Nat.eqb n 9 then (backslash ++ "t")%string
  else if Nat.ltb n 32
       then (backslash ++ "u00" ++ hex_digit (n / 16) ++ hex_digit (n mod 16))%string
  else String c EmptyString.

Fixpoint json_escape (s : string) : string :=
  match s with
  | EmptyString => EmptyString
  | String c rest => (json_escape_char c ++ json_escape rest)%string
  end.

Definition json_quote (s : string) : string :=
  (dq ++ json_escape s ++ dq)%string.

Definition comma_nl : string := ("," ++ nl)%string.

(** [JSON.stringify(value, null, 2)], the text of a value nested at the
    indentation [ind]. *)
Fixpoint stringify_at (ind : string) (value : json) : string :=
  let inner := (ind ++ "  ")%string in
  match value with
  | JNull => "null"
  | JBool b => if b then "true" else "false"
  | JNum z => string_of_Z z
  | JStr s => json_quote s
  | JArr items =>
      match items with
      | [] => "[]"
      | _ => ("[" ++ nl
              ++ join comma_nl
                   (map (fun item => (inner ++ stringify_at inner item)%string)
                        items)
              ++ nl ++ ind ++ "]")%string
      end
  | JObj props =>
      match props with
      | [] => "{}"
      | _ => ("{" ++ nl
              ++ join comma_nl
                   (map (fun kv =>
                           match kv with
                           | (k, v) =>
                               (inner ++ json_quote k ++ ": "
                                ++ stringify_at inner v)%string
                           end) props)
              ++ nl ++ ind ++ "}")%string
      end
  end.

Definition stringify (value : json) : string := stringify_at EmptyString value.

(** A [Response]: status, headers in the order of the object literal, and
    body. *)
Record Response := mkResponse {
  status : nat;
  headers : list (string * string);
  body : option string
}.

Fixpoint header (name : string) (hs : list (string * string)) : option string :=
  match hs with
  | [] => None
  | (k, v) :: rest => if String.eqb k name then Some v else header name rest
  end.

Definition content_type (r : Response) : option string :=
  header "Content-Type" (headers r).

(** [jsonResponse(data, status, additionalHeaders)] of [utils.js]. *)
Definition jsonResponse (data : json) (status : nat)
  (additionalHeaders : list (string * string)) : Response :=
  {| status := status;
     headers := ("Content-Type", "application/json") :: additionalHeaders;
     body := Some (stringify data) |}.

(** [new Response(text, { status, headers: { 'Content-Type': type,
    ...corsHeaders } })]. *)
Definition textResponse (text : string) (status : nat) (type : string)
  (corsHeaders : list (string * string)) : Response :=
  {| status := status;
     headers := ("Content-Type", type) :: corsHeaders;
     body := Some text |}.

End Http.
Import Http.

(** ** The templates of the pages *)

Module Templates.

(** [generatePageHeader(title, subtitle, subtitleColor)]. *)
Definition generatePageHeader (title subtitle subtitleColor : string) : string :=
  ("
    <div class=" ++ dq ++ "header" ++ dq ++ ">
        <h1>" ++ title ++ "</h1>
        <p class=" ++ dq ++ "subtitle" ++ dq ++ " style=" ++ dq ++ "color: "
   ++ subtitleColor ++ "; font-weight: 600;" ++ dq ++ ">" ++ subtitle ++ "</p>
    </div>
  ")%string.

(** The default of the third parameter of [generatePageHeader]. *)
Definition default_subtitle_color : string := "#888".

(** [generateHomepage()] of [ui.js]. *)
Definition generateHomepage : string :=
  ("<!DOCTYPE html>
<html lang=" ++ dq ++ "en" ++ dq ++ ">
<head>
    <meta charset=" ++ dq ++ "UTF-8" ++ dq ++ ">
    <meta name=" ++ dq ++ "viewport" ++ dq ++ " content=" ++ dq
   ++ "width=device-width, initial-scale=1.0" ++ dq ++ ">
    <title>MobiCycle Productions - Beat Sheets</title>
    <style>
        * {
            margin: 0;
            padding: 0;
            box-sizing: border-box;
        }

        body {
            font-family: -apple-system, BlinkMacSystemFont, 'Segoe UI', Roboto, Oxygen, Ubuntu, Cantarell, sans-serif;
            background: #0a0a0a;
            min-height: 100vh;
            color: #fff;
            display: flex;
            align-items: center;
            justify-content: center;
            padding: 2rem;
        }

        .container {
            text-align: center;
            max-width: 800px;
        }

        .logo {
            font-size: 3rem;
            font-weight: 300;
            margin-bottom: 1rem;
            font-family: Georgia, 'Times New Roman', serif;
            letter-spacing: 2px;
        }

        .tagline {
            font-size: 1.2rem;
            color: #888;
            margin-bottom: 3rem;
        }

        .projects-grid {
            display: grid;
            grid-template-columns: repeat(auto-fit, minmax(250px, 1fr));
            gap: 2rem;
            margin-bottom: 3rem;
        }

        .project-card {
            background: #111;
            border: 1px solid #333;
            border-radius: 8px;
            padding: 2rem;
            transition: border-color 0.2s, transform 0.2s;
            text-decoration: none;
            color: inherit;
        }

        .project-card:hover {
            border-color: #555;
            transform: translateY(-2px);
        }

        .project-card h3 {
            font-size: 1.3rem;
            margin-bottom: 1rem;
            color: #fff;
        }

        .project-card p {
            color: #ccc;
            line-height: 1.6;
            font-size: 0.9rem;
        }

        .main-project {
            grid-column: 1 / -1;
            background: linear-gradient(135deg, #667eea 0%, #764ba2 100%);
            border: none;
            color: white;
        }

        .main-project h3 {
            color: white;
            font-size: 1.8rem;
        }

        .main-project p {
            color: rgba(255, 255, 255, 0.9);
            font-size: 1rem;
        }

        .footer {
            font-size: 0.9rem;
            color: #666;
            margin-top: 2rem;
        }

        @media (max-width: 768px) {
            .logo {
                font-size: 2rem;
            }
            
            .projects-grid {
                grid-template-columns: 1fr;
            }
        }
    </style>
</head>
<body>
    <div class=" ++ dq ++ "container" ++ dq ++ ">
        <h1 class=" ++ dq ++ "logo" ++ dq ++ ">MobiCycle Productions</h1>
        <p class=" ++ dq ++ "tagline" ++ dq
   ++ ">Premium Content Development & Production Services</p>
        
        <div class=" ++ dq ++ "projects-grid" ++ dq ++ ">
            <a href=" ++ dq ++ "/ally" ++ dq ++ " class=" ++ dq
   ++ "project-card main-project" ++ dq ++ ">
                <h3>ALLY Beat Sheets</h3>
                <p>Comprehensive beat sheet management for the ALLY screenplay project. Track story beats, scene structure, and narrative flow with professional precision.</p>
            </a>
            
            <a href=" ++ dq ++ "https://acts.mobicycle.productions/" ++ dq
   ++ " class=" ++ dq ++ "project-card" ++ dq ++ ">
                <h3>Acts</h3>
                <p>Manage and view act structure for the ALLY project with detailed content organization.</p>
            </a>
            
            <a href=" ++ dq ++ "https://sequences.mobicycle.productions/"
   ++ dq ++ " class=" ++ dq ++ "project-card" ++ dq ++ ">
                <h3>Sequences</h3>
                <p>Sequence-level content management and display for comprehensive story development.</p>
            </a>
            
            <a href=" ++ dq ++ "https://scenes.mobicycle.productions/" ++ dq
   ++ " class=" ++ dq ++ "project-card" ++ dq ++ ">
                <h3>Scenes</h3>
                <p>Granular scene management with detailed breakdowns and analysis tools.</p>
            </a>
        </div>
        
        <div class=" ++ dq ++ "footer" ++ dq ++ ">
            <p>&copy; 2024 MobiCycle Productions. All rights reserved.</p>
        </div>
    </div>
</body>
</html>")%string.

(** The object [beatData] that [handleRequest] gives to [generateBeatPage]. *)
Record BeatData := mkBeatData {
  bd_title : string;
  bd_description : string;
  bd_conflict : string;
  bd_emotion : string;
  bd_location : string;
  bd_timeOfDay : string;
  bd_characters : string;
  bd_sceneNumber : Z;
  bd_lastUpdated : string;
  bd_createdDate : string
}.

(** [generateBeatPage(actNumber, beatNumber, beatData, actTitle)] of [ui.js]. *)
Definition generateBeatPage (actNumber beatNumber : Z) (beatData : BeatData)
  (actTitle : string) : string :=
  ("<!DOCTYPE html>
<html lang=" ++ dq ++ "en" ++ dq ++ ">
<head>
    <meta charset=" ++ dq ++ "UTF-8" ++ dq ++ ">
    <meta name=" ++ dq ++ "viewport" ++ dq ++ " content=" ++ dq
   ++ "width=device-width, initial-scale=1.0" ++ dq ++ ">
    <title>ALLY - " ++ actTitle ++ " - Beat " ++ string_of_Z beatNumber
   ++ "</title>
    <style>
        * {
            margin: 0;
            padding: 0;
            box-sizing: border-box;
        }

        body {
            font-family: 'Segoe UI', Roboto, 'Helvetica Neue', Arial, sans-serif;
            background: #0d1117;
            color: #c9d1d9;
            line-height: 1.6;
            padding: 2rem;
        }

        .container {
            max-width: 1000px;
            margin: 0 auto;
        }

        .back-link {
            color: #58a6ff;
            text-decoration: none;
            display: inline-block;
            margin-bottom: 2rem;
            font-size: 0.9rem;
        }

        .back-link:hover {
            text-decoration: underline;
        }

        .header {
            border-bottom: 2px solid #21262d;
            padding-bottom: 1.5rem;
            margin-bottom: 2rem;
        }

        h1 {
            font-size: 2rem;
            font-weight: 600;
            color: #58a6ff;
            margin-bottom: 0.5rem;
        }

        .metadata {
            color: #8b949e;
            font-size: 0.9rem;
            display: flex;
            gap: 2rem;
            flex-wrap: wrap;
        }

        .content-section {
            background: #161b22;
            border: 1px solid #30363d;
            border-radius: 6px;
            padding: 2rem;
            margin-bottom: 2rem;
        }

        .content-section h2 {
            font-size: 1.3rem;
            color: #58a6ff;
            margin-bottom: 1rem;
            border-bottom: 1px solid #21262d;
            padding-bottom: 0.5rem;
        }

        .content-section p {
            margin-bottom: 1rem;
            line-height: 1.7;
        }

        .beat-details {
            display: grid;
            grid-template-columns: repeat(auto-fit, minmax(250px, 1fr));
            gap: 1.5rem;
            margin-bottom: 2rem;
        }

        .detail-card {
            background: #0d1117;
            border: 1px solid #21262d;
            border-radius: 6px;
            padding: 1rem;
        }

        .detail-card h3 {
            color: #f85149;
            font-size: 0.9rem;
            text-transform: uppercase;
            letter-spacing: 0.5px;
            margin-bottom: 0.5rem;
        }

        .detail-card p {
            color: #c9d1d9;
            font-size: 1rem;
            margin: 0;
        }

        .navigation {
            display: flex;
            justify-content: space-between;
            align-items: center;
            padding: 1rem 0;
            border-top: 1px solid #21262d;
            margin-top: 2rem;
        }

        .nav-button {
            color: #58a6ff;
            text-decoration: none;
            padding: 0.5rem 1rem;
            border: 1px solid #30363d;
            border-radius: 4px;
            transition: background 0.2s;
        }

        .nav-button:hover {
            background: #21262d;
        }

        .nav-button:disabled {
            color: #8b949e;
            border-color: #21262d;
            pointer-events: none;
        }

        @media (max-width: 768px) {
            body {
                padding: 1rem;
            }
            
            h1 {
                font-size: 1.5rem;
            }
            
            .beat-details {
                grid-template-columns: 1fr;
            }
            
            .navigation {
                flex-direction: column;
                gap: 1rem;
            }
        }
    </style>
</head>
<body>
    <div class=" ++ dq ++ "container" ++ dq ++ ">
        <a href=" ++ dq ++ "/ally/act/" ++ string_of_Z actNumber ++ dq
   ++ " class=" ++ dq ++ "back-link" ++ dq ++ ">" ++ larr ++ " Back to "
   ++ actTitle ++ "</a>
        
        <div class=" ++ dq ++ "header" ++ dq ++ ">
            <h1>Beat " ++ string_of_Z beatNumber ++ " "
   ++ (if negb (Z.eqb (bd_sceneNumber beatData) 0)
       then "(Scene " ++ string_of_Z (bd_sceneNumber beatData) ++ ")"
       else EmptyString) ++ "</h1>
            <div class=" ++ dq ++ "metadata" ++ dq ++ ">
                <span>Last updated: " ++ bd_lastUpdated beatData ++ "</span>
                <span>Created: " ++ bd_createdDate beatData ++ "</span>
            </div>
        </div>

        <div class=" ++ dq ++ "content-section" ++ dq ++ ">
            <h2>" ++ bd_title beatData ++ "</h2>
            <p>" ++ bd_description beatData ++ "</p>
        </div>

        <div class=" ++ dq ++ "beat-details" ++ dq ++ ">
            <div class=" ++ dq ++ "detail-card" ++ dq ++ ">
                <h3>Conflict</h3>
                <p>" ++ bd_conflict beatData ++ "</p>
            </div>
            
            <div class=" ++ dq ++ "detail-card" ++ dq ++ ">
                <h3>Emotion</h3>
                <p>" ++ bd_emotion beatData ++ "</p>
            </div>
            
            <div class=" ++ dq ++ "detail-card" ++ dq ++ ">
                <h3>Location</h3>
                <p>" ++ bd_location beatData ++ "</p>
            </div>
            
            <div class=" ++ dq ++ "detail-card" ++ dq ++ ">
                <h3>Time of Day</h3>
                <p>" ++ bd_timeOfDay beatData ++ "</p>
            </div>
            
            <div class=" ++ dq ++ "detail-card" ++ dq ++ ">
                <h3>Characters</h3>
                <p>" ++ bd_characters beatData ++ "</p>
            </div>
        </div>

        <div class=" ++ dq ++ "navigation" ++ dq ++ ">
            <a href=" ++ dq ++ "/ally/act/" ++ string_of_Z actNumber
   ++ "/beat/" ++ string_of_Z (beatNumber - 1) ++ dq ++ " class=" ++ dq
   ++ "nav-button" ++ dq ++ " " ++ (if Z.leb beatNumber 1
       then "style=" ++ dq ++ "visibility: hidden;" ++ dq
       else EmptyString) ++ ">
                " ++ larr ++ " Previous Beat
            </a>
            
            <a href=" ++ dq ++ "/ally/act/" ++ string_of_Z actNumber ++ dq
   ++ " class=" ++ dq ++ "nav-button" ++ dq ++ ">
                " ++ actTitle ++ " Overview
            </a>
            
            <a href=" ++ dq ++ "/ally/act/" ++ string_of_Z actNumber
   ++ "/beat/" ++ string_of_Z (beatNumber + 1) ++ dq ++ " class=" ++ dq
   ++ "nav-button" ++ dq ++ ">
                Next Beat " ++ rarr ++ "
            </a>
        </div>
    </div>
</body>
</html>")%string.

(** The document of [generateActsOverview]. *)
Definition acts_overview_html : string :=
  ("<!DOCTYPE html>
<html lang=" ++ dq ++ "en" ++ dq ++ ">
<head>
    <meta charset=" ++ dq ++ "UTF-8" ++ dq ++ ">
    <meta name=" ++ dq ++ "viewport" ++ dq ++ " content=" ++ dq
   ++ "width=device-width, initial-scale=1.0" ++ dq ++ ">
    <title>ALLY - Beat Sheets Overview</title>
    <style>
        * {
            margin: 0;
            padding: 0;
            box-sizing: border-box;
        }

        body {
            font-family: -apple-system, BlinkMacSystemFont, 'Segoe UI', Roboto, Oxygen, Ubuntu, Cantarell, sans-serif;
            background: #0a0a0a;
            min-height: 100vh;
            color: #fff;
            padding: 2rem;
        }

        .container {
            max-width: 1200px;
            margin: 0 auto;
        }

        .header {
            text-align: center;
            margin-bottom: 3rem;
            padding-bottom: 2rem;
            border-bottom: 1px solid #333;
        }

        .header h1 {
            font-size: 3rem;
            font-weight: 300;
            margin-bottom: 1rem;
            font-family: Georgia, 'Times New Roman', serif;
            letter-spacing: 2px;
        }

        .header .subtitle {
            font-size: 1.2rem;
            color: #888;
        }

        .nav {
            margin-bottom: 2rem;
        }

        .nav a {
            color: #fff;
            text-decoration: none;
            font-size: 1rem;
            padding: 0.5rem 1rem;
            border-radius: 4px;
            transition: background 0.2s;
        }

        .nav a:hover {
            background: #333;
        }

        .acts-grid {
            display: grid;
            grid-template-columns: repeat(auto-fit, minmax(300px, 1fr));
            gap: 2rem;
        }

        .act-card {
            background: #111;
            border: 1px solid #333;
            border-radius: 8px;
            padding: 2rem;
            transition: border-color 0.2s;
        }

        .act-card:hover {
            border-color: #555;
        }

        .act-card h3 {
            font-size: 1.5rem;
            margin-bottom: 1rem;
            color: #fff;
        }

        .act-card p {
            color: #ccc;
            line-height: 1.6;
        }

        .act-card a {
            color: inherit;
            text-decoration: none;
        }

        @media (max-width: 768px) {
            .header h1 {
                font-size: 2rem;
            }
            
            .acts-grid {
                grid-template-columns: 1fr;
            }
        }
    </style>
</head>
<body>
    <div class=" ++ dq ++ "container" ++ dq ++ ">
        " ++ generatePageHeader "ALLY" "BEAT SHEETS OVERVIEW" "#f85149" ++ "
        
        <div class=" ++ dq ++ "nav" ++ dq ++ ">
            <a href=" ++ dq ++ "/" ++ dq ++ ">&larr; Back to Projects</a>
        </div>

        <div class=" ++ dq ++ "acts-grid" ++ dq ++ ">
            <div class=" ++ dq ++ "act-card" ++ dq ++ ">
                <a href=" ++ dq ++ "/ally/beats/all" ++ dq ++ ">
                    <h3 style=" ++ dq ++ "color: #667eea;" ++ dq
   ++ ">All Beats</h3>
                    <p>Complete beat sheet across all acts with detailed scene breakdown and export options.</p>
                </a>
            </div>
            
            <div class=" ++ dq ++ "act-card" ++ dq ++ ">
                <a href=" ++ dq ++ "/ally/act/1" ++ dq ++ ">
                    <h3>Act 1 Beats</h3>
                    <p>The beginning beats of Ally's journey. Each beat represents one scene in the opening act.</p>
                </a>
            </div>
            
            <div class=" ++ dq ++ "act-card" ++ dq ++ ">
                <a href=" ++ dq ++ "/ally/act/2" ++ dq ++ ">
                    <h3>Act 2A Beats</h3>
                    <p>First half of the second act beats, where the plot thickens and challenges mount.</p>
                </a>
            </div>
            
            <div class=" ++ dq ++ "act-card" ++ dq ++ ">
                <a href=" ++ dq ++ "/ally/act/2b" ++ dq ++ ">
                    <h3>Act 2B Beats</h3>
                    <p>Second half of act two beats, building toward the climactic confrontation.</p>
                </a>
            </div>
            
            <div class=" ++ dq ++ "act-card" ++ dq ++ ">
                <a href=" ++ dq ++ "/ally/act/3" ++ dq ++ ">
                    <h3>Act 3 Beats</h3>
                    <p>The climactic beats where all story threads come together for the final resolution.</p>
                </a>
            </div>
            
            <div class=" ++ dq ++ "act-card" ++ dq ++ ">
                <a href=" ++ dq ++ "https://sequences.mobicycle.productions/"
   ++ dq ++ ">
                    <h3 style=" ++ dq ++ "color: #58a6ff;" ++ dq
   ++ ">Sequences</h3>
                    <p>View the broader sequence structure that contains these beats. Login required.</p>
                </a>
            </div>
        </div>
    </div>
</body>
</html>")%string.

(** A row of the query of [generateAllBeatsPage]. *)
Record CardRow := mkCardRow {
  card_beat_number : Z;
  card_scene_number : option Z;
  card_title : option string;
  card_description : option string;
  card_act_no : Z;
  card_act_title : string
}.

(** The text given to [allBeatCards] when the query returns no row. *)
Definition all_no_content : string :=
  ("
        <div class=" ++ dq ++ "no-content" ++ dq ++ ">
          <h2>No Beats Found</h2>
          <p>There are currently no beats in the database. Add some beats to see them here.</p>
        </div>
      ")%string.

(** The heading appended for one act. *)
Definition all_act_divider (act_title : string) : string :=
  ("<div class=" ++ dq ++ "act-divider" ++ dq ++ "><h2>" ++ act_title
   ++ "</h2></div>")%string.

(** The card appended for one beat; [actNo] is the property key of the act. *)
Definition all_beat_card (actNo act_title : string) (beat : CardRow) : string :=
  ("
            <div class=" ++ dq ++ "beat-card" ++ dq ++ ">
              <a href=" ++ dq ++ "/ally/act/" ++ actNo ++ "/beat/"
   ++ string_of_Z (card_beat_number beat) ++ dq ++ ">
                <h3>Beat " ++ string_of_Z (card_beat_number beat) ++ " "
   ++ (if truthy_num (card_scene_number beat)
       then "(Scene " ++ num_text (card_scene_number beat) ++ ")"
       else EmptyString) ++ "</h3>
                <p>" ++ str_or (card_title beat)
        ("Beat " ++ string_of_Z (card_beat_number beat) ++ " from " ++ act_title)
   ++ "</p>
              </a>
            </div>
          ")%string.

(** The text assigned to [allBeatCards] in the [catch] block. *)
Definition all_error_content : string :=
  ("
      <div class=" ++ dq ++ "error-content" ++ dq ++ ">
        <h2>Database Error</h2>
        <p>Unable to load beats. Please try again later.</p>
      </div>
    ")%string.

(** The document of [generateAllBeatsPage], given the value read from
    [allBeatCards]. *)
Definition all_beats_html (allBeatCards : string) : string :=
  ("<!DOCTYPE html>
<html lang=" ++ dq ++ "en" ++ dq ++ ">
<head>
    <meta charset=" ++ dq ++ "UTF-8" ++ dq ++ ">
    <meta name=" ++ dq ++ "viewport" ++ dq ++ " content=" ++ dq
   ++ "width=device-width, initial-scale=1.0" ++ dq ++ ">
    <title>ALLY - All Beats</title>
    <style>
        * {
            margin: 0;
            padding: 0;
            box-sizing: border-box;
        }

        body {
            font-family: -apple-system, BlinkMacSystemFont, 'Segoe UI', Roboto, Oxygen, Ubuntu, Cantarell, sans-serif;
            background: #0a0a0a;
            min-height: 100vh;
            color: #fff;
            padding: 2rem;
        }

        .container {
            max-width: 1200px;
            margin: 0 auto;
        }

        .header {
            text-align: center;
            margin-bottom: 3rem;
            padding-bottom: 2rem;
            border-bottom: 1px solid #333;
        }

        .header h1 {
            font-size: 3rem;
            font-weight: 300;
            margin-bottom: 1rem;
            font-family: Georgia, 'Times New Roman', serif;
            letter-spacing: 2px;
        }

        .header .subtitle {
            font-size: 1.2rem;
            color: #888;
        }

        .nav {
            margin-bottom: 2rem;
        }

        .nav a {
            color: #fff;
            text-decoration: none;
            font-size: 1rem;
            padding: 0.5rem 1rem;
            border-radius: 4px;
            transition: background 0.2s;
        }

        .nav a:hover {
            background: #333;
        }

        .act-divider {
            margin: 3rem 0 2rem 0;
            text-align: center;
            border-top: 2px solid #333;
            padding-top: 2rem;
        }

        .act-divider:first-of-type {
            margin-top: 0;
            border-top: none;
            padding-top: 0;
        }

        .act-divider h2 {
            font-size: 1.8rem;
            color: #667eea;
            font-weight: 600;
            margin-bottom: 1rem;
        }

        .beats-grid {
            display: grid;
            grid-template-columns: repeat(auto-fit, minmax(300px, 1fr));
            gap: 2rem;
            margin-bottom: 2rem;
        }

        .beat-card {
            background: #111;
            border: 1px solid #333;
            border-radius: 8px;
            padding: 2rem;
            transition: border-color 0.2s;
        }

        .beat-card:hover {
            border-color: #555;
        }

        .beat-card h3 {
            font-size: 1.5rem;
            margin-bottom: 1rem;
            color: #fff;
        }

        .beat-card p {
            color: #ccc;
            line-height: 1.6;
        }

        .beat-card a {
            color: inherit;
            text-decoration: none;
        }

        @media (max-width: 768px) {
            .header h1 {
                font-size: 2rem;
            }
            
            .beats-grid {
                grid-template-columns: 1fr;
            }
        }
    </style>
</head>
<body>
    <div class=" ++ dq ++ "container" ++ dq ++ ">
        "
   ++ generatePageHeader "ALLY" "All Beats - Complete Beat Sheet Overview"
        default_subtitle_color ++ "
        
        <div class=" ++ dq ++ "nav" ++ dq ++ ">
            <a href=" ++ dq ++ "/ally" ++ dq ++ ">&larr; Back to Acts</a>
        </div>

        <div class=" ++ dq ++ "beats-grid" ++ dq ++ ">
            " ++ allBeatCards ++ "
        </div>
    </div>
</body>
</html>")%string.

(** A row of the first query of [generateActBeatsPage]. *)
Record ActBeatRow := mkActBeatRow {
  ab_beat_number : Z;
  ab_scene_number : option Z;
  ab_title : option string;
  ab_description : option string;
  ab_act_title : string
}.

(** The card shown when the act has no beat. *)
Definition act_no_beats (actTitle : string) : string :=
  ("
        <div class=" ++ dq ++ "beat-card" ++ dq ++ ">
          <div style=" ++ dq
   ++ "text-align: center; padding: 3rem; color: #8b949e;" ++ dq ++ ">
            <h3>No Beats Found</h3>
            <p>There are currently no beats for " ++ actTitle
   ++ ". Add some beats to see them here.</p>
          </div>
        </div>
      ")%string.

(** The card of one beat of the act. *)
Definition act_beat_card (actNumber : Z) (actTitle : string) (beat : ActBeatRow) : string :=
  ("
        <div class=" ++ dq ++ "beat-card" ++ dq ++ ">
          <a href=" ++ dq ++ "/ally/act/" ++ string_of_Z actNumber ++ "/beat/"
   ++ string_of_Z (ab_beat_number beat) ++ dq ++ ">
            <h3>Beat " ++ string_of_Z (ab_beat_number beat) ++ " "
   ++ (if truthy_num (ab_scene_number beat)
       then "(Scene " ++ num_text (ab_scene_number beat) ++ ")"
       else EmptyString) ++ "</h3>
            <p>" ++ str_or (ab_title beat)
        ("Beat " ++ string_of_Z (ab_beat_number beat) ++ " content for " ++ actTitle)
   ++ "</p>
          </a>
        </div>
      ")%string.

(** The card assigned in the [catch] block. *)
Definition act_error_card (actTitle : string) : string :=
  ("
      <div class=" ++ dq ++ "beat-card" ++ dq ++ ">
        <div style=" ++ dq
   ++ "text-align: center; padding: 3rem; color: #f85149;" ++ dq ++ ">
          <h3>Database Error</h3>
          <p>Unable to load beats for " ++ actTitle
   ++ ". Please try again later.</p>
        </div>
      </div>
    ")%string.

(** The document of [generateActBeatsPage]. *)
Definition act_beats_html (actNumber : Z) (actTitle beatCards : string) : string :=
  ("<!DOCTYPE html>
<html lang=" ++ dq ++ "en" ++ dq ++ ">
<head>
    <meta charset=" ++ dq ++ "UTF-8" ++ dq ++ ">
    <meta name=" ++ dq ++ "viewport" ++ dq ++ " content=" ++ dq
   ++ "width=device-width, initial-scale=1.0" ++ dq ++ ">
    <title>ALLY - " ++ actTitle ++ " Beats</title>
    <style>
        * {
            margin: 0;
            padding: 0;
            box-sizing: border-box;
        }

        body {
            font-family: -apple-system, BlinkMacSystemFont, 'Segoe UI', Roboto, Oxygen, Ubuntu, Cantarell, sans-serif;
            background: #0a0a0a;
            min-height: 100vh;
            color: #fff;
            padding: 2rem;
        }

        .container {
            max-width: 1200px;
            margin: 0 auto;
        }

        .header {
            text-align: center;
            margin-bottom: 3rem;
            padding-bottom: 2rem;
            border-bottom: 1px solid #333;
        }

        .header h1 {
            font-size: 3rem;
            font-weight: 300;
            margin-bottom: 1rem;
            font-family: Georgia, 'Times New Roman', serif;
            letter-spacing: 2px;
        }

        .header .subtitle {
            font-size: 1.2rem;
            color: #888;
        }

        .nav {
            margin-bottom: 2rem;
        }

        .nav a {
            color: #fff;
            text-decoration: none;
            font-size: 1rem;
            padding: 0.5rem 1rem;
            border-radius: 4px;
            transition: background 0.2s;
        }

        .nav a:hover {
            background: #333;
        }

        .beats-grid {
            display: grid;
            grid-template-columns: repeat(auto-fit, minmax(300px, 1fr));
            gap: 2rem;
        }

        .beat-card {
            background: #111;
            border: 1px solid #333;
            border-radius: 8px;
            padding: 2rem;
            transition: border-color 0.2s;
        }

        .beat-card:hover {
            border-color: #555;
        }

        .beat-card h3 {
            font-size: 1.5rem;
            margin-bottom: 1rem;
            color: #fff;
        }

        .beat-card p {
            color: #ccc;
            line-height: 1.6;
        }

        .beat-card a {
            color: inherit;
            text-decoration: none;
        }

        @media (max-width: 768px) {
            .header h1 {
                font-size: 2rem;
            }
            
            .beats-grid {
                grid-template-columns: 1fr;
            }
        }
    </style>
</head>
<body>
    <div class=" ++ dq ++ "container" ++ dq ++ ">
        "
   ++ generatePageHeader "ALLY" ("ACT " ++ string_of_Z actNumber ++ " BEATS")
        "#f85149" ++ "
        
        <div class=" ++ dq ++ "nav" ++ dq ++ ">
            <a href=" ++ dq ++ "/ally" ++ dq ++ ">&larr; Back to Acts</a>
        </div>

        <div class=" ++ dq ++ "beats-grid" ++ dq ++ ">
            <div class=" ++ dq ++ "beat-card" ++ dq ++ ">
                <a href=" ++ dq ++ "/ally/beats/all" ++ dq ++ ">
                    <h3 style=" ++ dq ++ "color: #667eea;" ++ dq
   ++ ">All Beats</h3>
                    <p>View all beats across all acts with navigation to individual beat details.</p>
                </a>
            </div>
            " ++ beatCards ++ "
        </div>
    </div>
</body>
</html>")%string.

End Templates.
Import Templates.

(** ** The worker: queries, report requests, pages and routing *)

Module Worker.

(** *** Block scopes

    The string variables of a function body, as a chain of frames with the
    innermost block first.  A [let] declares in the innermost frame; an
    assignment or a reference resolves to the nearest frame that declares
    the name; a block opens a frame and closes it when it ends. *)

Definition Frame := list (string * string).
Definition Chain := list Frame.

Fixpoint frame_get (x : string) (f : Frame) : option string :=
  match f with
  | [] => None
  | (y, v) :: rest => if String.eqb y x then Some v else frame_get x rest
  end.

Fixpoint frame_set (x v : string) (f : Frame) : Frame :=
  match f with
  | [] => []
  | (y, w) :: rest =>
      if String.eqb y x then (y, v) :: rest else (y, w) :: frame_set x v rest
  end.

Fixpoint resolve (x : string) (ch : Chain) : option string :=
  match ch with
  | [] => None
  | f :: outer =>
      match frame_get x f with
      | Some v => Some v
      | None => resolve x outer
      end
  end.

Fixpoint assign (x v : string) (ch : Chain) : option Chain :=
  match ch with
  | [] => None
  | f :: outer =>
      match frame_get x f with
      | Some _ => Some (frame_set x v f :: outer)
      | None => option_map (cons f) (assign x v outer)
      end
  end.

Definition declare (x v : string) (ch : Chain) : Chain :=
  match ch with
  | f :: outer => ((x, v) :: f) :: outer
  | [] => [[(x, v)]]
  end.

Definition enter_block (ch : Chain) : Chain := [] :: ch.
Definition leave_block (ch : Chain) : Chain := tl ch.

Definition ReferenceError (x : string) : JsError :=
  mkError "ReferenceError" (x ++ " is not defined")%string.

(** Statements that read and write these variables and may throw: a state
    and exception monad over the scope chain.  The chain survives a throw,
    so that a [catch] block sees the assignments made before it. *)
Definition Exec (A : Type) : Type := Chain -> outcome A * Chain.

Definition ret {A : Type} (a : A) : Exec A := fun ch => (Ok a, ch).

Definition bindE {A B : Type} (m : Exec A) (k : A -> Exec B) : Exec B :=
  fun ch =>
    match m ch with
    | (Ok a, ch') => k a ch'
    | (Throw e, ch') => (Throw e, ch')
    end.

(** [try { m } catch (error) { handler(error) }]. *)
Definition try_ {A : Type} (m : Exec A) (handler : JsError -> Exec A) : Exec A :=
  fun ch =>
    match m ch with
    | (Ok a, ch') => (Ok a, ch')
    | (Throw e, ch') => handler e ch'
    end.

(** [{ m }]: the frame of the block is dropped when the block is left,
    by its end or by a throw. *)
Definition block {A : Type} (m : Exec A) : Exec A :=
  fun ch => let (r, ch') := m (enter_block ch) in (r, leave_block ch').

(** [let x = v]. *)
Definition let_var (x v : string) : Exec unit :=
  fun ch => (Ok tt, declare x v ch).

(** A reference to [x]: its value, or a [ReferenceError] when no enclosing
    scope declares it. *)
Definition get_var (x : string) : Exec string :=
  fun ch =>
    match resolve x ch with
    | Some v => (Ok v, ch)
    | None => (Throw (ReferenceError x), ch)
    end.

(** [x = v] in strict mode (the worker is an ES module): a [ReferenceError]
    when no enclosing scope declares [x]. *)
Definition set_var (x v : string) : Exec unit :=
  fun ch =>
    match assign x v ch with
    | Some ch' => (Ok tt, ch')
    | None => (Throw (ReferenceError x), ch)
    end.

(** [await] of a statement of the row source. *)
Definition await {A : Type} (q : outcome A) : Exec A := fun ch => (q, ch).

(** The call of a function whose body is [m]: the body starts with an
    empty frame of its own. *)
Definition call {A : Type} (m : Exec A) : outcome A := fst (m [[]]).

(** *** The row source and the rest of the environment *)

(** The row of [SELECT title FROM acts WHERE act_no = ?]. *)
Record ActRow := mkActRow {
  act_row_title : string
}.

(** The row of the query of the beat page: the columns of the report query
    without [act_id]. *)
Record DetailRow := mkDetailRow {
  d_id : Z;
  d_beat_number : Z;
  d_scene_number : option Z;
  d_title : option string;
  d_description : option string;
  d_conflict : option string;
  d_emotion : option string;
  d_location : option string;
  d_time_of_day : option string;
  d_characters : option string;
  d_version : option Z;
  d_created_at : option string;
  d_updated_at : option string;
  d_act_no : Z;
  d_act_title : string
}.

(** The D1 binding, seen through the five statements the worker prepares:
    each gives its rows ([all()]) or its first row ([first()]), or throws. *)
Record RowSource := mkRowSource {
  report_query : outcome (list BeatRow);
  all_beats_query : outcome (list CardRow);
  act_beats_query : Z -> outcome (list ActBeatRow);
  act_query : Z -> outcome (option ActRow);
  beat_query : Z -> Z -> outcome (option DetailRow)
}.

Record Env := mkEnv {
  SCREENPLAY_DRAFT : RowSource;
  API_KEY : option string
}.

(** What the worker reads from the clock and the locale during one request:
    [iso_now k] is the [k]-th [new Date().toISOString()], [long_date k] the
    [k]-th [new Date().toLocaleDateString('en-US', ...)] and [locale_date t]
    is [new Date(t).toLocaleDateString()]. *)
Record Runtime := mkRuntime {
  iso_now : nat -> string;
  long_date : nat -> string;
  locale_date : string -> string
}.

(** The request: its method, [new URL(request.url).pathname] and the three
    headers the worker reads. *)
Record Request := mkRequest {
  method : string;
  path : string;
  cf_access_jwt : option string;
  x_api_key : option string;
  authorization : option string
}.

Definition corsHeaders : list (string * string) :=
  [ ("Access-Control-Allow-Origin", "*");
    ("Access-Control-Allow-Methods", "GET, POST, PUT, DELETE, OPTIONS");
    ("Access-Control-Allow-Headers", "Content-Type, Authorization, X-API-Key") ].

(** *** The report *)

Definition json_str (v : option string) : json :=
  match v with
  | Some s => JStr s
  | None => JNull
  end.

Definition json_num (v : option Z) : json :=
  match v with
  | Some z => JNum z
  | None => JNull
  end.

Definition beat_json (beat : BeatView) : json :=
  JObj [ ("beat_number", JNum (beat_number beat));
         ("scene_number", json_num (scene_number beat));
         ("title", json_str (title beat));
         ("description", json_str (description beat));
         ("conflict", json_str (conflict beat));
         ("emotion", json_str (emotion beat));
         ("location", json_str (location beat));
         ("time_of_day", json_str (time_of_day beat));
         ("characters", json_str (characters beat));
         ("version", json_num (version beat));
         ("created_at", json_str (created_at beat));
         ("updated_at", json_str (updated_at beat)) ].

Definition act_json (act : ActGroup) : json :=
  JObj [ ("act_no", JNum (act_no act));
         ("act_id", JNum (act_id act));
         ("act_title", JStr (act_title act));
         ("beats", JArr (map beat_json (beats act)));
         ("beat_count", JNum (Z.of_nat (beat_count act))) ].

Definition act_summary_json (s : ActSummary) : json :=
  JObj [ ("act_no", JNum (sum_act_no s));
         ("act_title", JStr (sum_act_title s));
         ("beat_count", JNum (Z.of_nat (sum_beat_count s))) ].

(** The report object as [JSON.stringify] sees it. *)
Definition report_json (report : Report) : json :=
  JObj [ ("report_type", JStr (report_type report));
         ("generated_at", JStr (generated_at report));
         ("summary",
          JObj [ ("total_acts", JNum (Z.of_nat (total_acts (summary report))));
                 ("total_beats", JNum (Z.of_nat (total_beats (summary report))));
                 ("beats_per_act",
                  JArr (map act_summary_json (beats_per_act (summary report)))) ]);
         ("acts", JArr (map act_json (acts report))) ].

(** What [generateBeatReport] returns: the text of a projector, or the
    report object itself. *)
Inductive ReportOutput : Type :=
| OutText (text : string)
| OutReport (report : Report).

(** [generateBeatReport(env, format)]. *)
Definition generateBeatReport (rt : Runtime) (env : Env) (format : string)
  : outcome ReportOutput :=
  try_catch
    (bind (report_query (SCREENPLAY_DRAFT env)) (fun rows =>
       let report := aggregate (iso_now rt 0) rows in
       if String.eqb format "csv" then
         Ok (OutText (generateCSVReport report))
       else if String.eqb format "html" then
         Ok (OutText (generateHTMLReport (long_date rt) report))
       else if String.eqb format "pdf" then
         Ok (OutText (generatePDFOptimizedHTML (long_date rt) report))
       else Ok (OutReport report)))
    (fun error =>
       Throw (mkError "Error"
                ("Failed to generate report: " ++ err_message error)%string)).

(** The body of [new Response(report, ...)]: the text, or the default
    conversion of an object to a string. *)
Definition output_text (out : ReportOutput) : string :=
  match out with
  | OutText text => text
  | OutReport _ => "[object Object]"
  end.

Definition output_json (out : ReportOutput) : json :=
  match out with
  | OutText text => JStr text
  | OutReport report => report_json report
  end.

(** [s.split('T')[0]]. *)
Fixpoint before_T (s : string) : string :=
  match s with
  | EmptyString => EmptyString
  | String c rest =>
      if Ascii.eqb c "T"%char then EmptyString else String c (before_T rest)
  end.

(** [handleReportRequest(env, format, corsHeaders)]. *)
Definition handleReportRequest (rt : Runtime) (env : Env) (format : string)
  (corsHeaders : list (string * string)) : Response :=
  match generateBeatReport rt env format with
  | Ok report =>
      if String.eqb format "csv" then
        {| status := 200;
           headers :=
             ("Content-Type", "text/csv")
             :: ("Content-Disposition",
                 ("attachment; filename=" ++ dq ++ "beat-sheets-report-"
                  ++ before_T (iso_now rt 1) ++ ".csv" ++ dq)%string)
             :: corsHeaders;
           body := Some (output_text report) |}
      else if String.eqb format "html" then
        textResponse (output_text report) 200 "text/html" corsHeaders
      else if String.eqb format "pdf" then
        textResponse (output_text report) 200 "text/html" corsHeaders
      else jsonResponse (output_json report) 200 corsHeaders
  | Throw error =>
      jsonResponse
        (JObj [ ("error", JStr "Report generation failed");
                ("message", JStr (err_message error)) ])
        500 corsHeaders
  end.

(** [handleReportRouting(request, env, path, method, corsHeaders)]. *)
Definition handleReportRouting (rt : Runtime) (env : Env) (path method : string)
  (corsHeaders : list (string * string)) : Response :=
  if negb (String.eqb method "GET") then
    jsonResponse (JObj [("error", JStr "Method not allowed")]) 405 corsHeaders
  else if String.eqb path "/api/reports/beats" then
    handleReportRequest rt env "json" corsHeaders
  else if String.eqb path "/api/reports/beats/csv" then
    handleReportRequest rt env "csv" corsHeaders
  else if String.eqb path "/api/reports/beats/html" then
    handleReportRequest rt env "html" corsHeaders
  else if String.eqb path "/api/reports/beats/pdf" then
    handleReportRequest rt env "pdf" corsHeaders
  else
    jsonResponse (JObj [("error", JStr "Invalid report endpoint")]) 400
                 corsHeaders.

End Worker.
Import Worker.

(** ** The pages and the dispatcher *)

Module Routes.

Notation "x <- m ;; k" := (bindE m (fun x => k))
  (at level 61, m at next level, right associativity).
Notation "m ;;; k" := (bindE m (fun _ => k))
  (at level 61, right associativity).

(** *** The page of one beat: lines 114-216 of [handleRequest] *)

(** [v || d] for the scene number of the beat page, kept as a number. *)
Definition scene_or (v : option Z) (d : Z) : Z :=
  match v with
  | Some z => if Z.eqb z 0 then d else z
  | None => d
  end.

Definition missing_beat_data (beatNumber : Z) (actTitle : string) : BeatData :=
  {| bd_title := "Beat " ++ string_of_Z beatNumber;
     bd_description :=
       "Beat " ++ string_of_Z beatNumber ++ " was not found in " ++ actTitle
       ++ ". This beat may not exist yet or may have been removed.";
     bd_conflict := "N/A";
     bd_emotion := "N/A";
     bd_location := "N/A";
     bd_timeOfDay := "N/A";
     bd_characters := "N/A";
     bd_sceneNumber := beatNumber;
     bd_lastUpdated := "N/A";
     bd_createdDate := "Not available" |}.

Definition found_beat_data (rt : Runtime) (beatNumber : Z) (beat : DetailRow)
  : BeatData :=
  {| bd_title := str_or (d_title beat) ("Beat " ++ string_of_Z beatNumber);
     bd_description := str_or (d_description beat) "No description available.";
     bd_conflict := str_or (d_conflict beat) "No conflict defined";
     bd_emotion := str_or (d_emotion beat) "No emotion specified";
     bd_location := str_or (d_location beat) "Location not specified";
     bd_timeOfDay := str_or (d_time_of_day beat) "Time not specified";
     bd_characters := str_or (d_characters beat) "Characters not specified";
     bd_sceneNumber := scene_or (d_scene_number beat) beatNumber;
     bd_lastUpdated :=
       if truthy_str (d_updated_at beat)
       then locale_date rt (str_text (d_updated_at beat))
       else "Unknown";
     bd_createdDate :=
       if truthy_str (d_created_at beat)
       then locale_date rt (str_text (d_created_at beat))
       else "Creation date unknown" |}.

Definition error_beat_data (beatNumber : Z) (error : JsError) : BeatData :=
  {| bd_title := "Beat " ++ string_of_Z beatNumber;
     bd_description :=
       "Unable to load beat data due to a database error: "
       ++ err_message error ++ ". Please try again later.";
     bd_conflict := "Error";
     bd_emotion := "Error";
     bd_location := "Error";
     bd_timeOfDay := "Error";
     bd_characters := "Error";
     bd_sceneNumber := beatNumber;
     bd_lastUpdated := "Error";
     bd_createdDate := "Error" |}.

(** The branch of [handleRequest] for [/ally/act/<n>/beat/<m>], after the
    two numbers have been parsed. *)
Definition handleBeatPage (rt : Runtime) (env : Env) (actNumber beatNumber : Z)
  (corsHeaders : list (string * string)) : outcome Response :=
  let db := SCREENPLAY_DRAFT env in
  try_catch
    (bind (beat_query db actNumber beatNumber) (fun beat =>
       bind
         match beat with
         | None =>
             bind (act_query db actNumber) (fun act =>
               let actTitle :=
                 match act with
                 | Some a => act_row_title a
                 | None => ("Act " ++ string_of_Z actNumber)%string
                 end in
               Ok (missing_beat_data beatNumber actTitle, actTitle))
         | Some beat =>
             Ok (found_beat_data rt beatNumber beat,
                 str_or (Some (d_act_title beat))
                        ("Act " ++ string_of_Z actNumber))
         end
         (fun '(beatData, actTitle) =>
            let htmlResponse :=
              generateBeatPage actNumber beatNumber beatData actTitle in
            Ok (textResponse htmlResponse 200 "text/html" corsHeaders))))
    (fun error =>
       let actTitle := ("Act " ++ string_of_Z actNumber)%string in
       let beatData := error_beat_data beatNumber error in
       let htmlResponse :=
         generateBeatPage actNumber beatNumber beatData actTitle in
       Ok (textResponse htmlResponse 500 "text/html" corsHeaders)).

(** *** [generateActsOverview] *)

Definition generateActsOverview (corsHeaders : list (string * string))
  : Response :=
  textResponse acts_overview_html 200 "text/html" corsHeaders.

(** *** [generateAllBeatsPage] *)

(** [beatsByAct]: an object whose keys are the texts of the act numbers.
    The entries are kept in insertion order, with the title of the act and
    its beats. *)
Definition ByAct := list (Z * (string * list CardRow)).

Fixpoint by_act_mem (n : Z) (m : ByAct) : bool :=
  match m with
  | [] => false
  | (k, _) :: rest => Z.eqb k n || by_act_mem n rest
  end.

Fixpoint by_act_push (beat : CardRow) (m : ByAct) : ByAct :=
  match m with
  | [] => []
  | (k, (t, bs)) :: rest =>
      if Z.eqb k (card_act_no beat) then (k, (t, bs ++ [beat])) :: rest
      else (k, (t, bs)) :: by_act_push beat rest
  end.

(** One call of the callback of [beats.results.forEach]. *)
Definition by_act_step (m : ByAct) (beat : CardRow) : ByAct :=
  let created :=
    if by_act_mem (card_act_no beat) m then m
    else m ++ [(card_act_no beat, (card_act_title beat, []))] in
  by_act_push beat created.

(** A property key that is an array index: these keys are enumerated
    first, in ascending order, before the other keys in insertion order. *)
Definition is_array_index (n : Z) : bool :=
  (Z.leb 0 n && Z.leb n 4294967294)%bool.

Fixpoint insert_by_key (e : Z * (string * list CardRow)) (m : ByAct) : ByAct :=
  match m with
  | [] => [e]
  | e' :: rest =>
      if Z.leb (fst e) (fst e') then e :: e' :: rest
      else e' :: insert_by_key e rest
  end.

(** [Object.entries(beatsByAct)]. *)
Definition entries (m : ByAct) : ByAct :=
  fold_right insert_by_key [] (filter (fun e => is_array_index (fst e)) m)
  ++ filter (fun e => negb (is_array_index (fst e))) m.

Definition all_act_cards (e : Z * (string * list CardRow)) : string :=
  let '(n, (act_title, act_beats)) := e in
  (all_act_divider act_title
   ++ concat_all (map (all_beat_card (string_of_Z n) act_title) act_beats))%string.

(** The value of [allBeatCards] at the end of the [try] block. *)
Definition all_cards (beats : list CardRow) : string :=
  if Nat.eqb (List.length beats) 0 then all_no_content
  else concat_all (map all_act_cards (entries (fold_left by_act_step beats []))).

(** The body of [generateAllBeatsPage]: [allBeatCards] is declared by a
    [let] inside the [try] block; the [catch] block and the template of
    the document refer to it from outside that block. *)
Definition generateAllBeatsPage_body (env : Env)
  (corsHeaders : list (string * string)) : Exec Response :=
  try_
    (block
       (beats <- await (all_beats_query (SCREENPLAY_DRAFT env)) ;;
        let_var "allBeatCards" EmptyString ;;;
        set_var "allBeatCards" (all_cards beats)))
    (fun error =>
       block (set_var "allBeatCards" all_error_content)) ;;;
  allBeatCards <- get_var "allBeatCards" ;;
  ret (textResponse (all_beats_html allBeatCards) 200 "text/html" corsHeaders).

Definition generateAllBeatsPage (env : Env)
  (corsHeaders : list (string * string)) : outcome Response :=
  call (generateAllBeatsPage_body env corsHeaders).

(** *** [generateActBeatsPage] *)

(** The body of [generateActBeatsPage]: [actTitle] and [beatCards] are
    declared before the [try] block. *)
Definition generateActBeatsPage_body (actNumber : Z) (env : Env)
  (corsHeaders : list (string * string)) : Exec Response :=
  let db := SCREENPLAY_DRAFT env in
  let_var "actTitle" ("Act " ++ string_of_Z actNumber) ;;;
  let_var "beatCards" EmptyString ;;;
  try_
    (block
       (beats <- await (act_beats_query db actNumber) ;;
        match beats with
        | [] =>
            actInfo <- await (act_query db actNumber) ;;
            match actInfo with
            | Some info => set_var "actTitle" (act_row_title info)
            | None => ret tt
            end ;;;
            actTitle <- get_var "actTitle" ;;
            set_var "beatCards" (act_no_beats actTitle)
        | first :: _ =>
            set_var "actTitle" (ab_act_title first) ;;;
            actTitle <- get_var "actTitle" ;;
            set_var "beatCards"
              (concat_all (map (act_beat_card actNumber actTitle) beats))
        end))
    (fun error =>
       block
         (actTitle <- get_var "actTitle" ;;
          set_var "beatCards" (act_error_card actTitle))) ;;;
  actTitle <- get_var "actTitle" ;;
  beatCards <- get_var "beatCards" ;;
  ret (textResponse (act_beats_html actNumber actTitle beatCards) 200
         "text/html" corsHeaders).

Definition generateActBeatsPage (actNumber : Z) (env : Env)
  (corsHeaders : list (string * string)) : outcome Response :=
  call (generateActBeatsPage_body actNumber env corsHeaders).

(** *** Authentication and routing *)

(** [isAuthenticated(request, env)]. *)
Definition isAuthenticated (request : Request) (env : Env) : bool :=
  if truthy_str (cf_access_jwt request) then true
  else if truthy_str (API_KEY env) then
    let apiKeyHeader :=
      if truthy_str (x_api_key request) then x_api_key request
      else option_map (replace_first "Bearer " EmptyString)
                      (authorization request) in
    if truthy_str apiKeyHeader
    then String.eqb (str_text apiKeyHeader) (str_text (API_KEY env))
    else false
  else false.

Definition is_digit (c : ascii) : bool :=
  let n := Ascii.nat_of_ascii c in (Nat.leb 48 n && Nat.leb n 57)%bool.

(** The longest prefix of digits, and what follows it. *)
Fixpoint span_digits (s : string) : string * string :=
  match s with
  | EmptyString => (EmptyString, EmptyString)
  | String c rest =>
      if is_digit c
      then let (ds, tail) := span_digits rest in (String c ds, tail)
      else (EmptyString, s)
  end.

(** [parseInt] of a string of digits: the number they write.  The result
    is exact, as in the language, for digits that write a number up to
    2^53; past that the language rounds to the nearest number it holds, so
    a statement on the value parsed from digits that may be that large
    carries [safe_integer] as a hypothesis. *)
Definition parseInt (ds : string) : Z :=
  let fix go (acc : Z) (s : string) : Z :=
    match s with
    | EmptyString => acc
    | String c rest =>
        go (10 * acc + Z.of_nat (Ascii.nat_of_ascii c - 48))%Z rest
    end in
  go 0%Z ds.

Definition nonempty (s : string) : bool := negb (String.eqb s EmptyString).

(** The pattern of the act page: [/ally/act/], digits, end of the path.
    The result is [parseInt(path.split('/')[3])]. *)
Definition match_act_path (path : string) : option Z :=
  match strip_prefix "/ally/act/" path with
  | Some rest =>
      let (ds, tail) := span_digits rest in
      if (nonempty ds && String.eqb tail EmptyString)%bool
      then Some (parseInt ds) else None
  | None => None
  end.

(** The pattern of the beat page: [/ally/act/], digits, [/beat/], digits,
    end of the path.  The result is the pair of [parseInt(pathParts[3])]
    and [parseInt(pathParts[5])]. *)
Definition match_beat_path (path : string) : option (Z * Z) :=
  match strip_prefix "/ally/act/" path with
  | Some rest =>
      let (ds, tail) := span_digits rest in
      match strip_prefix "/beat/" tail with
      | Some rest2 =>
          let (ds2, tail2) := span_digits rest2 in
          if (nonempty ds && nonempty ds2 && String.eqb tail2 EmptyString)%bool
          then Some (parseInt ds, parseInt ds2) else None
      | None => None
      end
  | None => None
  end.

Definition starts_with (p s : string) : bool :=
  match strip_prefix p s with
  | Some _ => true
  | None => false
  end.

Definition api_documentation : json :=
  JObj
    [ ("name", JStr "BEAT-SHEETS UI Worker");
      ("version", JStr "1.0.0");
      ("description", JStr "Pure UI worker for ALLY Beat Sheets display and reporting");
      ("endpoints",
       JObj
         [ ("ui",
         JObj
           [ ("home", JStr "GET / - MobiCycle Productions homepage");
             ("ally", JStr "GET /ally - Acts overview page");
             ("beats", JStr "GET /ally/beats/all - All beats across script");
             ("act", JStr "GET /ally/act/{actNo} - Act-specific beats");
             ("beat", JStr "GET /ally/act/{actNo}/beat/{beatNo} - Individual beat page") ]);
           ("reports",
         JObj
           [ ("html", JStr "GET /api/reports/beats/html - HTML beats report");
             ("json", JStr "GET /api/reports/beats - JSON beats report");
             ("csv", JStr "GET /api/reports/beats/csv - CSV download");
             ("pdf", JStr "GET /api/reports/beats/pdf - PDF download") ]);
           ("info",
         JObj
           [ ("api", JStr "GET /api - API documentation");
             ("health", JStr "GET /health - Health check") ]) ]);
      ("features",
       JArr
         [ JStr "Beautiful HTML report UI with dark theme";
           JStr "Beat management with scene breakdown (1 scene = 1 beat)";
           JStr "Graceful empty state handling";
           JStr "Export capabilities (HTML, JSON, CSV, PDF)";
           JStr "Authentication via Cloudflare Access";
           JStr "Responsive design for all screen sizes" ]);
      ("note", JStr "This is a pure UI worker. Data sync is handled by the dedicated sync worker at kv-d1-sync.mobicycle-productions.workers.dev") ].

(** [handleRequest(request, env)]. *)
Definition handleRequest (rt : Runtime) (request : Request) (env : Env)
  : outcome Response :=
  let path := path request in
  let method := method request in
  if String.eqb method "OPTIONS" then
    Ok {| status := 200; headers := corsHeaders; body := None |}
  else if negb (isAuthenticated request env) then
    Ok (jsonResponse
          (JObj [ ("error", JStr "Unauthorized");
                  ("message", JStr "Valid API key required") ])
          401 corsHeaders)
  else if (String.eqb path "/" || String.eqb path EmptyString)%bool then
    Ok (textResponse generateHomepage 200 "text/html" corsHeaders)
  else if String.eqb path "/ally" then
    Ok (generateActsOverview corsHeaders)
  else if String.eqb path "/act/all" then
    Ok (handleReportRequest rt env "html" corsHeaders)
  else if String.eqb path "/ally/beats/all" then
    generateAllBeatsPage env corsHeaders
  else
    match match_act_path path with
    | Some actNumber => generateActBeatsPage actNumber env corsHeaders
    | None =>
    match match_beat_path path with
    | Some (actNumber, beatNumber) =>
        handleBeatPage rt env actNumber beatNumber corsHeaders
    | None =>
      if (String.eqb path "/dashboard" || String.eqb path "/report")%bool then
        Ok (handleReportRequest rt env "html" corsHeaders)
      else if (String.eqb path "/api" || String.eqb path "/api/")%bool then
        Ok (jsonResponse api_documentation 200 corsHeaders)
      else if String.eqb path "/health" then
        Ok (jsonResponse
              (JObj [ ("status", JStr "healthy");
                      ("timestamp", JStr (iso_now rt 0));
                      ("service", JStr "beat-sheets-ui");
                      ("bindings", JObj [("d1", JBool true)]) ])
              200 corsHeaders)
      else if starts_with "/api/reports/" path then
        Ok (handleReportRouting rt env path method corsHeaders)
      else
        Ok (jsonResponse (JObj [("error", JStr "Not found")]) 404 corsHeaders)
    end
    end.

(** The [fetch] handler of the worker. *)
Definition fetch (rt : Runtime) (request : Request) (env : Env) : Response :=
  match handleRequest rt request env with
  | Ok response => response
  | Throw error =>
      jsonResponse
        (JObj [ ("error", JStr "Internal server error");
                ("message", JStr (err_message error)) ])
        500 []
  end.

End Routes.
Import Routes.

(** ** The helpers of utils.js *)

Module Utils.

(** [generateBeatId(actNumber, beatNumber)], on integers. *)
Definition generateBeatId (actNumber beatNumber : Z) : string :=
  ("act" ++ string_of_Z actNumber ++ "_beat" ++ string_of_Z beatNumber)%string.

(** The argument of [parseActNumber]: a number, which is returned as it is,
    or a text, which is searched. *)
Inductive ActInput :=
| ActNumber (n : Z)
| ActText (s : string).

(** The first match of the pattern of one or more digits: the first digit
    of the text together with the digits that follow it. *)
Fixpoint first_digits (s : string) : option string :=
  match s with
  | EmptyString => None
  | String c rest =>
      if is_digit c then Some (fst (span_digits s)) else first_digits rest
  end.

(** [parseActNumber(actString)]; [None] is [null]. *)
Definition parseActNumber (actString : ActInput) : option Z :=
  match actString with
  | ActNumber n => Some n
  | ActText s =>
      match first_digits s with
      | Some ds => Some (parseInt ds)
      | None => None
      end
  end.

(** [isValidActNumber(actNumber)]. *)
Definition isValidActNumber (actNumber : ActInput) : bool :=
  match parseActNumber actNumber with
  | Some num => (Z.leb 1 num && Z.leb num 10)%bool
  | None => false
  end.

(** [truncateText(text, maxLength)]; [None] is a text that is [null].  A
    text is read as its sequence of code units, one character for each, so
    that [String.length] is the [length] of the source. *)
Definition truncateText (text : option string) (maxLength : Z)
  : option string :=
  match text with
  | None => None
  | Some s =>
      if (String.eqb s EmptyString
          || Z.leb (Z.of_nat (String.length s)) maxLength)%bool
      then Some s
      else Some (String.substring 0 (Z.to_nat (maxLength - 3)) s ++ "...")%string
  end.

(** *** The class [RateLimiter] *)

(** [this.requests]: a [Map] from identifiers to arrays of timestamps. *)
Definition Requests := string -> option (list Z).

Definition requests_set (identifier : string) (stamps : list Z)
  (m : Requests) : Requests :=
  fun k => if String.eqb k identifier then Some stamps else m k.

Record RateLimiter := mkRateLimiter {
  maxRequests : Z;
  windowMs : Z;
  requests : Requests
}.

(** [new RateLimiter(maxRequests, windowMs)]. *)
Definition newRateLimiter (maxRequests windowMs : Z) : RateLimiter :=
  mkRateLimiter maxRequests windowMs (fun _ => None).

(** [userRequests.filter(timestamp => timestamp > windowStart)]. *)
Definition valid_requests (windowStart : Z) (userRequests : list Z) : list Z :=
  filter (fun timestamp => Z.ltb windowStart timestamp) userRequests.

(** [isAllowed(identifier)], with [now] the value of [Date.now()]: the
    answer and the limiter afterwards.  The array [validRequests] is the
    one stored in the map, so the timestamp pushed on it is in the map. *)
Definition isAllowed (now : Z) (identifier : string) (this : RateLimiter)
  : bool * RateLimiter :=
  let windowStart := (now - windowMs this)%Z in
  let userRequests :=
    match requests this identifier with
    | Some stamps => stamps
    | None => []
    end in
  let validRequests := valid_requests windowStart userRequests in
  if Z.leb (maxRequests this) (Z.of_nat (List.length validRequests))
  then (false,
        mkRateLimiter (maxRequests this) (windowMs this)
          (requests_set identifier validRequests (requests this)))
  else (true,
        mkRateLimiter (maxRequests this) (windowMs this)
          (requests_set identifier (validRequests ++ [now]) (requests this))).

(** [getRemainingRequests(identifier)], with [now] the value of
    [Date.now()]; the limiter is not changed. *)
Definition getRemainingRequests (now : Z) (identifier : string)
  (this : RateLimiter) : Z :=
  let windowStart := (now - windowMs this)%Z in
  match requests this identifier with
  | None => maxRequests this
  | Some userRequests =>
      Z.max 0 (maxRequests this
               - Z.of_nat (List.length (valid_requests windowStart userRequests)))
  end.

(** *** [normalizeText] *)

(** A text as the sequence of its UTF-16 code units, which is what [trim]
    and the two patterns of [normalizeText] work on. *)
Definition CodeUnits := list Z.

(** The class of white space of the patterns and of [trim]: the white
    space characters and the line terminators of the language. *)
Definition is_space (u : Z) : bool :=
  (existsb (Z.eqb u)
     [9; 10; 11; 12; 13; 32; 160; 5760; 8232; 8233; 8239; 8287; 12288;
      65279]%Z
   || (Z.leb 8192 u && Z.leb u 8202))%bool.

(** The class of the second pattern: carriage return and line feed. *)
Definition is_line_break (u : Z) : bool :=
  (Z.eqb u 13 || Z.eqb u 10)%bool.

Fixpoint trimStart (text : CodeUnits) : CodeUnits :=
  match text with
  | [] => []
  | u :: rest => if is_space u then trimStart rest else text
  end.

Fixpoint trimEnd (text : CodeUnits) : CodeUnits :=
  match text with
  | [] => []
  | u :: rest =>
      match trimEnd rest with
      | [] => if is_space u then [] else [u]
      | kept => u :: kept
      end
  end.

(** [text.trim()]. *)
Definition trim (text : CodeUnits) : CodeUnits := trimEnd (trimStart text).

(** [text.replace(/C+/g, by)] for a class [C] of code units: every longest
    run of code units of the class becomes the one code unit [by_]. *)
Fixpoint replace_runs (in_class : Z -> bool) (by_ : Z) (text : CodeUnits)
  : CodeUnits :=
  match text with
  | [] => []
  | u :: rest =>
      if in_class u then
        match rest with
        | v :: _ =>
            if in_class v then replace_runs in_class by_ rest
            else by_ :: replace_runs in_class by_ rest
        | [] => [by_]
        end
      else u :: replace_runs in_class by_ rest
  end.

(** [normalizeText(text)]; [None] is a text that is [null]. *)
Definition normalizeText (text : option CodeUnits) : CodeUnits :=
  match text with
  | None => []
  | Some [] => []
  | Some t =>
      replace_runs is_line_break 10%Z
        (replace_runs is_space 32%Z (trim t))
  end.

End Utils.
Import Utils.
(** ** Vocabulary of the statements *)

(** The sum of the [beat_count] of the acts. *)
Definition count_sum (gs : list ActGroup) : nat :=
  fold_right (fun g n => beat_count g + n) 0 gs.

(** Every [beat_count] is the length of its [beats]. *)
Definition counts_ok (gs : list ActGroup) : Prop :=
  Forall (fun g => beat_count g = List.length (beats g)) gs.

(** The order of the query's [ORDER BY a.act_no, b.beat_number]. *)
Definition row_le (r1 r2 : BeatRow) : Prop :=
  (row_act_no r1 < row_act_no r2)%Z \/
  (row_act_no r1 = row_act_no r2 /\
   (row_beat_number r1 <= row_beat_number r2)%Z).

(** The same order, strict: no two rows with the same pair of numbers. *)
Definition row_lt (r1 r2 : BeatRow) : Prop :=
  (row_act_no r1 < row_act_no r2)%Z \/
  (row_act_no r1 = row_act_no r2 /\
   (row_beat_number r1 < row_beat_number r2)%Z).

(** The pair that identifies a current beat. *)
Definition row_key (r : BeatRow) : Z * Z := (row_act_no r, row_beat_number r).

(** What the loop maintains about [reportData] once the rows [seen] have
    been consumed. *)
Record store_inv (seen : list BeatRow) (st : Store) : Prop := {
  inv_keys : Forall (fun kg => fst kg = actKey (act_no (snd kg))) st;
  inv_acts : StronglySorted Z.lt (map act_no (values st));
  inv_seen : Forall (fun g => exists r, In r seen /\ row_act_no r = act_no g)
                    (values st);
  inv_beats : Forall (fun g => StronglySorted Z.lt (map beat_number (beats g)))
                     (values st);
  inv_from : Forall (fun g => Forall (fun v => exists r, In r seen /\
                                 row_act_no r = act_no g /\
                                 row_beat_number r = beat_number v) (beats g))
                    (values st)
}.

(** Which columns of a row hold [null]. *)
Definition csv_row_nulls (beat : BeatView) : list bool :=
  let is_null {A} (v : option A) := match v with None => true | _ => false end in
  [ false; false; false;
    is_null (scene_number beat);
    is_null (title beat); is_null (description beat);
    is_null (conflict beat); is_null (emotion beat);
    is_null (location beat); is_null (time_of_day beat);
    is_null (characters beat);
    is_null (version beat);
    is_null (created_at beat); is_null (updated_at beat) ].

(** [needle] cannot start at the head of [hay], whatever follows [hay]:
    the two differ at a position that both have. *)
Fixpoint mismatch (needle hay : string) : bool :=
  match needle, hay with
  | String a needle', String b hay' =>
      if Ascii.eqb a b then mismatch needle' hay' else true
  | _, _ => false
  end.

(** [needle] starts at no position of [hay], whatever follows [hay]. *)
Fixpoint clear_of (needle hay : string) : bool :=
  match hay with
  | EmptyString => true
  | String _ rest => mismatch needle hay && clear_of needle rest
  end.

(** [s.endsWith(suffix)]. *)
Fixpoint ends_with (suffix s : string) : bool :=
  String.eqb s suffix ||
  match s with
  | EmptyString => false
  | String _ rest => ends_with suffix rest
  end.

(** A response that carries an HTML document: declared as [text/html],
    from the document type declaration to the closing tag of the root. *)
Definition is_html_document (r : Response) : bool :=
  match content_type r, body r with
  | Some type, Some text =>
      String.eqb type "text/html"
      && starts_with "<!DOCTYPE html>" text
      && ends_with "</html>" text
  | _, _ => false
  end.

(** The label and value of one optional field of a beat, as the HTML
    projector writes them. *)
Definition field_pair (label value : string) : string :=
  ("<p><strong>" ++ label ++ ":</strong> " ++ value ++ "</p>")%string.

(** The pair of a field whose value is truthy, and nothing otherwise. *)
Definition optional_field (label : string) (v : option string) : string :=
  if truthy_str v then field_pair label (str_text v) else EmptyString.

(** The opening of the entry of a beat, up to its description. *)
Definition entry_head (beat : BeatView) : string :=
  ("
          <div class=" ++ dq ++ "beat-entry" ++ dq ++ ">
            <h2>Beat " ++ string_of_Z (beat_number beat) ++ " "
   ++ (if truthy_num (scene_number beat)
       then "(Scene " ++ num_text (scene_number beat) ++ ")"
       else EmptyString) ++ "</h2>
            <h3>" ++ str_or (title beat) "Untitled Beat" ++ "</h3>
            <p><strong>Description:</strong> "
   ++ str_or (description beat) "No description available." ++ "</p>
            ")%string.

(** What separates two optional fields, and what closes the entry. *)
Definition entry_gap : string :=
  "
            ".

Definition entry_tail : string :=
  "
            <hr>
          </div>
        ".

(** A beat of which every nullable column is [null]. *)
Definition null_beat (n : Z) : BeatView :=
  mkBeatView n None None None None None None None None None None None.

(** [v'] is [v], or [null] in place of an empty string. *)
Definition same_text (v v' : option string) : Prop :=
  v' = v \/ (v = Some EmptyString /\ v' = None).

(** [v'] is [v], or [null] in place of zero. *)
Definition same_num (v v' : option Z) : Prop :=
  v' = v \/ (v = Some 0%Z /\ v' = None).

(** [b'] is [b] with some of its empty strings, and some of the zeros of
    [scene_number] and [version], replaced by [null]. *)
Record nullified_beat (b b' : BeatView) : Prop := {
  nb_beat_number : beat_number b' = beat_number b;
  nb_scene_number : same_num (scene_number b) (scene_number b');
  nb_title : same_text (title b) (title b');
  nb_description : same_text (description b) (description b');
  nb_conflict : same_text (conflict b) (conflict b');
  nb_emotion : same_text (emotion b) (emotion b');
  nb_location : same_text (location b) (location b');
  nb_time_of_day : same_text (time_of_day b) (time_of_day b');
  nb_characters : same_text (characters b) (characters b');
  nb_version : same_num (version b) (version b');
  nb_created_at : same_text (created_at b) (created_at b');
  nb_updated_at : same_text (updated_at b) (updated_at b')
}.

Record nullified_act (a a' : ActGroup) : Prop := {
  na_act_no : act_no a' = act_no a;
  na_act_id : act_id a' = act_id a;
  na_act_title : act_title a' = act_title a;
  na_beat_count : beat_count a' = beat_count a;
  na_beats : Forall2 nullified_beat (beats a) (beats a')
}.

Record nullified_report (r r' : Report) : Prop := {
  nr_report_type : report_type r' = report_type r;
  nr_generated_at : generated_at r' = generated_at r;
  nr_summary : summary r' = summary r;
  nr_acts : Forall2 nullified_act (acts r) (acts r')
}.

(** The opening tag of the sidebar and the text of the download link. *)
Definition sidebar_open : string :=
  ("<nav class=" ++ dq ++ "sidebar" ++ dq ++ ">")%string.

Definition download_link_text : string := "Download CSV".

(** The label of the conflict of a beat in the HTML report. *)
Definition conflict_label : string := "<strong>Conflict:</strong>".

(** The text fields of a beat that the HTML projector writes. *)
Definition html_text_fields (beat : BeatView) : list (option string) :=
  [ title beat; description beat; conflict beat; emotion beat;
    location beat; time_of_day beat; characters beat ].

(** Sample data: a report without rows, and clocks that always give the
    same text. *)
Definition empty_report : Report := aggregate "2024-01-02T03:04:05.000Z" [].

Definition sample_dates : nat -> string := fun _ => "Tuesday, January 2, 2024".

Definition sample_act (bs : list BeatView) : ActGroup :=
  mkActGroup 1 1 "Act One" bs (List.length bs).

Definition sample_report (bs : list BeatView) : Report :=
  mkReport "beats_by_act" "2024-01-02T03:04:05.000Z"
           (mkSummary 1 (List.length bs)
                      [mkActSummary 1 "Act One" (List.length bs)])
           [sample_act bs].

Definition with_title (t : string) : BeatView :=
  mkBeatView 1 None (Some t) None None None None None None None None None.

Definition with_conflict (v : option string) : BeatView :=
  mkBeatView 1 None None None v None None None None None None None.

(** A report of one act with text in every text field of its beat. *)
Definition detailed_beat : BeatView :=
  mkBeatView 1 (Some 4%Z) (Some "Arrival") (Some "Ally reaches the harbour.")
             (Some "Ally against the storm") (Some "dread")
             (Some "Harbour") (Some "Night") (Some "Ally, Mark") (Some 2%Z)
             (Some "2024-01-01 10:00:00") (Some "2024-01-02 11:30:00").

Definition detailed_report : Report := sample_report [detailed_beat].

Definition actions_block : string :=
  (actions_open ++ "secret" ++ div_close)%string.

(** The escaping that the specification asks of the HTML projector: the
    characters with a meaning in markup are replaced by their entities. *)
Fixpoint html_escape (s : string) : string :=
  match s with
  | EmptyString => EmptyString
  | String c rest =>
      let n := Ascii.nat_of_ascii c in
      ((if Nat.eqb n 38 then "&amp;"
        else if Nat.eqb n 60 then "&lt;"
        else if Nat.eqb n 62 then "&gt;"
        else if Nat.eqb n 34 then "&quot;"
        else if Nat.eqb n 39 then "&#39;"
        else String c EmptyString) ++ html_escape rest)%string
  end.

Definition script_open : string := "<script>".

Definition script_title : string := "<script>alert(1)</script>".

(** A needle that cannot start inside the decimal text of an integer: its
    first character is neither a digit nor the minus sign. *)
Definition skips_decimal (needle : string) : bool :=
  match needle with
  | String c _ => negb (is_digit c) && negb (Ascii.eqb c "-"%char)
  | EmptyString => false
  end.

(** Beats with falsy values, and the same beats with [null] in their place. *)
Definition falsy_beat : BeatView :=
  mkBeatView 1 (Some 0%Z) (Some EmptyString) (Some "Arrival")
             (Some EmptyString) None None None None (Some 0%Z)
             (Some EmptyString) None.

Definition falsy_beat_nulled : BeatView :=
  mkBeatView 1 None None (Some "Arrival") None None None None None None
             None None.

(** The two JSON bodies of failure. *)
Definition report_failure (e : JsError) : json :=
  JObj [ ("error", JStr "Report generation failed");
         ("message", JStr ("Failed to generate report: " ++ err_message e)) ].

Definition internal_failure (message : string) : json :=
  JObj [ ("error", JStr "Internal server error");
         ("message", JStr message) ].

(** A request with the assertion header of the access gateway. *)
Definition get_request (path : string) : Request :=
  mkRequest "GET" path (Some "assertion") None None.

(** Sample environment: a row source whose beat query finds nothing and
    whose act query finds an act. *)
Definition sample_runtime : Runtime :=
  mkRuntime (fun _ => "2024-01-02T03:04:05.000Z") sample_dates
            (fun _ => "1/2/2024").

Definition sample_source : RowSource :=
  mkRowSource (Ok []) (Ok []) (fun _ => Ok [])
              (fun _ => Ok (Some (mkActRow "The Beginning")))
              (fun _ _ => Ok None).

Definition sample_env : Env := mkEnv sample_source None.

(** The rows of the scenario of the specification: two acts, the first
    with the beats 1 and 2, the second with the beat 1. *)
Definition plain_row (act beat : Z) (act_title : string) : BeatRow :=
  mkBeatRow (10 * act + beat) act beat None None None None None None None None
            None None None act act_title.

Definition scenario_rows : list BeatRow :=
  [ plain_row 1 1 "Act One"; plain_row 1 2 "Act One"; plain_row 2 1 "Act Two" ].

(** A beat whose creation time is a text with a comma. *)
Definition timestamp_text : string := "Jan 1, 2024".

Definition timestamp_beat : BeatView :=
  mkBeatView 1 None None None None None None None None None
             (Some timestamp_text) None.

(** ** Vocabulary of the statements on routing *)

(** The body of the answer to a request without credentials. *)
Definition unauthorized : json :=
  JObj [ ("error", JStr "Unauthorized");
         ("message", JStr "Valid API key required") ].

(** A response that carries the three CORS headers after its own. *)
Definition has_cors (r : Response) : Prop :=
  exists own, headers r = own ++ corsHeaders.

(** A request with the given method, path and key headers, and without the
    assertion header of the access gateway. *)
Definition key_request (method path : string)
  (x_api_key authorization : option string) : Request :=
  mkRequest method path None x_api_key authorization.

(** The path of the page of a beat, and of the page of an act, as the
    pages write them in their links. *)
Definition beat_path (a b : Z) : string :=
  ("/ally/act/" ++ string_of_Z a ++ "/beat/" ++ string_of_Z b)%string.

Definition act_path (a : Z) : string :=
  ("/ally/act/" ++ string_of_Z a)%string.

(** [parseInt] with its accumulator. *)
Fixpoint parse_digits (acc : Z) (s : string) : Z :=
  match s with
  | EmptyString => acc
  | String c rest =>
      parse_digits (10 * acc + Z.of_nat (Ascii.nat_of_ascii c - 48))%Z rest
  end.

(** A text that does not start with a digit. *)
Definition no_digit_ahead (s : string) : bool :=
  match s with
  | String c _ => negb (is_digit c)
  | EmptyString => true
  end.

(** The body of the answer to a path that no route takes. *)
Definition not_found : json := JObj [("error", JStr "Not found")].

(** ** Vocabulary of the statements on grouping *)

(** The row belongs to act [a]. *)
Definition in_act (a : Z) (r : BeatRow) : bool := Z.eqb (row_act_no r) a.

(** The distinct numbers of a list, in the order of their first
    occurrence. *)
Fixpoint first_seen (l : list Z) : list Z :=
  match l with
  | [] => []
  | x :: rest => x :: filter (fun y => negb (Z.eqb y x)) (first_seen rest)
  end.

(** The group of act [a] made of the rows [rs] of that act: identifier and
    title of the first row, the beats of all rows, and their number. *)
Definition group_of (a : Z) (rs : list BeatRow) : ActGroup :=
  {| act_no := a;
     act_id := match rs with r :: _ => row_act_id r | [] => 0%Z end;
     act_title := match rs with r :: _ => row_act_title r | [] => EmptyString end;
     beats := map beatView rs;
     beat_count := List.length rs |}.

(** Grouping by act: one group for each act number, in the order in which
    the numbers first occur, with the rows of the act in their order. *)
Definition group_by_act (rows : list BeatRow) : list ActGroup :=
  map (fun a => group_of a (filter (in_act a) rows))
      (first_seen (map row_act_no rows)).

(** The line of the CSV document for one row of the query. *)
Definition row_line (r : BeatRow) : string :=
  csv_line (newGroup r) (beatView r).

(** Rows by act number, not descending. *)
Definition act_le (r1 r2 : BeatRow) : Prop :=
  (row_act_no r1 <= row_act_no r2)%Z.

(** Rows of the same act number carry the same act title. *)
Definition titles_agree (rows : list BeatRow) : Prop :=
  forall r1 r2, In r1 rows -> In r2 rows ->
    row_act_no r1 = row_act_no r2 -> row_act_title r1 = row_act_title r2.

(** ** Vocabulary of the statements on the helpers *)

(** A text without a digit. *)
Fixpoint digit_free (s : string) : bool :=
  match s with
  | EmptyString => true
  | String c rest => (negb (is_digit c) && digit_free rest)%bool
  end.

(** A call of [isAllowed]: the value of the clock and the identifier. *)
Definition Call := (Z * string)%type.

(** The calls of a client served one after the other: each call with the
    answer it got, and the limiter after the last. *)
Fixpoint serve (this : RateLimiter) (calls : list Call)
  : list (Call * bool) * RateLimiter :=
  match calls with
  | [] => ([], this)
  | (now, identifier) :: rest =>
      let (ok, this') := isAllowed now identifier this in
      let (log, final) := serve this' rest in
      (((now, identifier), ok) :: log, final)
  end.

(** The timestamps of the calls of [identifier] that were allowed. *)
Fixpoint granted (identifier : string) (log : list (Call * bool)) : list Z :=
  match log with
  | [] => []
  | ((now, id), ok) :: rest =>
      if (ok && String.eqb id identifier)%bool
      then now :: granted identifier rest
      else granted identifier rest
  end.

(** The number of allowed calls of [identifier] later than [start]. *)
Definition granted_since (start : Z) (identifier : string)
  (log : list (Call * bool)) : Z :=
  Z.of_nat (List.length (valid_requests start (granted identifier log))).

(** The clock does not go back from one call to the next. *)
Definition clock_ok (calls : list Call) : Prop :=
  Sorted Z.le (map fst calls).

(** What the limiter holds after the calls [hist], the last at a time not
    after [cur]: for every identifier, the stored timestamps and the
    timestamps of its allowed calls agree from the start of the window of
    [cur] on. *)
Definition limiter_inv (cur : Z) (hist : list (Call * bool))
  (this : RateLimiter) : Prop :=
  forall identifier,
    match requests this identifier with
    | None => granted identifier hist = []
    | Some stamps =>
        forall w, (cur - windowMs this <= w)%Z ->
          valid_requests w stamps
          = valid_requests w (granted identifier hist)
    end.

(** A text in which white space occurs only as single spaces between
    other code units: every white space code unit is a space and is not
    followed by white space. *)
Fixpoint single_spaced (text : CodeUnits) : bool :=
  match text with
  | [] => true
  | u :: rest =>
      if is_space u then
        (Z.eqb u 32%Z
         && match rest with
            | v :: _ => negb (is_space v)
            | [] => true
            end
         && single_spaced rest)%bool
      else single_spaced rest
  end.

(** A text that does not begin, and one that does not end, with white
    space. *)
Definition head_ok (text : CodeUnits) : bool :=
  match text with
  | [] => true
  | u :: _ => negb (is_space u)
  end.

Fixpoint last_ok (text : CodeUnits) : bool :=
  match text with
  | [] => true
  | [u] => negb (is_space u)
  | _ :: rest => last_ok rest
  end.

(** ** Vocabulary of the statements on the report endpoints *)

(** The value of [Content-Disposition] of the CSV download on the day
    [day]. *)
Definition csv_attachment (day : string) : string :=
  ("attachment; filename=" ++ dq ++ "beat-sheets-report-" ++ day ++ ".csv"
   ++ dq)%string.

(** The link of the sidebar to an act, and the attribute of the section of
    the act that the link targets. *)
Definition act_anchor_link (n : Z) : string :=
  ("href=" ++ dq ++ "#act-" ++ string_of_Z n ++ dq)%string.

Definition act_anchor_target (n : Z) : string :=
  ("id=" ++ dq ++ "act-" ++ string_of_Z n ++ dq)%string.

(** ** Sample data of the statements above *)

(** A row source whose queries throw, one that has neither acts nor beats,
    and one whose report query gives the rows of the scenario. *)
Definition database_error : JsError :=
  mkError "Error" "D1_ERROR: no such table: beats".

Definition failing_source : RowSource :=
  mkRowSource (Throw database_error) (Throw database_error)
              (fun _ => Throw database_error)
              (fun _ => Throw database_error)
              (fun _ _ => Throw database_error).

Definition bare_source : RowSource :=
  mkRowSource (Ok []) (Ok []) (fun _ => Ok []) (fun _ => Ok None)
              (fun _ _ => Ok None).

Definition scenario_source : RowSource :=
  mkRowSource (Ok scenario_rows) (Ok []) (fun _ => Ok []) (fun _ => Ok None)
              (fun _ _ => Ok None).

(** A card of the page of an act. *)
Definition sample_card : ActBeatRow :=
  mkActBeatRow 2 None (Some "Arrival") None "Act One".

(** Four calls of two clients, ten milliseconds apart. *)
Definition sample_calls : list Call :=
  [ (0%Z, "a"); (10%Z, "a"); (20%Z, "b"); (30%Z, "a") ]%string.
(** ** Properties of the aggregator *)

Section AggregatorFacts.

Lemma count_sum_app gs hs :
  count_sum (gs ++ hs) = count_sum gs + count_sum hs.
Proof.
  induction gs as [|g gs IH]; simpl; [reflexivity|].
  rewrite IH. lia.
Qed.

Lemma values_app st st' : values (st ++ st') = values st ++ values st'.
Proof. apply map_app. Qed.

Lemma store_get_app_new k g st :
  store_get k st = None -> store_get k (st ++ [(k, g)]) = Some g.
Proof.
  induction st as [|[k' g'] st IH]; simpl; intros H.
  - now rewrite String.eqb_refl.
  - destruct (String.eqb k' k); [discriminate|auto].
Qed.

Lemma store_get_update k f st g :
  store_get k st = Some g ->
  store_get k (store_update k f st) = Some (f g).
Proof.
  induction st as [|[k' g'] st IH]; simpl; [discriminate|].
  destruct (String.eqb k' k) eqn:E; simpl; rewrite E; intros H.
  - now inversion H.
  - auto.
Qed.

(** Updating a present key changes the total of the counters by the
    change on that one group. *)
Lemma count_sum_update k f st g :
  store_get k st = Some g ->
  count_sum (values (store_update k f st)) + beat_count g
  = count_sum (values st) + beat_count (f g).
Proof.
  induction st as [|[k' g'] st IH]; [discriminate|].
  cbn [store_get store_update].
  destruct (String.eqb k' k) eqn:E; intros H.
  - inversion H; subst. unfold values, count_sum. simpl. lia.
  - specialize (IH H). unfold values, count_sum in *. simpl. lia.
Qed.

(** The two updates of one iteration, taken together, keep each counter
    equal to the length of its list. *)
Lemma counts_ok_push_incr k v st :
  counts_ok (values st) ->
  counts_ok (values (store_update k incr_count
                       (store_update k (push_beat v) st))).
Proof.
  unfold counts_ok.
  induction st as [|[k' g'] st IH]; simpl; intros H; [constructor|].
  inversion H; subst.
  destruct (String.eqb k' k) eqn:E; simpl; rewrite E; simpl.
  - constructor; auto. simpl. rewrite length_app. simpl. lia.
  - constructor; auto.
Qed.

Lemma step_created_present beat st :
  exists g,
    store_get (actKey (row_act_no beat))
      (match store_get (actKey (row_act_no beat)) st with
       | None => st ++ [(actKey (row_act_no beat), newGroup beat)]
       | Some _ => st
       end) = Some g.
Proof.
  destruct (store_get (actKey (row_act_no beat)) st) as [g|] eqn:E.
  - now exists g.
  - exists (newGroup beat). now apply store_get_app_new.
Qed.

Lemma count_sum_created beat st :
  count_sum (values
      (match store_get (actKey (row_act_no beat)) st with
       | None => st ++ [(actKey (row_act_no beat), newGroup beat)]
       | Some _ => st
       end)) = count_sum (values st).
Proof.
  destruct (store_get (actKey (row_act_no beat)) st); [reflexivity|].
  rewrite values_app, count_sum_app. simpl. lia.
Qed.

Lemma counts_ok_created beat st :
  counts_ok (values st) ->
  counts_ok (values
      (match store_get (actKey (row_act_no beat)) st with
       | None => st ++ [(actKey (row_act_no beat), newGroup beat)]
       | Some _ => st
       end)).
Proof.
  intros H. destruct (store_get (actKey (row_act_no beat)) st); [exact H|].
  unfold counts_ok in *. rewrite values_app. apply Forall_app. split; auto.
  constructor; [reflexivity|constructor].
Qed.

(** The loop invariant behind the counting properties: the running total,
    the sum of the per-act counters and the number of rows consumed move
    together. *)
Lemma step_counts st n beat :
  count_sum (values st) = n ->
  counts_ok (values st) ->
  let '(st', n') := step (st, n) beat in
  n' = S n /\ count_sum (values st') = n' /\ counts_ok (values st').
Proof.
  intros Hsum Hok. unfold step.
  set (key := actKey (row_act_no beat)).
  set (created := match store_get key st with
                  | None => st ++ [(key, newGroup beat)]
                  | Some _ => st
                  end).
  destruct (step_created_present beat st) as [g Hg]. fold key created in Hg.
  split; [reflexivity|]. split.
  - pose proof (count_sum_update key (push_beat (beatView beat)) created g Hg)
      as H1.
    pose proof (store_get_update key (push_beat (beatView beat)) created g Hg)
      as Hg'.
    pose proof (count_sum_update key incr_count _ _ Hg') as H2.
    pose proof (count_sum_created beat st) as H3. fold key created in H3.
    cbn [beat_count push_beat incr_count] in H1, H2. subst n. lia.
  - apply counts_ok_push_incr.
    pose proof (counts_ok_created beat st Hok) as H. exact H.
Qed.

Lemma fold_step_counts rows : forall st n,
  count_sum (values st) = n ->
  counts_ok (values st) ->
  let '(st', n') := fold_left step rows (st, n) in
  n' = List.length rows + n /\ count_sum (values st') = n' /\
  counts_ok (values st').
Proof.
  induction rows as [|beat rows IH]; intros st n Hsum Hok;
    cbn [fold_left List.length].
  - auto.
  - pose proof (step_counts st n beat Hsum Hok) as Hs.
    revert Hs. destruct (step (st, n) beat) as [st1 n1].
    intros (Hn & Hsum1 & Hok1).
    specialize (IH st1 n1 Hsum1 Hok1).
    revert IH. destruct (fold_left step rows (st1, n1)) as [st2 n2].
    intros (Hn2 & Hsum2 & Hok2). repeat split; auto. lia.
Qed.

Lemma group_rows_counts rows :
  snd (group_rows rows) = List.length rows /\
  count_sum (values (fst (group_rows rows))) = snd (group_rows rows) /\
  counts_ok (values (fst (group_rows rows))).
Proof.
  unfold group_rows.
  pose proof (fold_step_counts rows [] 0 eq_refl (Forall_nil _)) as H.
  revert H. destruct (fold_left step rows _) as [st n].
  intros (Hn & Hsum & Hok). simpl. repeat split; auto. lia.
Qed.

End AggregatorFacts.

(** C1.  For every result set of the aggregation query, the report has
    [total_beats] equal to the sum of the acts' [beat_count] and to the
    number of rows; each act's [beat_count] is the length of its [beats];
    [total_acts] is the length of [acts]; and no rows give [acts = []],
    [total_acts = 0], [total_beats = 0]. *)
Theorem aggregate_counts (now_iso : string) (rows : list BeatRow) :
  let report := aggregate now_iso rows in
  total_beats (summary report) = count_sum (acts report) /\
  total_beats (summary report) = List.length rows /\
  Forall (fun g => beat_count g = List.length (beats g)) (acts report) /\
  total_acts (summary report) = List.length (acts report) /\
  (rows = [] ->
   acts report = [] /\ total_acts (summary report) = 0 /\
   total_beats (summary report) = 0).
Proof.
  unfold aggregate.
  pose proof (group_rows_counts rows) as H.
  destruct (group_rows rows) as [st n] eqn:E.
  cbn [fst snd] in H. destruct H as (Hn & Hsum & Hok).
  cbn [acts summary total_beats total_acts].
  split; [congruence|]. split; [lia|]. split; [exact Hok|].
  split; [reflexivity|].
  intros ->. cbv in E. inversion E. repeat split; reflexivity.
Qed.

(** ** Ordering of the aggregated report *)

Section DecimalFacts.

Lemma to_int_not_nil (z : Z) : Z.to_int z <> Pos Nil /\ Z.to_int z <> Neg Nil.
Proof.
  destruct z as [|p|p]; simpl; split; try discriminate;
    intros H; inversion H as [H'];
    now apply (DecimalPos.Unsigned.to_uint_nonnil p).
Qed.

(** Two integers with the same decimal text are equal. *)
Lemma string_of_Z_inj (a b : Z) : string_of_Z a = string_of_Z b -> a = b.
Proof.
  unfold string_of_Z. intros H.
  apply (f_equal NilZero.int_of_string) in H.
  destruct (to_int_not_nil a) as [Ha1 Ha2].
  destruct (to_int_not_nil b) as [Hb1 Hb2].
  rewrite !NilZero.isi in H by assumption.
  inversion H as [H'].
  apply (f_equal Z.of_int) in H'. now rewrite !DecimalZ.of_to in H'.
Qed.

Lemma append_inj_l (p s t : string) : (p ++ s = p ++ t)%string -> s = t.
Proof.
  induction p as [|c p IH]; simpl; intros H; [exact H|].
  inversion H. auto.
Qed.

Lemma actKey_inj (a b : Z) : actKey a = actKey b -> a = b.
Proof.
  unfold actKey. intros H. apply append_inj_l in H.
  now apply string_of_Z_inj.
Qed.

End DecimalFacts.

Section Ordering.

Lemma row_le_trans : Relations_1.Transitive row_le.
Proof. intros a b c. unfold row_le. lia. Qed.

Lemma row_le_lt r1 r2 : row_le r1 r2 -> row_key r1 <> row_key r2 -> row_lt r1 r2.
Proof.
  unfold row_le, row_lt, row_key. intros [H|[H1 H2]] Hk; [now left|].
  right. split; [exact H1|].
  assert (row_beat_number r1 <> row_beat_number r2) by congruence. lia.
Qed.

(** A list sorted by the query's order with one row per key is strictly
    sorted. *)
Lemma sorted_nodup_strict (rows : list BeatRow) :
  Sorted row_le rows -> NoDup (map row_key rows) ->
  StronglySorted row_lt rows.
Proof.
  intros Hs Hn. apply (Sorted_StronglySorted row_le_trans) in Hs.
  induction Hs as [|r rows Hs IH Hall]; [constructor|].
  simpl in Hn. inversion Hn as [|k ks Hnotin Hn']; subst.
  constructor; [auto|].
  rewrite Forall_forall in *. intros r' Hin.
  apply row_le_lt; [auto|].
  intros Heq. apply Hnotin. rewrite Heq. now apply in_map.
Qed.

Lemma StronglySorted_snoc {A} (R : A -> A -> Prop) (l : list A) (a : A) :
  StronglySorted R l -> Forall (fun x => R x a) l ->
  StronglySorted R (l ++ [a]).
Proof.
  induction 1 as [|x l Hs IH Hx]; intros Hall; simpl.
  - constructor; constructor.
  - inversion Hall; subst. constructor; [auto|].
    apply Forall_app. split; [exact Hx|]. constructor; [assumption|constructor].
Qed.

Lemma store_inv_nil : store_inv [] [].
Proof. split; simpl; constructor. Qed.

Lemma store_get_none_keys k st :
  store_get k st = None -> Forall (fun kg => fst kg <> k) st.
Proof.
  induction st as [|[k' g] st IH]; simpl; [constructor|].
  destruct (String.eqb k' k) eqn:E; [discriminate|].
  intros H. constructor; [|auto]. simpl. now apply String.eqb_neq.
Qed.

Lemma store_update_app_new k f g st :
  Forall (fun kg => fst kg <> k) st ->
  store_update k f (st ++ [(k, g)]) = st ++ [(k, f g)].
Proof.
  induction 1 as [|[k' g'] st Hk Hall IH]; simpl.
  - now rewrite String.eqb_refl.
  - simpl in Hk. apply String.eqb_neq in Hk. rewrite Hk. now rewrite IH.
Qed.

Lemma push_incr_split k v st g :
  store_get k st = Some g ->
  exists st1 st2,
    st = st1 ++ (k, g) :: st2 /\
    store_update k incr_count (store_update k (push_beat v) st)
    = st1 ++ (k, incr_count (push_beat v g)) :: st2.
Proof.
  induction st as [|[k' g'] st IH]; simpl; [discriminate|].
  destruct (String.eqb k' k) eqn:E; intros H; simpl; rewrite E.
  - apply String.eqb_eq in E. inversion H; subst.
    exists [], st. split; reflexivity.
  - destruct (IH H) as (st1 & st2 & H1 & H2).
    exists ((k', g') :: st1), st2. simpl. split; congruence.
Qed.

Lemma seen_weaken {A} (P : BeatRow -> A -> Prop) seen r (l : list A) :
  Forall (fun a => exists r', In r' seen /\ P r' a) l ->
  Forall (fun a => exists r', In r' (r :: seen) /\ P r' a) l.
Proof.
  apply Forall_impl. intros a (r' & Hin & HP). exists r'. split; [now right|auto].
Qed.

Lemma values_split st1 k g st2 :
  values (st1 ++ (k, g) :: st2) = values st1 ++ g :: values st2.
Proof. unfold values. now rewrite map_app. Qed.

(** First case of an iteration: the act of the row has no group yet. *)
Lemma step_inv_new seen st r :
  store_inv seen st ->
  Forall (fun r' => row_lt r' r) seen ->
  store_get (actKey (row_act_no r)) st = None ->
  store_inv (r :: seen)
    (st ++ [(actKey (row_act_no r),
             incr_count (push_beat (beatView r) (newGroup r)))]).
Proof.
  intros [Hk Ha Hs Hb Hf] Hlt Hnone.
  pose proof (store_get_none_keys _ _ Hnone) as Habs.
  assert (Hbelow : Forall (fun x => (x < row_act_no r)%Z)
                          (map act_no (values st))).
  { unfold values. rewrite map_map.
    rewrite Forall_forall in *. intros x Hx.
    apply in_map_iff in Hx. destruct Hx as ([k g] & <- & Hin). simpl.
    destruct (Hs g) as (r' & Hr' & Hact); [now apply (in_map snd) in Hin|].
    specialize (Hlt r' Hr'). specialize (Hk _ Hin). specialize (Habs _ Hin).
    simpl in Hk, Habs.
    assert (act_no g <> row_act_no r) by (intros E; apply Habs; congruence).
    unfold row_lt in Hlt. lia. }
  split.
  - apply Forall_app. split; [exact Hk|]. constructor; [reflexivity|constructor].
  - rewrite values_app, map_app. simpl. now apply StronglySorted_snoc.
  - rewrite values_app. apply Forall_app. split.
    + now apply (seen_weaken (fun r' g => row_act_no r' = act_no g)).
    + constructor; [|constructor]. exists r. split; [now left|reflexivity].
  - rewrite values_app. apply Forall_app. split; [exact Hb|].
    constructor; [|constructor]. simpl. constructor; constructor.
  - rewrite values_app. apply Forall_app. split.
    + revert Hf. apply Forall_impl. intros g.
      apply (seen_weaken (fun r' v => row_act_no r' = act_no g /\
                                      row_beat_number r' = beat_number v)).
    + constructor; [|constructor]. simpl. constructor; [|constructor].
      exists r. split; [now left|split; reflexivity].
Qed.

(** Second case: the row joins the group of its act. *)
Lemma step_inv_old seen st1 st2 g r :
  store_inv seen (st1 ++ (actKey (row_act_no r), g) :: st2) ->
  Forall (fun r' => row_lt r' r) seen ->
  store_inv (r :: seen)
    (st1 ++ (actKey (row_act_no r), incr_count (push_beat (beatView r) g))
         :: st2).
Proof.
  intros [Hk Ha Hs Hb Hf] Hlt.
  assert (Hact : act_no g = row_act_no r).
  { rewrite Forall_forall in Hk.
    specialize (Hk (actKey (row_act_no r), g)). simpl in Hk.
    symmetry. apply actKey_inj, Hk, in_elt. }
  rewrite values_split in *.
  split.
  - apply Forall_app in Hk. destruct Hk as [Hk1 Hk2].
    inversion Hk2; subst. apply Forall_app. split; [exact Hk1|].
    constructor; assumption.
  - rewrite values_split. rewrite map_app in *. exact Ha.
  - rewrite values_split.
    apply (seen_weaken (fun r' g => row_act_no r' = act_no g)).
    apply Forall_app in Hs. destruct Hs as [Hs1 Hs2].
    inversion Hs2; subst. apply Forall_app. split; [exact Hs1|].
    constructor; assumption.
  - rewrite values_split.
    apply Forall_app in Hb. destruct Hb as [Hb1 Hb2].
    inversion Hb2 as [|? ? Hg Hb3]; subst.
    apply Forall_app. split; [exact Hb1|]. constructor; [|exact Hb3].
    simpl. rewrite map_app. simpl. apply StronglySorted_snoc; [exact Hg|].
    apply Forall_app in Hf. destruct Hf as [_ Hf2].
    inversion Hf2 as [|? ? Hfg _]; subst.
    rewrite Forall_forall in *. intros x Hx.
    apply in_map_iff in Hx. destruct Hx as (v & <- & Hv).
    destruct (Hfg v Hv) as (r' & Hr' & Hra & Hrb).
    specialize (Hlt r' Hr'). unfold row_lt in Hlt. lia.
  - rewrite values_split.
    apply Forall_app in Hf. destruct Hf as [Hf1 Hf2].
    inversion Hf2 as [|? ? Hfg Hf3]; subst.
    apply Forall_app. split; [|constructor].
    + revert Hf1. apply Forall_impl. intros g0.
      apply (seen_weaken (fun r' v => row_act_no r' = act_no g0 /\
                                      row_beat_number r' = beat_number v)).
    + simpl. apply Forall_app. split.
      * revert Hfg.
        apply (seen_weaken (fun r' v => row_act_no r' = act_no g /\
                                        row_beat_number r' = beat_number v)).
      * constructor; [|constructor]. exists r.
        split; [now left|]. split; [congruence|reflexivity].
    + revert Hf3. apply Forall_impl. intros g0.
      apply (seen_weaken (fun r' v => row_act_no r' = act_no g0 /\
                                      row_beat_number r' = beat_number v)).
Qed.

Lemma step_inv seen st n r :
  store_inv seen st ->
  Forall (fun r' => row_lt r' r) seen ->
  store_inv (r :: seen) (fst (step (st, n) r)).
Proof.
  intros Hinv Hlt. unfold step. cbn [fst].
  destruct (store_get (actKey (row_act_no r)) st) as [g|] eqn:E.
  - destruct (push_incr_split _ (beatView r) _ _ E) as (st1 & st2 & H1 & H2).
    rewrite H2. subst st. now apply step_inv_old.
  - pose proof (store_get_none_keys _ _ E) as Habs.
    rewrite (store_update_app_new _ _ _ _ Habs).
    rewrite (store_update_app_new _ _ _ _ Habs).
    now apply step_inv_new.
Qed.

Lemma fold_step_inv rows : forall seen st n,
  store_inv seen st ->
  StronglySorted row_lt rows ->
  Forall (fun r' => Forall (row_lt r') rows) seen ->
  exists seen', store_inv seen' (fst (fold_left step rows (st, n))).
Proof.
  induction rows as [|r rows IH]; intros seen st n Hinv Hs Hseen;
    cbn [fold_left].
  - now exists seen.
  - inversion Hs as [|? ? Hs' Hr]; subst.
    assert (Hlt : Forall (fun r' => row_lt r' r) seen).
    { revert Hseen. apply Forall_impl. intros r' H. now inversion H. }
    pose proof (step_inv seen st n r Hinv Hlt) as Hstep.
    destruct (step (st, n) r) as [st1 n1]. cbn [fst] in Hstep.
    apply (IH (r :: seen) st1 n1 Hstep Hs').
    constructor; [exact Hr|].
    revert Hseen. apply Forall_impl. intros r' H. now inversion H.
Qed.

Lemma group_rows_inv rows :
  StronglySorted row_lt rows ->
  exists seen, store_inv seen (fst (group_rows rows)).
Proof.
  intros Hs. unfold group_rows.
  exact (fold_step_inv rows [] [] 0 store_inv_nil Hs (Forall_nil _)).
Qed.

End Ordering.

(** C2.  When the rows come sorted by [(act_no, beat_number)] with at most
    one row per such pair, the acts of the report are strictly ascending in
    [act_no], [summary.beats_per_act] lists the same acts in the same order,
    and the beats of every act are strictly ascending in [beat_number]. *)
Theorem aggregate_sorted (now_iso : string) (rows : list BeatRow) :
  Sorted row_le rows ->
  NoDup (map row_key rows) ->
  let report := aggregate now_iso rows in
  StronglySorted Z.lt (map act_no (acts report)) /\
  beats_per_act (summary report) = map act_summary (acts report) /\
  map sum_act_no (beats_per_act (summary report)) = map act_no (acts report) /\
  Forall (fun g => StronglySorted Z.lt (map beat_number (beats g)))
         (acts report).
Proof.
  intros Hs Hn.
  pose proof (sorted_nodup_strict rows Hs Hn) as Hstrict.
  destruct (group_rows_inv rows Hstrict) as (seen & [Hk Ha Hse Hb Hf]).
  unfold aggregate.
  destruct (group_rows rows) as [st n]. cbn [fst] in Ha, Hb.
  cbn [acts summary beats_per_act].
  split; [exact Ha|]. split; [reflexivity|]. split; [|exact Hb].
  rewrite map_map. reflexivity.
Qed.

(** ** Properties of the CSV projector *)

Section CsvFacts.

Lemma needs_escape_cons c s :
  needs_escape (String c s) =
  (Ascii.eqb c comma_char || Ascii.eqb c dq_char || Ascii.eqb c nl_char)
  || needs_escape s.
Proof.
  unfold needs_escape. simpl.
  destruct (Ascii.eqb c comma_char), (Ascii.eqb c dq_char),
    (Ascii.eqb c nl_char), (includes_char comma_char s),
    (includes_char dq_char s); reflexivity.
Qed.

Lemma needs_escape_uint (d : uint) :
  needs_escape (NilEmpty.string_of_uint d) = false.
Proof.
  induction d; cbn [NilEmpty.string_of_uint];
    [reflexivity | rewrite needs_escape_cons, IHd; reflexivity ..].
Qed.

Lemma needs_escape_nz_uint (d : uint) :
  needs_escape (NilZero.string_of_uint d) = false.
Proof.
  destruct d; try apply needs_escape_uint. reflexivity.
Qed.

(** The decimal text of an integer never needs quoting. *)
Lemma needs_escape_Z (z : Z) : needs_escape (string_of_Z z) = false.
Proof.
  unfold string_of_Z. destruct (Z.to_int z) as [d|d]; simpl.
  - apply needs_escape_nz_uint.
  - rewrite needs_escape_cons, needs_escape_nz_uint. reflexivity.
Qed.

Lemma needs_escape_num_or (v : option Z) :
  needs_escape (num_or v EmptyString) = false.
Proof.
  destruct v as [z|]; simpl; [|reflexivity].
  destruct (Z.eqb z 0); [reflexivity|apply needs_escape_Z].
Qed.

Lemma csv_rule_escape (s : string) : csv_rule s (escapeCSV (Some s)).
Proof. reflexivity. Qed.

Lemma csv_rule_plain (s : string) : needs_escape s = false -> csv_rule s s.
Proof. unfold csv_rule. now intros ->. Qed.

Lemma drop_last_snoc (s : string) (c : ascii) :
  drop_last (s ++ String c EmptyString) = s.
Proof.
  induction s as [|a s IH]; simpl; [reflexivity|].
  rewrite IH. destruct s; reflexivity.
Qed.

Lemma collapse_double (s : string) : collapse_quotes (double_quotes s) = s.
Proof.
  induction s as [|c s IH]; [reflexivity|].
  cbn [double_quotes]. destruct (Ascii.eqb c dq_char) eqn:E.
  - apply Ascii.eqb_eq in E. subst c.
    cbn [collapse_quotes]. rewrite Ascii.eqb_refl. simpl. now rewrite IH.
  - cbn [collapse_quotes].
    destruct (double_quotes s) as [|c' t] eqn:Ed.
    + destruct s as [|c2 s2]; [reflexivity|].
      simpl in Ed. destruct (Ascii.eqb c2 dq_char); discriminate.
    + rewrite E. simpl. rewrite <- IH. reflexivity.
Qed.

Lemma needs_escape_head_quote (s : string) :
  needs_escape (String dq_char s) = true.
Proof. rewrite needs_escape_cons. reflexivity. Qed.

(** Reading back what [escapeCSV] wrote gives the text it was given. *)
Lemma parse_escape (s : string) : parse_field (escapeCSV (Some s)) = s.
Proof.
  unfold escapeCSV. destruct (needs_escape s) eqn:E.
  - unfold dq. simpl. rewrite drop_last_snoc. apply collapse_double.
  - destruct s as [|c s]; [reflexivity|]. simpl.
    destruct (Ascii.eqb c dq_char) eqn:Ec; [|reflexivity].
    apply Ascii.eqb_eq in Ec. subst c.
    rewrite needs_escape_head_quote in E. discriminate.
Qed.

Lemma parse_rule (text emitted : string) :
  csv_rule text emitted -> parse_field emitted = text.
Proof. unfold csv_rule. intros ->. apply (parse_escape text). Qed.

End CsvFacts.

(** C3, as amended.  The twelve columns from the act number to the version
    (the eight text columns passed through [escapeCSV] and the four integer
    columns) follow the escaping rule: the field is the text wrapped in
    double quotes with its double quotes doubled exactly when the text has
    a comma, a double quote or a line feed, and the text itself otherwise;
    a [null] value gives the empty field in every column; and parsing any
    of these twelve fields gives back its text. *)
Theorem csv_fields_escaped (act : ActGroup) (beat : BeatView) :
  Forall2 csv_rule (firstn 12 (csv_row_texts act beat))
                   (firstn 12 (csv_row act beat)) /\
  Forall2 (fun null emitted => null = true -> emitted = EmptyString)
          (csv_row_nulls beat) (csv_row act beat) /\
  escapeCSV None = EmptyString /\
  Forall2 (fun text emitted => parse_field emitted = text)
          (firstn 12 (csv_row_texts act beat))
          (firstn 12 (csv_row act beat)) /\
  (forall s : string, parse_field (escapeCSV (Some s)) = s).
Proof.
  assert (H12 : Forall2 csv_rule (firstn 12 (csv_row_texts act beat))
                                 (firstn 12 (csv_row act beat))).
  { cbn [firstn csv_row_texts csv_row].
    repeat first
      [ apply Forall2_nil
      | apply Forall2_cons;
        [ first [ apply csv_rule_escape
                | apply csv_rule_plain;
                  first [apply needs_escape_Z | apply needs_escape_num_or] ]
        | ] ]. }
  split; [exact H12|]. split.
  - unfold csv_row_nulls, csv_row.
    destruct beat as [bn sc ti de co em lo td ch ve cr up]; simpl.
    repeat (apply Forall2_cons; [try discriminate|]); try apply Forall2_nil.
    all: match goal with
         | |- context [match ?v with _ => _ end] =>
             destruct v; intros; try discriminate; reflexivity
         end.
  - split; [reflexivity|]. split; [|exact parse_escape].
    revert H12. apply Forall2_impl. exact parse_rule.
Qed.

(** C3, as stated, fails on a timestamp: [created_at] is written without
    escaping, so a value with a comma is not quoted and the line of its
    beat has one comma more than it has separators. *)
Lemma csv_timestamp_not_escaped :
  needs_escape timestamp_text = true /\
  csv_line (sample_act []) timestamp_beat
  = ("1,Act One,1,,,,,,,,,,Jan 1, 2024," ++ nl)%string /\
  ~ Forall2 csv_rule (csv_row_texts (sample_act []) timestamp_beat)
                     (csv_row (sample_act []) timestamp_beat) /\
  ~ (forall (act : ActGroup) (beat : BeatView),
       Forall2 csv_rule (csv_row_texts act beat) (csv_row act beat)).
Proof.
  assert (H : ~ Forall2 csv_rule (csv_row_texts (sample_act []) timestamp_beat)
                                 (csv_row (sample_act []) timestamp_beat)).
  { intros H. cbn [csv_row_texts csv_row] in H.
    do 12 (apply Forall2_cons_iff in H; destruct H as [_ H]).
    apply Forall2_cons_iff in H. destruct H as [H _].
    vm_compute in H. discriminate H. }
  split; [vm_compute; reflexivity|]. split; [vm_compute; reflexivity|].
  split; [exact H|]. intros Hall. apply H, Hall.
Qed.

(** ** Searching and replacing in strings *)

Section StringFacts.

Lemma append_nil_r (s : string) : (s ++ EmptyString)%string = s.
Proof. induction s as [|c s IH]; simpl; congruence. Qed.

Lemma append_assoc (a b c : string) :
  ((a ++ b) ++ c)%string = (a ++ (b ++ c))%string.
Proof. induction a as [|x a IH]; simpl; congruence. Qed.

Lemma strip_prefix_app (needle rest : string) :
  strip_prefix needle (needle ++ rest) = Some rest.
Proof.
  induction needle as [|c needle IH]; simpl; [reflexivity|].
  now rewrite Ascii.eqb_refl.
Qed.

Lemma strip_prefix_Some (needle hay rest : string) :
  strip_prefix needle hay = Some rest -> hay = (needle ++ rest)%string.
Proof.
  revert hay. induction needle as [|c needle IH]; simpl; intros hay H.
  - now inversion H.
  - destruct hay as [|b hay]; [discriminate|].
    destruct (Ascii.eqb c b) eqn:E; [|discriminate].
    apply Ascii.eqb_eq in E. subst b. f_equal. auto.
Qed.

Lemma strip_prefix_app_l (needle hay rest more : string) :
  strip_prefix needle hay = Some rest ->
  strip_prefix needle (hay ++ more) = Some (rest ++ more)%string.
Proof.
  intros H. apply strip_prefix_Some in H. subst hay.
  rewrite append_assoc. apply strip_prefix_app.
Qed.

Lemma includes_here (needle rest : string) :
  includes needle (needle ++ rest) = true.
Proof.
  destruct needle as [|c needle]; [destruct rest; reflexivity|].
  cbn [append includes]. fold (append needle rest).
  change (String c (needle ++ rest))%string
    with ((String c needle) ++ rest)%string.
  now rewrite strip_prefix_app.
Qed.

Lemma includes_self (needle : string) : includes needle needle = true.
Proof.
  rewrite <- (append_nil_r needle) at 2. apply includes_here.
Qed.

Lemma includes_app_r (needle a b : string) :
  includes needle b = true -> includes needle (a ++ b) = true.
Proof.
  intros H. induction a as [|c a IH]; simpl; [exact H|].
  rewrite IH. now destruct (strip_prefix needle (String c (a ++ b))).
Qed.

Lemma includes_app_l (needle a b : string) :
  includes needle a = true -> includes needle (a ++ b) = true.
Proof.
  induction a as [|c a IH]; intros H.
  - simpl in H. destruct (strip_prefix needle EmptyString) as [r|] eqn:E;
      [|discriminate].
    apply strip_prefix_Some in E. destruct needle; [|discriminate].
    destruct b; reflexivity.
  - cbn [includes] in H.
    destruct (strip_prefix needle (String c a)) as [r|] eqn:E.
    + change (String c a ++ b)%string with ((String c a) ++ b)%string.
      destruct (String c a ++ b)%string eqn:Eab; [discriminate|].
      cbn [includes]. rewrite <- Eab.
      now rewrite (strip_prefix_app_l _ _ _ b E).
    + cbn [append includes]. rewrite (IH H).
      now destruct (strip_prefix needle (String c (a ++ b))).
Qed.

Lemma includes_concat_all (needle x : string) (l : list string) :
  In x l -> includes needle x = true -> includes needle (concat_all l) = true.
Proof.
  induction l as [|y l IH]; simpl; [tauto|].
  intros [->|Hin] H.
  - now apply includes_app_l.
  - apply includes_app_r. auto.
Qed.

Lemma mismatch_strip (needle hay more : string) :
  mismatch needle hay = true -> strip_prefix needle (hay ++ more) = None.
Proof.
  revert hay. induction needle as [|a needle IH]; intros hay H.
  - destruct hay; discriminate.
  - destruct hay as [|b hay]; [discriminate|]. simpl in *.
    destruct (Ascii.eqb a b); [auto|reflexivity].
Qed.

(** A scan for [needle] passes over a text that is clear of it. *)
Lemma replace_first_skip (needle by_ a b : string) :
  clear_of needle a = true ->
  replace_first needle by_ (a ++ b) = (a ++ replace_first needle by_ b)%string.
Proof.
  induction a as [|c a IH]; intros H; [reflexivity|].
  cbn [clear_of] in H. apply andb_prop in H. destruct H as [Hm Hc].
  cbn [append replace_first].
  change (String c (a ++ b))%string with ((String c a) ++ b)%string.
  rewrite (mismatch_strip _ _ b Hm). cbn [append]. now rewrite IH.
Qed.

Lemma includes_skip (needle a b : string) :
  clear_of needle a = true ->
  includes needle (a ++ b) = includes needle b.
Proof.
  induction a as [|c a IH]; intros H; [reflexivity|].
  cbn [clear_of] in H. apply andb_prop in H. destruct H as [Hm Hc].
  cbn [append includes].
  change (String c (a ++ b))%string with ((String c a) ++ b)%string.
  rewrite (mismatch_strip _ _ b Hm). auto.
Qed.

Lemma remove_actions_skip (a b : string) :
  clear_of actions_open a = true ->
  remove_actions (a ++ b) = (a ++ remove_actions b)%string.
Proof.
  induction a as [|c a IH]; intros H; [reflexivity|].
  cbn [clear_of] in H. apply andb_prop in H. destruct H as [Hm Hc].
  cbn [append remove_actions].
  change (String c (a ++ b))%string with ((String c a) ++ b)%string.
  rewrite (mismatch_strip _ _ b Hm). cbn [append]. now rewrite IH.
Qed.

(** Without an opening tag of the pattern there is nothing to remove. *)
Lemma remove_actions_absent (s : string) :
  includes actions_open s = false -> remove_actions s = s.
Proof.
  induction s as [|c s IH]; intros H.
  - reflexivity.
  - cbn [includes] in H. cbn [remove_actions].
    destruct (strip_prefix actions_open (String c s)); [discriminate|].
    now rewrite IH.
Qed.

Lemma replace_first_here (needle by_ rest : string) :
  replace_first needle by_ (needle ++ rest) = (by_ ++ rest)%string.
Proof.
  destruct needle as [|c needle].
  - destruct rest; reflexivity.
  - cbn [append replace_first].
    change (String c (needle ++ rest))%string
      with ((String c needle) ++ rest)%string.
    now rewrite strip_prefix_app.
Qed.

End StringFacts.

(** ** Properties of the HTML and print projectors *)

Section HtmlFacts.

Lemma head_clear_of_close : clear_of head_close report_head_pre = true.
Proof. vm_compute. reflexivity. Qed.

Lemma head_clear_of_actions : clear_of actions_open report_head_pre = true.
Proof. vm_compute. reflexivity. Qed.

Lemma pdf_head_clear_of_actions : clear_of actions_open pdf_head_close = true.
Proof. vm_compute. reflexivity. Qed.

(** The first [replace] of the print projector puts its style block in
    front of the closing tag of the head, for every report. *)
Lemma pdf_style_inserted (dates : nat -> string) (report : Report) :
  replace_first head_close pdf_head_close (generateHTMLReport dates report)
  = (report_head_pre ++ pdf_head_close ++ report_body dates report)%string.
Proof.
  unfold generateHTMLReport.
  rewrite (replace_first_skip _ _ _ _ head_clear_of_close).
  now rewrite replace_first_here.
Qed.

(** A character other than the first of the opening tag is passed over. *)
Lemma remove_actions_cons (c : ascii) (s : string) :
  Ascii.eqb "<" c = false ->
  remove_actions (String c s) = String c (remove_actions s).
Proof.
  intros H.
  assert (E : strip_prefix actions_open (String c s) = None).
  { change (String c s) with (String c EmptyString ++ s)%string.
    apply mismatch_strip. unfold actions_open. cbn [append mismatch].
    now rewrite H. }
  cbn [remove_actions]. now rewrite E.
Qed.

Lemma remove_actions_skip_uint (d : uint) (rest : string) :
  remove_actions (NilEmpty.string_of_uint d ++ rest)
  = (NilEmpty.string_of_uint d ++ remove_actions rest)%string.
Proof.
  induction d; cbn [NilEmpty.string_of_uint append]; [reflexivity | ..];
    rewrite remove_actions_cons by reflexivity; now rewrite IHd.
Qed.

Lemma remove_actions_skip_nz_uint (d : uint) (rest : string) :
  remove_actions (NilZero.string_of_uint d ++ rest)
  = (NilZero.string_of_uint d ++ remove_actions rest)%string.
Proof.
  destruct d; try apply remove_actions_skip_uint.
  cbn [NilZero.string_of_uint append].
  now rewrite remove_actions_cons by reflexivity.
Qed.

(** The second [replace] passes over the decimal text of an integer. *)
Lemma remove_actions_skip_Z (n : Z) (rest : string) :
  remove_actions (string_of_Z n ++ rest)
  = (string_of_Z n ++ remove_actions rest)%string.
Proof.
  unfold string_of_Z.
  destruct (Z.to_int n) as [d|d]; cbn [NilZero.string_of_int].
  - apply remove_actions_skip_nz_uint.
  - cbn [append]. rewrite remove_actions_cons by reflexivity.
    now rewrite remove_actions_skip_nz_uint.
Qed.

Ltac pass_over :=
  rewrite ?append_assoc;
  repeat first
    [ rewrite remove_actions_skip_Z
    | rewrite remove_actions_skip by (vm_compute; reflexivity) ].

(** The second [replace] passes over the sidebar, whose text is that of
    the template and of the numbers of the acts. *)
Lemma remove_actions_nav_item (act : ActGroup) (rest : string) :
  remove_actions (nav_item act ++ rest)
  = (nav_item act ++ remove_actions rest)%string.
Proof. unfold nav_item. pass_over. reflexivity. Qed.

Lemma remove_actions_nav_items (acts : list ActGroup) (rest : string) :
  remove_actions (concat_all (map nav_item acts) ++ rest)
  = (concat_all (map nav_item acts) ++ remove_actions rest)%string.
Proof.
  induction acts as [|act acts IH]; [reflexivity|].
  cbn [map concat_all fold_right]. fold (concat_all (map nav_item acts)).
  rewrite !append_assoc, remove_actions_nav_item. now rewrite IH.
Qed.

Lemma remove_actions_sidebar (report : Report) (rest : string) :
  remove_actions (sidebarHTML report ++ rest)
  = (sidebarHTML report ++ remove_actions rest)%string.
Proof.
  unfold sidebarHTML. rewrite !append_assoc.
  repeat first
    [ rewrite remove_actions_nav_items
    | rewrite remove_actions_skip by (vm_compute; reflexivity) ].
  reflexivity.
Qed.

(** For every report, the print projector changes the head by its style
    block only and applies its second [replace] to the body. *)
Lemma pdf_head_restyled (dates : nat -> string) (report : Report) :
  generatePDFOptimizedHTML dates report
  = (report_head_pre ++ pdf_head_close
     ++ remove_actions (report_body dates report))%string.
Proof.
  unfold generatePDFOptimizedHTML. cbv zeta.
  rewrite pdf_style_inserted.
  rewrite (remove_actions_skip _ _ head_clear_of_actions).
  now rewrite (remove_actions_skip _ _ pdf_head_clear_of_actions).
Qed.

(** The body of the document, cut around the sidebar. *)
Lemma report_body_sidebar_split (dates : nat -> string) (report : Report) :
  exists before after,
    clear_of actions_open before = true /\
    report_body dates report
    = (before ++ sidebarHTML report ++ after)%string.
Proof.
  unfold report_body.
  match goal with
  | |- exists before after, _ /\
         (?a ++ ?b ++ ?c ++ ?d ++ ?e ++ sidebarHTML report ++ ?r)%string = _ =>
      exists (a ++ b ++ c ++ d ++ e)%string, r
  end.
  split; [vm_compute; reflexivity|].
  now rewrite !append_assoc.
Qed.

End HtmlFacts.

(** C6, as amended.  The print projector is a function of the text of the
    HTML projector.  It keeps the sidebar navigation: for every report the
    two documents are the same from their start to the end of the sidebar,
    except for the style block that the print document has in front of the
    closing tag of its head.  When the body of the document has no opening
    tag of an action block, that style block is the only difference: the
    print document is the HTML document with the closing tag of the head
    replaced by the style block and that tag, and the body, with all data,
    the summary counts and the sidebar, is the same. *)
Theorem pdf_is_restyled_html (dates : nat -> string) (report : Report) :
  let html := generateHTMLReport dates report in
  let print := generatePDFOptimizedHTML dates report in
  (forall dates' report',
     generateHTMLReport dates' report' = html ->
     generatePDFOptimizedHTML dates' report' = print) /\
  (exists before after after',
     html = (report_head_pre ++ head_close ++ before
             ++ sidebarHTML report ++ after)%string /\
     print = (report_head_pre ++ pdf_head_close ++ before
              ++ sidebarHTML report ++ after')%string) /\
  includes (sidebarHTML report) print = true /\
  (includes actions_open (report_body dates report) = false ->
   print = replace_first head_close pdf_head_close html /\
   print = (report_head_pre ++ pdf_head_close
            ++ report_body dates report)%string).
Proof.
  cbv zeta.
  destruct (report_body_sidebar_split dates report)
    as (before & after & Hclear & Hbody).
  assert (Hprint : generatePDFOptimizedHTML dates report
                   = (report_head_pre ++ pdf_head_close ++ before
                      ++ sidebarHTML report ++ remove_actions after)%string).
  { rewrite pdf_head_restyled, Hbody.
    rewrite (remove_actions_skip _ _ Hclear).
    rewrite remove_actions_sidebar. reflexivity. }
  split; [|split; [|split]].
  - intros dates' report' H. unfold generatePDFOptimizedHTML. cbv zeta.
    rewrite H. reflexivity.
  - exists before, after, (remove_actions after). split; [|exact Hprint].
    unfold generateHTMLReport. rewrite Hbody. reflexivity.
  - rewrite Hprint.
    apply includes_app_r, includes_app_r, includes_app_r, includes_here.
  - intros Habs. split.
    + rewrite pdf_style_inserted, pdf_head_restyled.
      rewrite (remove_actions_absent _ Habs). reflexivity.
    + rewrite pdf_head_restyled.
      rewrite (remove_actions_absent _ Habs). reflexivity.
Qed.

(** C6, as stated, fails: the print document of a report without rows
    still has the sidebar and the download link, and a title that holds a
    block of class [actions] is in the HTML document but is cut out of the
    print document. *)
Lemma pdf_keeps_sidebar_and_link :
  includes sidebar_open (generatePDFOptimizedHTML sample_dates empty_report)
  = true /\
  includes download_link_text
    (generatePDFOptimizedHTML sample_dates empty_report) = true /\
  includes "secret"
    (generateHTMLReport sample_dates (sample_report [with_title actions_block]))
  = true /\
  includes "secret"
    (generatePDFOptimizedHTML sample_dates
       (sample_report [with_title actions_block])) = false.
Proof. vm_compute. repeat split; reflexivity. Qed.

(** The print document of a report with text in every field of its beat. *)
Lemma pdf_is_restyled_html_witness :
  includes actions_open (report_body sample_dates detailed_report) = false /\
  includes (sidebarHTML detailed_report)
           (generatePDFOptimizedHTML sample_dates detailed_report) = true /\
  generatePDFOptimizedHTML sample_dates detailed_report
  = (report_head_pre ++ pdf_head_close
     ++ report_body sample_dates detailed_report)%string.
Proof.
  assert (Habs : includes actions_open
                   (report_body sample_dates detailed_report) = false)
    by (vm_compute; reflexivity).
  pose proof (pdf_is_restyled_html sample_dates detailed_report) as H.
  cbv zeta in H. destruct H as (_ & _ & Hside & Hsame).
  split; [exact Habs|]. split; [exact Hside|].
  exact (proj2 (Hsame Habs)).
Defined.

Section Verbatim.

Ltac find_text :=
  first [ apply includes_here
        | apply includes_self
        | apply includes_app_l; find_text
        | apply includes_app_r; find_text ].

Lemma str_or_truthy (s d : string) :
  s <> EmptyString -> str_or (Some s) d = s.
Proof.
  intros H. simpl. destruct (String.eqb s EmptyString) eqn:E; [|reflexivity].
  apply String.eqb_eq in E. contradiction.
Qed.

Lemma truthy_str_Some (s : string) :
  s <> EmptyString -> truthy_str (Some s) = true.
Proof.
  intros H. simpl. destruct (String.eqb s EmptyString) eqn:E; [|reflexivity].
  apply String.eqb_eq in E. contradiction.
Qed.

(** A text field with a value that is not empty is written as it is into
    the entry of its beat. *)
Lemma beat_entry_verbatim (beat : BeatView) (s : string) :
  s <> EmptyString -> In (Some s) (html_text_fields beat) ->
  includes s (beat_entry beat) = true.
Proof.
  intros Hs Hin. unfold html_text_fields in Hin. simpl in Hin.
  unfold beat_entry.
  destruct Hin as [H|[H|[H|[H|[H|[H|[H|[]]]]]]]]; rewrite H;
    rewrite ?(str_or_truthy s _ Hs), ?(truthy_str_Some s Hs);
    cbn [str_text]; find_text.
Qed.

Lemma act_section_verbatim (today : string) (act : ActGroup) (beat : BeatView)
  (s : string) :
  In beat (beats act) -> includes s (beat_entry beat) = true ->
  includes s (act_section today act) = true.
Proof.
  intros Hin H.
  assert (Hc : includes s (concat_all (map beat_entry (beats act))) = true).
  { apply (includes_concat_all s (beat_entry beat)); [|exact H].
    now apply in_map. }
  unfold act_section. revert Hc.
  generalize (concat_all (map beat_entry (beats act))). intros c Hc.
  repeat (first [ apply includes_app_l; exact Hc | apply includes_app_r ]).
Qed.

Lemma act_sections_verbatim (dates : nat -> string) (acts : list ActGroup)
  (act : ActGroup) (beat : BeatView) (s : string) : forall k,
  In act acts -> In beat (beats act) -> includes s (beat_entry beat) = true ->
  includes s (concat_all (act_sections dates k acts)) = true.
Proof.
  induction acts as [|a acts IH]; intros k Hact Hbeat H; [destruct Hact|].
  cbn [act_sections concat_all fold_right]. destruct Hact as [->|Hact].
  - apply includes_app_l. now apply (act_section_verbatim _ _ beat).
  - apply includes_app_r. now apply IH.
Qed.

Lemma report_body_verbatim (dates : nat -> string) (report : Report)
  (s : string) :
  includes s (beatsHTML dates report) = true ->
  includes s (report_body dates report) = true.
Proof.
  intros H. unfold report_body. revert H.
  generalize (beatsHTML dates report). intros c Hc.
  repeat (first [ apply includes_app_l; exact Hc | apply includes_app_r ]).
Qed.

End Verbatim.

(** C4, as amended.  The HTML projector writes the text fields of a beat
    into the document as they are, without escaping: every value of
    [title], [description], [conflict], [emotion], [location],
    [time_of_day] and [characters] that is not empty occurs unchanged in
    the document. *)
Theorem html_fields_verbatim (dates : nat -> string) (report : Report)
  (act : ActGroup) (beat : BeatView) (s : string) :
  In act (acts report) -> In beat (beats act) ->
  s <> EmptyString -> In (Some s) (html_text_fields beat) ->
  includes s (generateHTMLReport dates report) = true.
Proof.
  intros Hact Hbeat Hs Hfield.
  unfold generateHTMLReport.
  apply includes_app_r, includes_app_r, report_body_verbatim.
  unfold beatsHTML.
  apply (act_sections_verbatim dates (acts report) act beat s 0 Hact Hbeat).
  now apply beat_entry_verbatim.
Qed.

(** C4, as stated, fails: the document of a report without rows has no
    [script] element; a title that holds one is written into the entry of
    its beat as it is, not with its markup characters replaced, and so the
    document has a [script] element. *)
Lemma html_title_not_escaped :
  includes script_open (generateHTMLReport sample_dates empty_report) = false /\
  includes script_open
    (generateHTMLReport sample_dates (sample_report [with_title script_title]))
  = true /\
  includes ("<h3>" ++ script_title ++ "</h3>")
           (beat_entry (with_title script_title)) = true /\
  includes ("<h3>" ++ html_escape script_title ++ "</h3>")
           (beat_entry (with_title script_title)) = false.
Proof. vm_compute. repeat split; reflexivity. Qed.

(** A title with markup, found as it is in the document. *)
Lemma html_fields_verbatim_witness :
  includes script_title
    (generateHTMLReport sample_dates (sample_report [with_title script_title]))
  = true.
Proof.
  apply (html_fields_verbatim sample_dates
           (sample_report [with_title script_title])
           (sample_act [with_title script_title])
           (with_title script_title) script_title).
  - simpl. left. reflexivity.
  - simpl. left. reflexivity.
  - discriminate.
  - simpl. left. reflexivity.
Defined.

Section OptionalFields.

Lemma includes_cons_skip (needle : string) (c b : ascii) (w s : string) :
  needle = String c w -> Ascii.eqb c b = false ->
  includes needle (String b s) = includes needle s.
Proof.
  intros -> H. cbn [includes strip_prefix]. now rewrite H.
Qed.

Lemma includes_skip_uint (needle rest : string) (d : uint) :
  skips_decimal needle = true ->
  includes needle (NilEmpty.string_of_uint d ++ rest) = includes needle rest.
Proof.
  intros H. destruct needle as [|c w]; [discriminate|].
  cbn [skips_decimal] in H. apply andb_prop in H. destruct H as [Hd _].
  induction d; cbn [NilEmpty.string_of_uint append]; [reflexivity | ..];
    (rewrite (includes_cons_skip (String c w) c _ w _ eq_refl); [exact IHd|]);
    destruct (Ascii.eqb c _) eqn:E; try reflexivity;
    apply Ascii.eqb_eq in E; subst c; discriminate Hd.
Qed.

Lemma includes_skip_nz_uint (needle rest : string) (d : uint) :
  skips_decimal needle = true ->
  includes needle (NilZero.string_of_uint d ++ rest) = includes needle rest.
Proof.
  intros H. destruct d; try apply (includes_skip_uint _ _ _ H).
  change (NilZero.string_of_uint Nil) with (NilEmpty.string_of_uint (D0 Nil)).
  apply (includes_skip_uint _ _ _ H).
Qed.

(** A scan for such a needle passes over the decimal text of an integer. *)
Lemma includes_skip_Z (needle rest : string) (n : Z) :
  skips_decimal needle = true ->
  includes needle (string_of_Z n ++ rest) = includes needle rest.
Proof.
  intros H. unfold string_of_Z.
  destruct (Z.to_int n) as [d|d]; cbn [NilZero.string_of_int].
  - apply (includes_skip_nz_uint _ _ _ H).
  - cbn [append]. destruct needle as [|c w]; [discriminate|].
    rewrite (includes_cons_skip (String c w) c _ w _ eq_refl).
    + apply (includes_skip_nz_uint _ _ _ H).
    + cbn [skips_decimal] in H. apply andb_prop in H. destruct H as [_ Hm].
      now apply negb_true_iff in Hm.
Qed.

Ltac skip_pieces :=
  repeat first
    [ rewrite includes_skip_Z by reflexivity
    | rewrite includes_skip by (vm_compute; reflexivity) ].

(** The entry of a beat without any nullable value has neither of the two
    words that a template writes for a missing value. *)
Lemma null_entry_no_null (n : Z) :
  includes "null" (beat_entry (null_beat n)) = false.
Proof.
  unfold beat_entry. skip_pieces. vm_compute. reflexivity.
Qed.

Lemma null_entry_no_undefined (n : Z) :
  includes "undefined" (beat_entry (null_beat n)) = false.
Proof.
  unfold beat_entry. skip_pieces. vm_compute. reflexivity.
Qed.

Lemma optional_field_empty (label : string) (v : option string) :
  optional_field label v = EmptyString <-> truthy_str v = false.
Proof.
  unfold optional_field. destruct (truthy_str v); split; intros H;
    try reflexivity; discriminate H.
Qed.

Lemma optional_field_present (label : string) (v : option string) :
  truthy_str v = true ->
  exists s, v = Some s /\ s <> EmptyString /\
            optional_field label v = field_pair label s.
Proof.
  unfold optional_field. intros H. rewrite H.
  destruct v as [s|]; [|discriminate]. exists s. split; [reflexivity|].
  split; [|reflexivity]. intros ->. discriminate H.
Qed.

Lemma beat_entry_fields (beat : BeatView) :
  beat_entry beat
  = (entry_head beat
     ++ optional_field "Conflict" (conflict beat) ++ entry_gap
     ++ optional_field "Emotion" (emotion beat) ++ entry_gap
     ++ optional_field "Location" (location beat) ++ entry_gap
     ++ optional_field "Time" (time_of_day beat) ++ entry_gap
     ++ optional_field "Characters" (characters beat) ++ entry_tail)%string.
Proof.
  unfold beat_entry, entry_head. rewrite !append_assoc. reflexivity.
Qed.

End OptionalFields.

(** C5, as amended.  In the entry of a beat the HTML projector writes the
    label and value of each of [conflict], [emotion], [location],
    [time_of_day] and [characters] exactly when the value is truthy: it
    leaves the pair out when the value is [null] or the empty string.  The
    entry of a beat of which every nullable column is [null] has neither
    the word [null] nor the word [undefined]. *)
Theorem html_optional_fields (beat : BeatView) :
  beat_entry beat
  = (entry_head beat
     ++ optional_field "Conflict" (conflict beat) ++ entry_gap
     ++ optional_field "Emotion" (emotion beat) ++ entry_gap
     ++ optional_field "Location" (location beat) ++ entry_gap
     ++ optional_field "Time" (time_of_day beat) ++ entry_gap
     ++ optional_field "Characters" (characters beat) ++ entry_tail)%string /\
  (forall label v,
     optional_field label v = EmptyString <-> truthy_str v = false) /\
  (forall label v,
     truthy_str v = true ->
     exists s, v = Some s /\ s <> EmptyString /\
               optional_field label v = field_pair label s) /\
  (forall label, optional_field label None = EmptyString /\
                 optional_field label (Some EmptyString) = EmptyString) /\
  (forall n, includes "null" (beat_entry (null_beat n)) = false /\
             includes "undefined" (beat_entry (null_beat n)) = false).
Proof.
  split; [apply beat_entry_fields|].
  split; [exact optional_field_empty|].
  split; [exact optional_field_present|].
  split; [intros label; split; reflexivity|].
  intros n. split; [apply null_entry_no_null|apply null_entry_no_undefined].
Qed.

(** C5, as stated, fails: the entry of a beat whose conflict is [null] has
    no conflict label, so the pair is not what is written for a missing
    value; the pair is written for a conflict that is present; and a
    conflict that is the empty string, which is a value, is left out as a
    missing one is. *)
Lemma html_conflict_pair_cases :
  includes conflict_label (beat_entry (with_conflict None)) = false /\
  includes (field_pair "Conflict" "War")
           (beat_entry (with_conflict (Some "War"))) = true /\
  includes conflict_label (beat_entry (with_conflict (Some EmptyString)))
  = false /\
  ~ (forall beat,
       includes conflict_label (beat_entry beat) = true <->
       conflict beat = None) /\
  ~ (forall beat,
       includes conflict_label (beat_entry beat) = false <->
       conflict beat = None).
Proof.
  split; [vm_compute; reflexivity|]. split; [vm_compute; reflexivity|].
  split; [vm_compute; reflexivity|]. split.
  - intros H. destruct (H (with_conflict None)) as [_ H2].
    specialize (H2 eq_refl). vm_compute in H2. discriminate H2.
  - intros H. destruct (H (with_conflict (Some EmptyString))) as [H1 _].
    assert (Hc : includes conflict_label
                   (beat_entry (with_conflict (Some EmptyString))) = false)
      by (vm_compute; reflexivity).
    specialize (H1 Hc). discriminate H1.
Qed.

(** ** Falsy values and [null] *)

Section Truthiness.

Lemma same_text_truthy v v' : same_text v v' -> truthy_str v' = truthy_str v.
Proof. intros [->|[-> ->]]; reflexivity. Qed.

Lemma same_text_or v v' d : same_text v v' -> str_or v' d = str_or v d.
Proof. intros [->|[-> ->]]; reflexivity. Qed.

Lemma same_num_truthy v v' : same_num v v' -> truthy_num v' = truthy_num v.
Proof. intros [->|[-> ->]]; reflexivity. Qed.

Lemma same_num_or v v' d : same_num v v' -> num_or v' d = num_or v d.
Proof. intros [->|[-> ->]]; reflexivity. Qed.

(** A field that is written only when truthy is written alike for a value
    and for the [null] that replaces it. *)
Lemma same_text_guarded v v' (f : string -> string) :
  same_text v v' ->
  (if truthy_str v' then f (str_text v') else EmptyString)
  = (if truthy_str v then f (str_text v) else EmptyString).
Proof. intros [->|[-> ->]]; reflexivity. Qed.

Lemma same_num_guarded v v' (f : string -> string) :
  same_num v v' ->
  (if truthy_num v' then f (num_text v') else EmptyString)
  = (if truthy_num v then f (num_text v) else EmptyString).
Proof. intros [->|[-> ->]]; reflexivity. Qed.

Lemma csv_row_nullified act act' b b' :
  act_no act' = act_no act -> act_title act' = act_title act ->
  nullified_beat b b' -> csv_row act' b' = csv_row act b.
Proof.
  intros Hn Ht [Hbn Hsc Hti Hde Hco Hem Hlo Htd Hch Hve Hcr Hup].
  unfold csv_row. rewrite Hn, Ht, Hbn.
  rewrite (same_num_or _ _ _ Hsc), (same_num_or _ _ _ Hve).
  rewrite (same_text_or _ _ _ Hti), (same_text_or _ _ _ Hde),
    (same_text_or _ _ _ Hco), (same_text_or _ _ _ Hem),
    (same_text_or _ _ _ Hlo), (same_text_or _ _ _ Htd),
    (same_text_or _ _ _ Hch), (same_text_or _ _ _ Hcr),
    (same_text_or _ _ _ Hup).
  reflexivity.
Qed.

Lemma csv_act_nullified act act' : forall csv,
  nullified_act act act' -> csv_act csv act' = csv_act csv act.
Proof.
  intros csv [Hn _ Ht _ Hbs]. unfold csv_act. revert csv.
  induction Hbs as [|b b' bs bs' Hb Hbs IH]; intros csv; [reflexivity|].
  cbn [fold_left].
  assert (Hline : csv_line act' b' = csv_line act b)
    by (unfold csv_line; now rewrite (csv_row_nullified act act' b b' Hn Ht Hb)).
  rewrite Hline. apply IH.
Qed.

Lemma csv_report_nullified r r' :
  nullified_report r r' -> generateCSVReport r' = generateCSVReport r.
Proof.
  intros [_ _ _ Hacts]. unfold generateCSVReport.
  generalize csv_header.
  induction Hacts as [|a a' l l' Ha Hl IH]; intros csv; [reflexivity|].
  cbn [fold_left]. rewrite (csv_act_nullified a a' csv Ha). apply IH.
Qed.

Lemma beat_entry_nullified b b' :
  nullified_beat b b' -> beat_entry b' = beat_entry b.
Proof.
  intros [Hbn Hsc Hti Hde Hco Hem Hlo Htd Hch Hve Hcr Hup].
  unfold beat_entry. rewrite Hbn.
  rewrite (same_text_or _ _ _ Hti), (same_text_or _ _ _ Hde).
  rewrite (same_num_guarded _ _
             (fun t => "(Scene " ++ t ++ ")")%string Hsc).
  rewrite (same_text_guarded _ _
             (fun t => "<p><strong>Conflict:</strong> " ++ t ++ "</p>")%string
             Hco).
  rewrite (same_text_guarded _ _
             (fun t => "<p><strong>Emotion:</strong> " ++ t ++ "</p>")%string
             Hem).
  rewrite (same_text_guarded _ _
             (fun t => "<p><strong>Location:</strong> " ++ t ++ "</p>")%string
             Hlo).
  rewrite (same_text_guarded _ _
             (fun t => "<p><strong>Time:</strong> " ++ t ++ "</p>")%string
             Htd).
  rewrite (same_text_guarded _ _
             (fun t => "<p><strong>Characters:</strong> " ++ t ++ "</p>")%string
             Hch).
  reflexivity.
Qed.

Lemma beat_entries_nullified bs bs' :
  Forall2 nullified_beat bs bs' -> map beat_entry bs' = map beat_entry bs.
Proof.
  induction 1 as [|b b' bs bs' Hb Hbs IH]; [reflexivity|].
  cbn [map]. now rewrite (beat_entry_nullified b b' Hb), IH.
Qed.

Lemma act_section_nullified today a a' :
  nullified_act a a' -> act_section today a' = act_section today a.
Proof.
  intros [Hn _ _ _ Hbs]. unfold act_section.
  now rewrite Hn, (beat_entries_nullified _ _ Hbs).
Qed.

Lemma act_sections_nullified dates l l' : forall k,
  Forall2 nullified_act l l' ->
  act_sections dates k l' = act_sections dates k l.
Proof.
  intros k H. revert k.
  induction H as [|a a' l l' Ha Hl IH]; intros k; [reflexivity|].
  cbn [act_sections]. now rewrite (act_section_nullified _ a a' Ha), IH.
Qed.

Lemma nav_items_nullified l l' :
  Forall2 nullified_act l l' -> map nav_item l' = map nav_item l.
Proof.
  induction 1 as [|a a' l l' Ha Hl IH]; [reflexivity|].
  cbn [map]. rewrite IH. unfold nav_item. now rewrite (na_act_no _ _ Ha).
Qed.

Lemma html_report_nullified dates r r' :
  nullified_report r r' -> generateHTMLReport dates r' = generateHTMLReport dates r.
Proof.
  intros [_ _ Hsum Hacts].
  unfold generateHTMLReport, report_body, sidebarHTML, beatsHTML.
  rewrite Hsum, (nav_items_nullified _ _ Hacts),
    (act_sections_nullified dates _ _ 0 Hacts),
    (Forall2_length Hacts).
  reflexivity.
Qed.

End Truthiness.

(** C10.  When some of the empty strings among the fields of the beats of a
    report, and some of the zeros among their [scene_number] and [version],
    are replaced by [null], the CSV document and the HTML document stay the
    same. *)
Theorem falsy_values_render_as_null (r r' : Report) :
  nullified_report r r' ->
  generateCSVReport r' = generateCSVReport r /\
  (forall dates, generateHTMLReport dates r' = generateHTMLReport dates r).
Proof.
  intros H. split; [now apply csv_report_nullified|].
  intros dates. now apply html_report_nullified.
Qed.

(** ** Properties of the request handlers *)

Section ReportRequests.

(** What [generateBeatReport] returns when its query gives [rows]: the
    report of the aggregator, or the text of the projector of the format. *)
Lemma generateBeatReport_success rt rows q2 q3 q4 q5 key :
  let env := mkEnv (mkRowSource (Ok rows) q2 q3 q4 q5) key in
  let report := aggregate (iso_now rt 0) rows in
  generateBeatReport rt env "json" = Ok (OutReport report) /\
  generateBeatReport rt env "csv" = Ok (OutText (generateCSVReport report)) /\
  generateBeatReport rt env "html"
  = Ok (OutText (generateHTMLReport (long_date rt) report)) /\
  generateBeatReport rt env "pdf"
  = Ok (OutText (generatePDFOptimizedHTML (long_date rt) report)).
Proof. repeat split; reflexivity. Qed.

Lemma generateBeatReport_failure rt e q2 q3 q4 q5 key format :
  generateBeatReport rt (mkEnv (mkRowSource (Throw e) q2 q3 q4 q5) key) format
  = Throw (mkError "Error" ("Failed to generate report: " ++ err_message e)).
Proof. reflexivity. Qed.

Lemma handleReportRequest_failure rt e q2 q3 q4 q5 key format cors :
  handleReportRequest rt (mkEnv (mkRowSource (Throw e) q2 q3 q4 q5) key)
                      format cors
  = jsonResponse (report_failure e) 500 cors.
Proof. reflexivity. Qed.

End ReportRequests.

(** C7, on the code.  When the query of the report throws, every report
    path answers with status 500 and a JSON object that carries the
    message; so does the HTML path, whose body is then that JSON text and
    not an HTML document. *)
Theorem report_failure_is_json (rt : Runtime) (e : JsError)
  (q2 : outcome (list CardRow)) (q3 : Z -> outcome (list ActBeatRow))
  (q4 : Z -> outcome (option ActRow)) (q5 : Z -> Z -> outcome (option DetailRow))
  (key : option string) (cors : list (string * string)) :
  let env := mkEnv (mkRowSource (Throw e) q2 q3 q4 q5) key in
  (forall format,
     handleReportRequest rt env format cors
     = jsonResponse (report_failure e) 500 cors) /\
  status (handleReportRequest rt env "json" cors) = 500 /\
  body (handleReportRequest rt env "json" cors)
  = Some (stringify (report_failure e)) /\
  status (handleReportRequest rt env "html" cors) = 500 /\
  content_type (handleReportRequest rt env "html" cors)
  = Some "application/json" /\
  is_html_document (handleReportRequest rt env "html" cors) = false /\
  fetch rt (get_request "/api/reports/beats/html") env
  = jsonResponse (report_failure e) 500 corsHeaders /\
  fetch rt (get_request "/dashboard") env
  = jsonResponse (report_failure e) 500 corsHeaders.
Proof.
  cbv zeta. split; [intros format; apply handleReportRequest_failure|].
  repeat split; reflexivity.
Qed.

Section AllBeats.

Lemma generateAllBeatsPage_throws (env : Env) (cors : list (string * string)) :
  generateAllBeatsPage env cors = Throw (ReferenceError "allBeatCards").
Proof.
  unfold generateAllBeatsPage, generateAllBeatsPage_body, call, bindE, try_,
    block, await.
  destruct (all_beats_query (SCREENPLAY_DRAFT env)) as [beats|e]; reflexivity.
Qed.

(** The page of one act, whose variables are declared before the [try]
    block, always answers with a document. *)
Lemma generateActBeatsPage_returns (actNumber : Z) (env : Env)
  (cors : list (string * string)) :
  exists response,
    generateActBeatsPage actNumber env cors = Ok response /\
    status response = 200 /\
    content_type response = Some "text/html".
Proof.
  unfold generateActBeatsPage, generateActBeatsPage_body, call, bindE, try_,
    block, await.
  cbn [let_var declare enter_block].
  destruct (act_beats_query (SCREENPLAY_DRAFT env) actNumber) as [beats|e].
  - destruct beats as [|first rest].
    + destruct (act_query (SCREENPLAY_DRAFT env) actNumber) as [[info|]|e];
        eexists; split; try reflexivity; split; reflexivity.
    + eexists; split; [reflexivity|]. split; reflexivity.
  - eexists; split; [reflexivity|]. split; reflexivity.
Qed.

End AllBeats.

(** C8, on the code.  [generateAllBeatsPage] throws a [ReferenceError] for
    every state of the row source, whether its query gives rows or throws:
    [allBeatCards] is declared inside the [try] block and referred to
    outside it.  The request for the page of all beats is answered by the
    handler of [fetch] with status 500 and a JSON body, not with an HTML
    document. *)
Theorem all_beats_page_throws (rt : Runtime) (env : Env) :
  (forall cors,
     generateAllBeatsPage env cors = Throw (ReferenceError "allBeatCards")) /\
  fetch rt (get_request "/ally/beats/all") env
  = jsonResponse (internal_failure "allBeatCards is not defined") 500 [] /\
  status (fetch rt (get_request "/ally/beats/all") env) = 500 /\
  is_html_document (fetch rt (get_request "/ally/beats/all") env) = false.
Proof.
  split; [intros cors; apply generateAllBeatsPage_throws|].
  assert (H : fetch rt (get_request "/ally/beats/all") env
              = jsonResponse (internal_failure "allBeatCards is not defined")
                             500 []).
  { unfold fetch, handleRequest.
    cbn [get_request path method cf_access_jwt isAuthenticated truthy_str
         String.eqb Ascii.eqb Bool.eqb negb orb].
    now rewrite generateAllBeatsPage_throws. }
  rewrite H. repeat split; reflexivity.
Qed.

Section BeatPage.

Lemma ends_with_app_r (suffix a b : string) :
  ends_with suffix b = true -> ends_with suffix (a ++ b) = true.
Proof.
  intros H. induction a as [|c a IH]; [exact H|].
  cbn [append ends_with]. rewrite IH. apply orb_true_r.
Qed.

(** A path of the beat page is none of the paths routed before it. *)
Lemma beat_path_not_earlier (path : string) (a b : Z) :
  match_beat_path path = Some (a, b) ->
  (String.eqb path "/" || String.eqb path EmptyString)%bool = false /\
  String.eqb path "/ally" = false /\
  String.eqb path "/act/all" = false /\
  String.eqb path "/ally/beats/all" = false /\
  match_act_path path = None.
Proof.
  unfold match_beat_path, match_act_path.
  destruct (strip_prefix "/ally/act/" path) as [rest|] eqn:E; [|discriminate].
  apply strip_prefix_Some in E. subst path.
  destruct (span_digits rest) as [ds tail].
  destruct (strip_prefix "/beat/" tail) as [rest2|] eqn:E2; [|discriminate].
  apply strip_prefix_Some in E2. subst tail. intros _.
  repeat split; try reflexivity.
  cbn [append String.eqb]. now rewrite andb_false_r.
Qed.

Lemma handleBeatPage_missing rt env a b act cors :
  beat_query (SCREENPLAY_DRAFT env) a b = Ok None ->
  act_query (SCREENPLAY_DRAFT env) a = Ok (Some act) ->
  handleBeatPage rt env a b cors
  = Ok (textResponse
          (generateBeatPage a b (missing_beat_data b (act_row_title act))
                            (act_row_title act))
          200 "text/html" cors).
Proof.
  intros Hbeat Hact. unfold handleBeatPage. cbv zeta.
  rewrite Hbeat. cbn [bind]. rewrite Hact. reflexivity.
Qed.

Lemma beat_page_is_document a b data actTitle cors status :
  is_html_document
    (textResponse (generateBeatPage a b data actTitle) status "text/html" cors)
  = true.
Proof.
  unfold is_html_document, content_type, textResponse.
  cbn [headers body header String.eqb Ascii.eqb Bool.eqb andb].
  assert (Hend : ends_with "</html>" (generateBeatPage a b data actTitle)
                 = true).
  { unfold generateBeatPage.
    repeat apply ends_with_app_r. vm_compute. reflexivity. }
  rewrite Hend. reflexivity.
Qed.

Lemma beat_page_shows (a b : Z) (data : BeatData) (actTitle needle : string) :
  includes needle (bd_description data) = true ->
  includes needle (generateBeatPage a b data actTitle) = true.
Proof.
  intros H. unfold generateBeatPage. revert H.
  generalize (bd_description data). intros c Hc.
  repeat (first [ apply includes_app_l; exact Hc | apply includes_app_r ]).
Qed.

Lemma includes_common_prefix (x p q r : string) :
  strip_prefix p q = Some r -> includes (x ++ p) (x ++ q) = true.
Proof.
  intros H. apply strip_prefix_Some in H. subst q.
  rewrite <- append_assoc. apply includes_here.
Qed.

Lemma beat_page_shows_title (a b : Z) (data : BeatData) (actTitle : string) :
  includes (actTitle ++ " Overview") (generateBeatPage a b data actTitle)
  = true.
Proof.
  unfold generateBeatPage.
  repeat (first [ solve [ eapply includes_common_prefix; reflexivity ]
                | apply includes_app_r ]).
Qed.

End BeatPage.

(** C9.  A request for the page of a beat that the row source does not
    have, in an act that it has, is answered with status 200 and an HTML
    document that says that the beat was not found in the act, named by its
    title, and that shows that title in its navigation. *)
Theorem missing_beat_page (rt : Runtime) (request : Request) (env : Env)
  (a b : Z) (act : ActRow) :
  String.eqb (method request) "OPTIONS" = false ->
  isAuthenticated request env = true ->
  match_beat_path (path request) = Some (a, b) ->
  beat_query (SCREENPLAY_DRAFT env) a b = Ok None ->
  act_query (SCREENPLAY_DRAFT env) a = Ok (Some act) ->
  let response := fetch rt request env in
  let page :=
    generateBeatPage a b (missing_beat_data b (act_row_title act))
                     (act_row_title act) in
  status response = 200 /\
  content_type response = Some "text/html" /\
  body response = Some page /\
  is_html_document response = true /\
  includes ("Beat " ++ string_of_Z b ++ " was not found in "
            ++ act_row_title act) page = true /\
  includes (act_row_title act ++ " Overview") page = true.
Proof.
  intros Hmethod Hauth Hpath Hbeat Hact. cbv zeta.
  destruct (beat_path_not_earlier _ _ _ Hpath) as (H1 & H2 & H3 & H4 & H5).
  assert (Hfetch : fetch rt request env
                   = textResponse
                       (generateBeatPage a b
                          (missing_beat_data b (act_row_title act))
                          (act_row_title act))
                       200 "text/html" corsHeaders).
  { unfold fetch, handleRequest. cbv zeta.
    rewrite Hmethod, Hauth. cbn [negb]. rewrite H1, H2, H3, H4, H5, Hpath.
    now rewrite (handleBeatPage_missing rt env a b act corsHeaders Hbeat Hact). }
  rewrite Hfetch. split; [reflexivity|]. split; [reflexivity|].
  split; [reflexivity|]. split; [apply beat_page_is_document|].
  split; [|apply beat_page_shows_title].
  apply beat_page_shows. cbn [missing_beat_data bd_description].
  replace ("Beat " ++ string_of_Z b ++ " was not found in "
           ++ act_row_title act
           ++ ". This beat may not exist yet or may have been removed.")%string
    with (("Beat " ++ string_of_Z b ++ " was not found in "
           ++ act_row_title act)
          ++ ". This beat may not exist yet or may have been removed.")%string
    by (now rewrite !append_assoc).
  apply includes_here.
Qed.

(** ** The statements at sample data *)

(** The three rows of the scenario: acts 1 and 2, beats 1 and 2 then 1. *)
Lemma aggregate_sorted_witness :
  Sorted row_le scenario_rows /\
  NoDup (map row_key scenario_rows) /\
  StronglySorted Z.lt
    (map act_no (acts (aggregate "2024-01-02T03:04:05.000Z" scenario_rows))) /\
  Forall (fun g => StronglySorted Z.lt (map beat_number (beats g)))
         (acts (aggregate "2024-01-02T03:04:05.000Z" scenario_rows)).
Proof.
  assert (Hs : Sorted row_le scenario_rows).
  { unfold scenario_rows.
    repeat first [ apply Sorted_cons | apply Sorted_nil
                 | apply HdRel_cons | apply HdRel_nil ];
      unfold row_le; cbn [row_act_no row_beat_number plain_row]; lia. }
  assert (Hn : NoDup (map row_key scenario_rows)).
  { unfold scenario_rows, row_key. cbn [map row_act_no row_beat_number plain_row].
    repeat constructor; cbn [In]; intuition discriminate. }
  split; [exact Hs|]. split; [exact Hn|].
  pose proof (aggregate_sorted "2024-01-02T03:04:05.000Z" scenario_rows Hs Hn)
    as H.
  cbv zeta in H. destruct H as (Hacts & _ & _ & Hbeats).
  split; [exact Hacts|exact Hbeats].
Defined.

(** Beat 7 of act 1, which the sample source does not have. *)
Lemma missing_beat_page_witness :
  status (fetch sample_runtime (get_request "/ally/act/1/beat/7") sample_env)
  = 200 /\
  is_html_document
    (fetch sample_runtime (get_request "/ally/act/1/beat/7") sample_env)
  = true /\
  includes "Beat 7 was not found in The Beginning"
    (generateBeatPage 1 7 (missing_beat_data 7 "The Beginning") "The Beginning")
  = true.
Proof.
  pose proof (missing_beat_page sample_runtime
                (get_request "/ally/act/1/beat/7") sample_env 1 7
                (mkActRow "The Beginning")
                eq_refl eq_refl eq_refl eq_refl eq_refl) as H.
  cbv zeta in H. destruct H as (Hstatus & _ & _ & Hdoc & Htext & _).
  split; [exact Hstatus|]. split; [exact Hdoc|exact Htext].
Defined.

(** A beat with empty strings and zeros, and the same beat with [null]. *)
Lemma falsy_values_render_as_null_witness :
  nullified_report (sample_report [falsy_beat])
                   (sample_report [falsy_beat_nulled]) /\
  generateCSVReport (sample_report [falsy_beat_nulled])
  = generateCSVReport (sample_report [falsy_beat]) /\
  generateHTMLReport sample_dates (sample_report [falsy_beat_nulled])
  = generateHTMLReport sample_dates (sample_report [falsy_beat]).
Proof.
  assert (Hb : nullified_beat falsy_beat falsy_beat_nulled).
  { split; cbn; unfold same_text, same_num;
      first [ reflexivity | left; reflexivity | right; split; reflexivity ]. }
  assert (Hr : nullified_report (sample_report [falsy_beat])
                                (sample_report [falsy_beat_nulled])).
  { split; try reflexivity. constructor; [|constructor].
    split; try reflexivity. constructor; [exact Hb|constructor]. }
  split; [exact Hr|].
  pose proof (falsy_values_render_as_null _ _ Hr) as [Hcsv Hhtml].
  split; [exact Hcsv|exact (Hhtml sample_dates)].
Defined.

(** ** The scenarios of the specification *)

Example scenario_report :
  let report := aggregate "2024-01-02T03:04:05.000Z" scenario_rows in
  total_acts (summary report) = 2 /\
  total_beats (summary report) = 3 /\
  map act_no (acts report) = [1; 2]%Z /\
  map (fun g => map beat_number (beats g)) (acts report) = [[1; 2]; [1]]%Z /\
  map sum_beat_count (beats_per_act (summary report)) = [2; 1].
Proof. vm_compute. repeat split; reflexivity. Qed.

Example quoted_description :
  escapeCSV (Some ("He said, " ++ dq ++ "go now" ++ dq)%string)
  = (dq ++ "He said, " ++ dq ++ dq ++ "go now" ++ dq ++ dq ++ dq)%string.
Proof. vm_compute. reflexivity. Qed.

Example empty_csv : generateCSVReport empty_report = csv_header.
Proof. reflexivity. Qed.

Example empty_json :
  status (fetch sample_runtime (get_request "/api/reports/beats") sample_env)
  = 200 /\
  content_type
    (fetch sample_runtime (get_request "/api/reports/beats") sample_env)
  = Some "application/json".
Proof. vm_compute. split; reflexivity. Qed.

Example empty_html_is_document :
  is_html_document
    (fetch sample_runtime (get_request "/api/reports/beats/html") sample_env)
  = true.
Proof. vm_compute. reflexivity. Qed.

Example act_page_of_failing_source :
  status (fetch sample_runtime (get_request "/ally/act/1")
            (mkEnv (mkRowSource (Ok []) (Ok [])
                      (fun _ => Throw (mkError "Error" "D1_ERROR"))
                      (fun _ => Ok None) (fun _ _ => Ok None)) None))
  = 200.
Proof. vm_compute. reflexivity. Qed.

(** ** The dispatcher: what every request gets *)

Section Dispatch.

Lemma jsonResponse_cors (data : json) (st : nat) :
  has_cors (jsonResponse data st corsHeaders).
Proof. exists [("Content-Type", "application/json")]. reflexivity. Qed.

Lemma textResponse_cors (text : string) (st : nat) (type : string) :
  has_cors (textResponse text st type corsHeaders).
Proof. exists [("Content-Type", type)]. reflexivity. Qed.

Lemma handleReportRequest_cors rt env format :
  has_cors (handleReportRequest rt env format corsHeaders).
Proof.
  unfold handleReportRequest.
  destruct (generateBeatReport rt env format) as [out|e];
    [|apply jsonResponse_cors].
  destruct (String.eqb format "csv").
  - eexists [(_, _); (_, _)]. reflexivity.
  - destruct (String.eqb format "html"); [apply textResponse_cors|].
    destruct (String.eqb format "pdf");
      [apply textResponse_cors|apply jsonResponse_cors].
Qed.

Lemma handleReportRouting_cors rt env path method :
  has_cors (handleReportRouting rt env path method corsHeaders).
Proof.
  unfold handleReportRouting.
  repeat match goal with
         | |- context [if ?c then _ else _] => destruct c
         end;
    first [apply jsonResponse_cors | apply handleReportRequest_cors].
Qed.

(** The branch of the beat page answers with a page in every case: the
    page of the beat, the page that says it is missing, or the page of the
    failure. *)
Lemma handleBeatPage_returns rt env a b cors :
  exists data title st,
    handleBeatPage rt env a b cors
    = Ok (textResponse (generateBeatPage a b data title) st "text/html" cors) /\
    (st = 200 \/ st = 500).
Proof.
  unfold handleBeatPage. cbv zeta.
  destruct (beat_query (SCREENPLAY_DRAFT env) a b) as [[beat|]|e]; cbn [bind].
  - do 3 eexists. split; [reflexivity|now left].
  - destruct (act_query (SCREENPLAY_DRAFT env) a) as [act|e]; cbn [bind].
    + do 3 eexists. split; [reflexivity|now left].
    + do 3 eexists. split; [reflexivity|now right].
  - do 3 eexists. split; [reflexivity|now right].
Qed.

Lemma generateActBeatsPage_cors (actNumber : Z) (env : Env) :
  exists response,
    generateActBeatsPage actNumber env corsHeaders = Ok response /\
    has_cors response.
Proof.
  unfold generateActBeatsPage, generateActBeatsPage_body, call, bindE, try_,
    block, await.
  cbn [let_var declare enter_block].
  destruct (act_beats_query (SCREENPLAY_DRAFT env) actNumber) as [beats|e].
  - destruct beats as [|first rest].
    + destruct (act_query (SCREENPLAY_DRAFT env) actNumber) as [[info|]|e];
        eexists; (split; [reflexivity|apply textResponse_cors]).
    + eexists; (split; [reflexivity|apply textResponse_cors]).
  - eexists; (split; [reflexivity|apply textResponse_cors]).
Qed.

(** Every request is either answered by [handleRequest], with the CORS
    headers, or is a request for the page of all beats, which throws. *)
Lemma handleRequest_cases rt request env :
  (exists response,
     handleRequest rt request env = Ok response /\ has_cors response) \/
  (path request = "/ally/beats/all" /\
   String.eqb (method request) "OPTIONS" = false /\
   isAuthenticated request env = true /\
   handleRequest rt request env = Throw (ReferenceError "allBeatCards")).
Proof.
  unfold handleRequest. cbv zeta.
  destruct (String.eqb (method request) "OPTIONS") eqn:Em.
  { left. eexists. split; [reflexivity|]. exists []. reflexivity. }
  destruct (isAuthenticated request env) eqn:Ea; cbn [negb];
    [|left; eexists; split; [reflexivity|apply jsonResponse_cors]].
  destruct (String.eqb (path request) "/" || String.eqb (path request) "")%bool;
    [left; eexists; split; [reflexivity|apply textResponse_cors]|].
  destruct (String.eqb (path request) "/ally");
    [left; eexists; split; [reflexivity|apply textResponse_cors]|].
  destruct (String.eqb (path request) "/act/all");
    [left; eexists; split; [reflexivity|apply handleReportRequest_cors]|].
  destruct (String.eqb (path request) "/ally/beats/all") eqn:Eall.
  { right. apply String.eqb_eq in Eall.
    repeat split; auto. apply generateAllBeatsPage_throws. }
  destruct (match_act_path (path request)) as [actNumber|].
  { left. apply generateActBeatsPage_cors. }
  destruct (match_beat_path (path request)) as [[actNumber beatNumber]|].
  { left.
    destruct (handleBeatPage_returns rt env actNumber beatNumber corsHeaders)
      as (data & title & st & H & _).
    eexists. split; [exact H|apply textResponse_cors]. }
  destruct (String.eqb (path request) "/dashboard"
            || String.eqb (path request) "/report")%bool;
    [left; eexists; split; [reflexivity|apply handleReportRequest_cors]|].
  destruct (String.eqb (path request) "/api"
            || String.eqb (path request) "/api/")%bool;
    [left; eexists; split; [reflexivity|apply jsonResponse_cors]|].
  destruct (String.eqb (path request) "/health");
    [left; eexists; split; [reflexivity|apply jsonResponse_cors]|].
  destruct (starts_with "/api/reports/" (path request));
    left; eexists; (split; [reflexivity|]);
    [apply handleReportRouting_cors|apply jsonResponse_cors].
Qed.

End Dispatch.

(** X1.  [handleRequest] throws for one kind of request only: an
    authenticated request, not a preflight, for the page of all beats,
    where the error is the [ReferenceError] on [allBeatCards].  Every other
    request is answered without reaching the [catch] of [fetch], whatever
    the row source does. *)
Theorem handleRequest_throws_only_for_all_beats (rt : Runtime)
  (request : Request) (env : Env) :
  (exists response, handleRequest rt request env = Ok response) \/
  (path request = "/ally/beats/all" /\
   String.eqb (method request) "OPTIONS" = false /\
   isAuthenticated request env = true /\
   handleRequest rt request env = Throw (ReferenceError "allBeatCards")).
Proof.
  destruct (handleRequest_cases rt request env) as [(r & H & _)|H].
  - left. now exists r.
  - now right.
Qed.

(** X2.  Every response of [fetch] carries the three CORS headers after its
    own headers, except the answer with status 500 that the [catch] of
    [fetch] builds, which has the content type as its only header. *)
Theorem fetch_cors_headers (rt : Runtime) (request : Request) (env : Env) :
  has_cors (fetch rt request env) \/
  (path request = "/ally/beats/all" /\
   status (fetch rt request env) = 500 /\
   headers (fetch rt request env) = [("Content-Type", "application/json")]).
Proof.
  unfold fetch.
  destruct (handleRequest_cases rt request env) as [(r & H & Hc)|(Hp & _ & _ & H)];
    rewrite H.
  - now left.
  - right. repeat split; auto.
Qed.

(** X3.  A request without credentials that the worker accepts is answered
    with status 401 and the same JSON body, whatever its path and whatever
    the row source holds; a preflight request is answered with status 200,
    the CORS headers and no body before the credentials are looked at. *)
Theorem credentials_come_first (rt : Runtime) (request : Request) (env : Env) :
  (String.eqb (method request) "OPTIONS" = true ->
   fetch rt request env = mkResponse 200 corsHeaders None) /\
  (String.eqb (method request) "OPTIONS" = false ->
   isAuthenticated request env = false ->
   fetch rt request env = jsonResponse unauthorized 401 corsHeaders).
Proof.
  unfold fetch, handleRequest. cbv zeta. split.
  - intros ->. reflexivity.
  - intros -> ->. reflexivity.
Qed.

Section Credentials.

Lemma replace_first_absent (needle by_ s : string) :
  includes needle s = false -> replace_first needle by_ s = s.
Proof.
  induction s as [|c s IH]; intros H.
  - cbn [includes] in H. cbn [replace_first].
    now destruct (strip_prefix needle EmptyString).
  - cbn [includes] in H. cbn [replace_first].
    destruct (strip_prefix needle (String c s)); [discriminate|].
    now rewrite IH.
Qed.

End Credentials.

(** X4.  Any value of the assertion header that is not empty is accepted,
    whatever the environment; without that header and without a configured
    key nothing is accepted.  With a configured key [k]: the header
    [X-API-Key] is decisive when it is not empty, so a wrong value there
    is refused even beside a right [Authorization]; otherwise
    [Authorization] is accepted when it is [k] after its first [Bearer ]
    has been removed, be it written with that prefix or, for a key that
    does not hold the marker, without it. *)
Theorem accepted_credentials (path method k : string) (db : RowSource) :
  k <> EmptyString ->
  (forall assertion x auth key,
     assertion <> EmptyString ->
     isAuthenticated (mkRequest method path (Some assertion) x auth)
                     (mkEnv db key) = true) /\
  (forall x auth,
     isAuthenticated (key_request method path x auth) (mkEnv db None) = false) /\
  (forall auth,
     isAuthenticated (key_request method path (Some k) auth)
                     (mkEnv db (Some k)) = true) /\
  (forall x,
     x <> EmptyString -> x <> k ->
     isAuthenticated (key_request method path (Some x) (Some ("Bearer " ++ k)%string))
                     (mkEnv db (Some k)) = false) /\
  isAuthenticated (key_request method path None (Some ("Bearer " ++ k)%string))
                  (mkEnv db (Some k)) = true /\
  (includes "Bearer " k = false ->
   isAuthenticated (key_request method path None (Some k))
                   (mkEnv db (Some k)) = true) /\
  isAuthenticated (key_request method path None None) (mkEnv db (Some k))
  = false.
Proof.
  intros Hk. pose proof (truthy_str_Some k Hk) as Tk.
  unfold isAuthenticated, key_request.
  cbn [cf_access_jwt x_api_key authorization API_KEY].
  split; [|split; [|split; [|split; [|split; [|split]]]]].
  - intros assertion x auth key Ha. now rewrite (truthy_str_Some _ Ha).
  - intros x auth. reflexivity.
  - intros auth. rewrite Tk. cbn iota. rewrite Tk.
    cbn [str_text]. apply String.eqb_refl.
  - intros x Hx Hne. rewrite Tk, (truthy_str_Some x Hx). cbn iota.
    rewrite (truthy_str_Some x Hx). cbn [str_text].
    now apply String.eqb_neq.
  - rewrite Tk. cbn [truthy_str option_map]. cbn iota.
    rewrite (replace_first_here "Bearer " EmptyString k). cbn [append].
    fold (truthy_str (Some k)). rewrite Tk. cbn [str_text].
    apply String.eqb_refl.
  - intros Habs. rewrite Tk. cbn [truthy_str option_map]. cbn iota.
    rewrite (replace_first_absent _ _ _ Habs).
    fold (truthy_str (Some k)). rewrite Tk. cbn [str_text].
    apply String.eqb_refl.
  - now rewrite Tk.
Qed.

Section ReportRoutes.

(** A path under [/api/reports/] is none of the paths routed before the
    report routes. *)
Lemma report_path_not_earlier (p : string) :
  starts_with "/api/reports/" p = true ->
  (String.eqb p "/" || String.eqb p EmptyString)%bool = false /\
  String.eqb p "/ally" = false /\
  String.eqb p "/act/all" = false /\
  String.eqb p "/ally/beats/all" = false /\
  match_act_path p = None /\
  match_beat_path p = None /\
  (String.eqb p "/dashboard" || String.eqb p "/report")%bool = false /\
  (String.eqb p "/api" || String.eqb p "/api/")%bool = false /\
  String.eqb p "/health" = false.
Proof.
  unfold starts_with.
  destruct (strip_prefix "/api/reports/" p) as [rest|] eqn:E; [|discriminate].
  apply strip_prefix_Some in E. subst p. intros _.
  repeat split; reflexivity.
Qed.

End ReportRoutes.

(** X5.  Under [/api/reports/], an authenticated request with a method other
    than [GET] (and other than the preflight) is refused with status 405
    and a [GET] request for a path that is none of the four report paths
    with status 400, in both cases without a query being made: the answer
    does not depend on the row source. *)
Theorem report_routes_refusals (rt : Runtime) (request : Request) (env : Env) :
  String.eqb (method request) "OPTIONS" = false ->
  isAuthenticated request env = true ->
  starts_with "/api/reports/" (path request) = true ->
  (String.eqb (method request) "GET" = false ->
   fetch rt request env
   = jsonResponse (JObj [("error", JStr "Method not allowed")]) 405
                  corsHeaders) /\
  (String.eqb (method request) "GET" = true ->
   String.eqb (path request) "/api/reports/beats" = false ->
   String.eqb (path request) "/api/reports/beats/csv" = false ->
   String.eqb (path request) "/api/reports/beats/html" = false ->
   String.eqb (path request) "/api/reports/beats/pdf" = false ->
   fetch rt request env
   = jsonResponse (JObj [("error", JStr "Invalid report endpoint")]) 400
                  corsHeaders).
Proof.
  intros Hm Ha Hp.
  destruct (report_path_not_earlier _ Hp)
    as (H1 & H2 & H3 & H4 & H5 & H6 & H7 & H8 & H9).
  assert (Hfetch : fetch rt request env
                   = handleReportRouting rt env (path request) (method request)
                                         corsHeaders).
  { unfold fetch, handleRequest. cbv zeta.
    rewrite Hm, Ha. cbn [negb].
    now rewrite H1, H2, H3, H4, H5, H6, H7, H8, H9, Hp. }
  rewrite Hfetch. unfold handleReportRouting. split.
  - intros ->. reflexivity.
  - intros -> -> -> -> ->. reflexivity.
Qed.

Section BeatPageFailures.

Lemma beat_route_fetch rt request env a b :
  String.eqb (method request) "OPTIONS" = false ->
  isAuthenticated request env = true ->
  match_beat_path (path request) = Some (a, b) ->
  handleRequest rt request env = handleBeatPage rt env a b corsHeaders.
Proof.
  intros Hm Ha Hp.
  destruct (beat_path_not_earlier _ _ _ Hp) as (H1 & H2 & H3 & H4 & H5).
  unfold handleRequest. cbv zeta. rewrite Hm, Ha. cbn [negb].
  now rewrite H1, H2, H3, H4, H5, Hp.
Qed.

Lemma beat_page_shows_message (a b : Z) (e : JsError) (actTitle : string) :
  includes (err_message e)
           (generateBeatPage a b (error_beat_data b e) actTitle) = true.
Proof.
  apply beat_page_shows. cbn [error_beat_data bd_description].
  apply includes_app_r, includes_here.
Qed.

End BeatPageFailures.

(** X6.  When the query of the beat throws, or finds nothing and the query
    of the act then throws, the request for the page of a beat is answered
    with status 500 and an HTML document, titled with the number of the
    act, that shows the message of the error. *)
Theorem beat_page_failure (rt : Runtime) (request : Request) (env : Env)
  (a b : Z) (e : JsError) :
  String.eqb (method request) "OPTIONS" = false ->
  isAuthenticated request env = true ->
  match_beat_path (path request) = Some (a, b) ->
  beat_query (SCREENPLAY_DRAFT env) a b = Throw e \/
  (beat_query (SCREENPLAY_DRAFT env) a b = Ok None /\
   act_query (SCREENPLAY_DRAFT env) a = Throw e) ->
  let page :=
    generateBeatPage a b (error_beat_data b e) ("Act " ++ string_of_Z a) in
  fetch rt request env = textResponse page 500 "text/html" corsHeaders /\
  is_html_document (fetch rt request env) = true /\
  includes (err_message e) page = true.
Proof.
  intros Hm Ha Hp Hq. cbv zeta.
  assert (Hfetch : fetch rt request env
                   = textResponse
                       (generateBeatPage a b (error_beat_data b e)
                                         ("Act " ++ string_of_Z a))
                       500 "text/html" corsHeaders).
  { unfold fetch. rewrite (beat_route_fetch rt request env a b Hm Ha Hp).
    unfold handleBeatPage. cbv zeta.
    destruct Hq as [Hq|[Hq1 Hq2]].
    - rewrite Hq. reflexivity.
    - rewrite Hq1. cbn [bind]. rewrite Hq2. reflexivity. }
  rewrite Hfetch. split; [reflexivity|].
  split; [apply beat_page_is_document|apply beat_page_shows_message].
Qed.

(** X7.  When the row source has neither the beat nor the act, the page of
    the beat is still answered with status 200: the document says that the
    beat was not found in the act named by its number. *)
Theorem beat_page_without_act (rt : Runtime) (request : Request) (env : Env)
  (a b : Z) :
  String.eqb (method request) "OPTIONS" = false ->
  isAuthenticated request env = true ->
  match_beat_path (path request) = Some (a, b) ->
  beat_query (SCREENPLAY_DRAFT env) a b = Ok None ->
  act_query (SCREENPLAY_DRAFT env) a = Ok None ->
  let title := ("Act " ++ string_of_Z a)%string in
  let page := generateBeatPage a b (missing_beat_data b title) title in
  fetch rt request env = textResponse page 200 "text/html" corsHeaders /\
  includes ("Beat " ++ string_of_Z b ++ " was not found in Act "
            ++ string_of_Z a ++ ".") page = true.
Proof.
  intros Hm Ha Hp Hb Hact. cbv zeta. split.
  - unfold fetch. rewrite (beat_route_fetch rt request env a b Hm Ha Hp).
    unfold handleBeatPage. cbv zeta. rewrite Hb. cbn [bind]. rewrite Hact.
    reflexivity.
  - apply beat_page_shows. cbn [missing_beat_data bd_description].
    replace ("Beat " ++ string_of_Z b ++ " was not found in "
             ++ ("Act " ++ string_of_Z a)
             ++ ". This beat may not exist yet or may have been removed.")%string
      with (("Beat " ++ string_of_Z b ++ " was not found in Act "
             ++ string_of_Z a ++ ".")
            ++ " This beat may not exist yet or may have been removed.")%string
      by (now rewrite !append_assoc).
    apply includes_here.
Qed.

Section ActPage.

Lemma act_page_is_document n title cards cors st :
  is_html_document
    (textResponse (act_beats_html n title cards) st "text/html" cors) = true.
Proof.
  unfold is_html_document, content_type, textResponse.
  cbn [headers body header String.eqb Ascii.eqb Bool.eqb andb].
  assert (Hend : ends_with "</html>" (act_beats_html n title cards) = true).
  { unfold act_beats_html. repeat apply ends_with_app_r.
    vm_compute. reflexivity. }
  rewrite Hend. reflexivity.
Qed.

End ActPage.

(** X8.  The page of an act is answered with status 200 and an HTML
    document for every behaviour of the row source.  When a query throws,
    the document carries the card of the database error under the title
    made of the number of the act, and nothing of the error itself; when
    the act has no beat, the title is that of the act if the row source
    has the act and its number otherwise; when it has beats, the title is
    the one in the first row. *)
Theorem act_page_always_answers (n : Z) (env : Env)
  (cors : list (string * string)) :
  let db := SCREENPLAY_DRAFT env in
  let default := ("Act " ++ string_of_Z n)%string in
  let page title cards :=
    textResponse (act_beats_html n title cards) 200 "text/html" cors in
  (exists title cards,
     generateActBeatsPage n env cors = Ok (page title cards) /\
     is_html_document (page title cards) = true) /\
  (forall e,
     act_beats_query db n = Throw e \/
     (act_beats_query db n = Ok [] /\ act_query db n = Throw e) ->
     generateActBeatsPage n env cors
     = Ok (page default (act_error_card default))) /\
  (forall info,
     act_beats_query db n = Ok [] -> act_query db n = Ok (Some info) ->
     generateActBeatsPage n env cors
     = Ok (page (act_row_title info) (act_no_beats (act_row_title info)))) /\
  (act_beats_query db n = Ok [] -> act_query db n = Ok None ->
   generateActBeatsPage n env cors = Ok (page default (act_no_beats default))) /\
  (forall first rest,
     act_beats_query db n = Ok (first :: rest) ->
     generateActBeatsPage n env cors
     = Ok (page (ab_act_title first)
             (concat_all (map (act_beat_card n (ab_act_title first))
                              (first :: rest))))).
Proof.
  cbv zeta.
  unfold generateActBeatsPage, generateActBeatsPage_body, call, bindE, try_,
    block, await.
  cbn [let_var declare enter_block].
  split; [|split; [|split; [|split]]].
  - destruct (act_beats_query (SCREENPLAY_DRAFT env) n) as [[|first rest]|e].
    + destruct (act_query (SCREENPLAY_DRAFT env) n) as [[info|]|e];
        do 2 eexists; (split; [reflexivity|apply act_page_is_document]).
    + do 2 eexists; (split; [reflexivity|apply act_page_is_document]).
    + do 2 eexists; (split; [reflexivity|apply act_page_is_document]).
  - intros e [H|[H1 H2]].
    + rewrite H. reflexivity.
    + rewrite H1, H2. reflexivity.
  - intros info H1 H2. rewrite H1, H2. reflexivity.
  - intros H1 H2. rewrite H1, H2. reflexivity.
  - intros first rest H. rewrite H. reflexivity.
Qed.

(** ** The links of the pages and the routes *)

Section DecimalParsing.

Lemma parseInt_parse_digits (s : string) : parseInt s = parse_digits 0 s.
Proof. reflexivity. Qed.

Lemma parse_digits_acc (d : uint) : forall acc : positive,
  parse_digits (Z.pos acc) (NilEmpty.string_of_uint d)
  = Z.pos (Pos.of_uint_acc d acc).
Proof.
  induction d; intros acc; cbn [NilEmpty.string_of_uint parse_digits];
    [reflexivity | ..];
    (etransitivity; [|apply IHd]); f_equal;
    match goal with
    | |- context [Z.of_nat ?n] =>
        let v := eval vm_compute in (Z.of_nat n) in
        change (Z.of_nat n) with v
    end; lia.
Qed.

Lemma parse_digits_uint (d : uint) :
  parse_digits 0 (NilEmpty.string_of_uint d) = Z.of_uint d.
Proof.
  induction d; cbn [NilEmpty.string_of_uint parse_digits];
    [reflexivity | exact IHd | ..];
    (etransitivity; [|apply parse_digits_acc]); reflexivity.
Qed.

Lemma parse_digits_nz_uint (d : uint) :
  parse_digits 0 (NilZero.string_of_uint d) = Z.of_uint d.
Proof.
  destruct d; try apply parse_digits_uint. reflexivity.
Qed.

(** Reading back the decimal text of a natural number gives the number. *)
Lemma parseInt_string_of_Z (z : Z) :
  (0 <= z)%Z -> parseInt (string_of_Z z) = z.
Proof.
  intros Hz. rewrite parseInt_parse_digits. unfold string_of_Z.
  rewrite <- (DecimalZ.of_to z) at 2.
  destruct z as [|p|p]; [reflexivity| |lia].
  cbn [Z.to_int NilZero.string_of_int Z.of_int].
  apply parse_digits_nz_uint.
Qed.

Lemma span_digits_uint (d : uint) (rest : string) :
  no_digit_ahead rest = true ->
  span_digits (NilEmpty.string_of_uint d ++ rest)
  = (NilEmpty.string_of_uint d, rest).
Proof.
  intros H. induction d; cbn [NilEmpty.string_of_uint append span_digits];
    [| cbn [is_digit]; cbn; rewrite IHd; reflexivity ..].
  destruct rest as [|c rest]; [reflexivity|].
  cbn [no_digit_ahead] in H. cbn [span_digits].
  apply negb_true_iff in H. now rewrite H.
Qed.

Lemma span_digits_nz_uint (d : uint) (rest : string) :
  no_digit_ahead rest = true ->
  span_digits (NilZero.string_of_uint d ++ rest)
  = (NilZero.string_of_uint d, rest).
Proof.
  intros H. destruct d; try apply (span_digits_uint _ _ H).
  change (NilZero.string_of_uint Nil) with (NilEmpty.string_of_uint (D0 Nil)).
  apply (span_digits_uint _ _ H).
Qed.

Lemma span_digits_Z (z : Z) (rest : string) :
  (0 <= z)%Z -> no_digit_ahead rest = true ->
  span_digits (string_of_Z z ++ rest) = (string_of_Z z, rest).
Proof.
  intros Hz H. unfold string_of_Z.
  destruct z as [|p|p]; [| |lia]; cbn [Z.to_int NilZero.string_of_int];
    apply (span_digits_nz_uint _ _ H).
Qed.

Lemma nonempty_string_of_Z (z : Z) : nonempty (string_of_Z z) = true.
Proof.
  unfold string_of_Z.
  destruct (Z.to_int z) as [d|d]; cbn [NilZero.string_of_int];
    [|reflexivity].
  destruct d; reflexivity.
Qed.

Lemma span_digits_negative (z : Z) (rest : string) :
  (z < 0)%Z ->
  span_digits (string_of_Z z ++ rest) = (EmptyString, (string_of_Z z ++ rest)%string).
Proof.
  intros Hz. destruct z as [|p|p]; [lia|lia|]. reflexivity.
Qed.

Lemma match_beat_path_links (a b : Z) :
  (0 <= a)%Z -> (0 <= b)%Z -> match_beat_path (beat_path a b) = Some (a, b).
Proof.
  intros Ha Hb. unfold match_beat_path, beat_path.
  rewrite strip_prefix_app.
  rewrite (span_digits_Z a ("/beat/" ++ string_of_Z b) Ha eq_refl).
  rewrite strip_prefix_app.
  rewrite <- (append_nil_r (string_of_Z b)) at 1.
  rewrite (span_digits_Z b EmptyString Hb eq_refl).
  rewrite !nonempty_string_of_Z. cbn [andb String.eqb].
  now rewrite !parseInt_string_of_Z.
Qed.

Lemma match_act_path_links (a : Z) :
  (0 <= a)%Z -> match_act_path (act_path a) = Some a.
Proof.
  intros Ha. unfold match_act_path, act_path.
  rewrite strip_prefix_app.
  rewrite <- (append_nil_r (string_of_Z a)) at 1.
  rewrite (span_digits_Z a EmptyString Ha eq_refl).
  rewrite nonempty_string_of_Z. cbn [andb String.eqb].
  now rewrite parseInt_string_of_Z.
Qed.

(** A path of the act page is none of the paths routed before it. *)
Lemma act_path_not_earlier (p : string) (a : Z) :
  match_act_path p = Some a ->
  (String.eqb p "/" || String.eqb p EmptyString)%bool = false /\
  String.eqb p "/ally" = false /\
  String.eqb p "/act/all" = false /\
  String.eqb p "/ally/beats/all" = false.
Proof.
  unfold match_act_path.
  destruct (strip_prefix "/ally/act/" p) as [rest|] eqn:E; [|discriminate].
  apply strip_prefix_Some in E. subst p. intros _.
  repeat split; reflexivity.
Qed.

Lemma includes_prefix_eq (needle hay rest : string) :
  hay = (needle ++ rest)%string -> includes needle hay = true.
Proof. intros ->. apply includes_here. Qed.

End DecimalParsing.

Section Links.

Ltac find_link :=
  repeat first
    [ solve [ eapply includes_prefix_eq; unfold beat_path, act_path;
              rewrite ?append_assoc; reflexivity ]
    | apply includes_app_r ].

Lemma beat_page_links (a b : Z) (data : BeatData) (title : string) :
  includes (dq ++ act_path a ++ dq) (generateBeatPage a b data title) = true /\
  includes (dq ++ beat_path a (b - 1) ++ dq) (generateBeatPage a b data title)
  = true /\
  includes (dq ++ beat_path a (b + 1) ++ dq) (generateBeatPage a b data title)
  = true.
Proof.
  unfold generateBeatPage. split; [|split]; find_link.
Qed.

Lemma act_card_link (a : Z) (title : string) (beat : ActBeatRow) :
  includes (dq ++ beat_path a (ab_beat_number beat) ++ dq)
           (act_beat_card a title beat) = true.
Proof. unfold act_beat_card. find_link. Qed.

Lemma negative_beat_path_unmatched (a b : Z) :
  (b < 0)%Z ->
  match_act_path (beat_path a b) = None /\
  match_beat_path (beat_path a b) = None.
Proof.
  intros Hb. unfold match_act_path, match_beat_path, beat_path.
  rewrite strip_prefix_app.
  destruct (Z.lt_ge_cases a 0) as [Ha|Ha].
  - rewrite (span_digits_negative a _ Ha). split; [reflexivity|].
    destruct a as [|p|p]; [lia|lia|]. reflexivity.
  - rewrite (span_digits_Z a ("/beat/" ++ string_of_Z b) Ha eq_refl).
    rewrite nonempty_string_of_Z. split; [reflexivity|].
    rewrite strip_prefix_app.
    rewrite <- (append_nil_r (string_of_Z b)) at 1.
    rewrite (span_digits_negative b _ Hb). reflexivity.
Qed.

End Links.

Lemma act_route_fetch rt env a :
  match_act_path (act_path a) = Some a ->
  handleRequest rt (get_request (act_path a)) env
  = generateActBeatsPage a env corsHeaders.
Proof.
  intros Hact.
  destruct (act_path_not_earlier _ _ Hact) as (H1 & H2 & H3 & H4).
  unfold handleRequest. cbv zeta.
  cbn [get_request path method cf_access_jwt isAuthenticated truthy_str
       negb].
  change (String.eqb "GET" "OPTIONS") with false. cbv iota.
  change (negb (String.eqb "assertion" EmptyString)) with true. cbv iota.
  cbn [negb]. cbv iota.
  now rewrite H1, H2, H3, H4, Hact.
Qed.

(** The path written for beat [k] of act [a] is routed to the page of that
    beat. *)
Lemma beat_link_routed rt env a k :
  (0 <= a)%Z -> (0 <= k)%Z ->
  handleRequest rt (get_request (beat_path a k)) env
  = handleBeatPage rt env a k corsHeaders.
Proof.
  intros Ha Hk. apply beat_route_fetch; [reflexivity|reflexivity|].
  now apply match_beat_path_links.
Qed.

(** X9.  The links that the pages write lead back to the pages.  For an act
    number and a beat number that are natural numbers and safe integers
    (where the text written for a number and the number parsed from it are
    exact, also for the beat after), the path [/ally/act/a/beat/b] is
    matched by the route of the beat page, which parses [(a, b)] from it,
    and is routed to the page of beat [b] of act [a].  That page writes the
    link back to [/ally/act/a], which is routed to the page of act [a]; the
    link to the next beat, which is routed to the page of beat [b + 1];
    and the link to the previous beat, which is routed to the page of beat
    [b - 1] when [b] is at least 1.  The card of a beat on the page of the
    act writes the link to the page of its beat, which is routed there
    when the beat number of the card is a natural number and a safe
    integer. *)
Theorem page_links_are_routed (rt : Runtime) (env : Env) (a b : Z)
  (data : BeatData) (title : string) (beat : ActBeatRow) :
  (0 <= a <= max_safe_integer)%Z -> (0 <= b < max_safe_integer)%Z ->
  let page := generateBeatPage a b data title in
  let routed k :=
    handleRequest rt (get_request (beat_path a k)) env
    = handleBeatPage rt env a k corsHeaders in
  match_beat_path (beat_path a b) = Some (a, b) /\
  routed b /\
  includes (dq ++ act_path a ++ dq) page = true /\
  match_act_path (act_path a) = Some a /\
  handleRequest rt (get_request (act_path a)) env
  = generateActBeatsPage a env corsHeaders /\
  includes (dq ++ beat_path a (b + 1) ++ dq) page = true /\
  routed (b + 1)%Z /\
  includes (dq ++ beat_path a (b - 1) ++ dq) page = true /\
  ((1 <= b)%Z -> routed (b - 1)%Z) /\
  ((0 <= ab_beat_number beat <= max_safe_integer)%Z ->
   includes (dq ++ beat_path a (ab_beat_number beat) ++ dq)
            (act_beat_card a title beat) = true /\
   routed (ab_beat_number beat)).
Proof.
  intros [Ha _] [Hb _]. cbv zeta.
  pose proof (match_beat_path_links a b Ha Hb) as Hbeat.
  pose proof (match_act_path_links a Ha) as Hact.
  destruct (beat_page_links a b data title) as (L1 & L2 & L3).
  split; [exact Hbeat|]. split; [now apply beat_link_routed|].
  split; [exact L1|]. split; [exact Hact|].
  split; [now apply act_route_fetch|].
  split; [exact L3|]. split; [apply beat_link_routed; lia|].
  split; [exact L2|]. split.
  - intros Hb1. apply beat_link_routed; lia.
  - intros [Hk _]. split; [apply act_card_link|now apply beat_link_routed].
Qed.

(** X10.  A beat number below zero gives a link that no route takes: the
    path written for it is answered with status 404.  The link to the
    previous beat on the page of beat 0 is such a link. *)
Theorem negative_beat_link_not_found (rt : Runtime) (env : Env) (a b : Z) :
  (b < 0)%Z ->
  fetch rt (get_request (beat_path a b)) env
  = jsonResponse not_found 404 corsHeaders.
Proof.
  intros Hb. destruct (negative_beat_path_unmatched a b Hb) as [Hact Hbeat].
  unfold fetch, handleRequest. cbv zeta.
  cbn [get_request path method cf_access_jwt isAuthenticated truthy_str].
  change (String.eqb "GET" "OPTIONS") with false. cbv iota.
  change (negb (String.eqb "assertion" EmptyString)) with true.
  cbn [negb]. cbv iota.
  rewrite Hact, Hbeat. reflexivity.
Qed.

(** ** The aggregator as a grouping, for rows in any order *)

Section FirstSeen.

Lemma first_seen_In (a : Z) (l : list Z) : In a (first_seen l) <-> In a l.
Proof.
  induction l as [|x l IH]; [reflexivity|].
  cbn [first_seen In]. rewrite filter_In, IH.
  destruct (Z.eq_dec x a) as [->|Hne].
  - tauto.
  - split; [tauto|]. intros [H|H]; [contradiction|].
    right. split; [exact H|]. apply negb_true_iff, Z.eqb_neq. congruence.
Qed.

Lemma first_seen_NoDup (l : list Z) : NoDup (first_seen l).
Proof.
  induction l as [|x l IH]; cbn [first_seen]; constructor.
  - rewrite filter_In. intros [_ H].
    rewrite Z.eqb_refl in H. discriminate.
  - now apply NoDup_filter.
Qed.

Lemma filter_ne_absent (x : Z) (l : list Z) :
  ~ In x l -> filter (fun y => negb (Z.eqb y x)) l = l.
Proof.
  induction l as [|y l IH]; intros H; [reflexivity|].
  cbn [filter]. destruct (Z.eqb_spec y x) as [->|Hne].
  - exfalso. apply H. now left.
  - cbn [negb]. f_equal. apply IH. intros Hin. apply H. now right.
Qed.

(** The effect of one more number at the end. *)
Lemma first_seen_snoc (l : list Z) (x : Z) :
  first_seen (l ++ [x])
  = if existsb (Z.eqb x) l then first_seen l else first_seen l ++ [x].
Proof.
  induction l as [|y l IH]; [reflexivity|].
  rewrite <- app_comm_cons. cbn [first_seen existsb]. rewrite IH.
  destruct (Z.eqb_spec x y) as [->|Hne]; cbn [orb].
  - destruct (existsb (Z.eqb y) l); [reflexivity|].
    rewrite filter_app. cbn [filter]. rewrite Z.eqb_refl. cbn [negb].
    now rewrite app_nil_r.
  - destruct (existsb (Z.eqb x) l); [reflexivity|].
    rewrite filter_app. cbn [filter].
    destruct (Z.eqb_spec x y); [contradiction|]. reflexivity.
Qed.

Lemma first_seen_snoc_new (x : Z) (l : list Z) :
  existsb (Z.eqb x) l = false -> first_seen (l ++ [x]) = first_seen l ++ [x].
Proof. intros H. now rewrite first_seen_snoc, H. Qed.

Lemma existsb_act (a : Z) (l : list Z) :
  existsb (Z.eqb a) l = true <-> In a l.
Proof.
  rewrite existsb_exists. split.
  - intros (x & Hin & H). apply Z.eqb_eq in H. now subst.
  - intros H. exists a. split; [exact H|apply Z.eqb_refl].
Qed.

End FirstSeen.

Section GroupBy.

Lemma filter_in_act_nonempty (a : Z) (rows : list BeatRow) :
  In a (map row_act_no rows) ->
  exists r rest, filter (in_act a) rows = r :: rest.
Proof.
  intros H. apply in_map_iff in H. destruct H as (r & Ha & Hin).
  assert (Hf : In r (filter (in_act a) rows)).
  { apply filter_In. split; [exact Hin|]. unfold in_act. now apply Z.eqb_eq. }
  destruct (filter (in_act a) rows) as [|r0 rest]; [destruct Hf|].
  now exists r0, rest.
Qed.

Lemma filter_in_act_absent (a : Z) (rows : list BeatRow) :
  ~ In a (map row_act_no rows) -> filter (in_act a) rows = [].
Proof.
  intros H. induction rows as [|r rows IH]; [reflexivity|].
  cbn [filter]. unfold in_act at 1.
  destruct (Z.eqb_spec (row_act_no r) a) as [E|E].
  - exfalso. apply H. left. exact E.
  - apply IH. intros Hin. apply H. now right.
Qed.

(** The group of an act after one more row of that act. *)
Lemma group_of_push (a : Z) (seen : list BeatRow) (r : BeatRow) :
  In a (map row_act_no seen) -> row_act_no r = a ->
  incr_count (push_beat (beatView r) (group_of a (filter (in_act a) seen)))
  = group_of a (filter (in_act a) (seen ++ [r])).
Proof.
  intros Hin Hr. rewrite filter_app. cbn [filter]. unfold in_act at 3.
  rewrite Hr, Z.eqb_refl.
  destruct (filter_in_act_nonempty a seen Hin) as (r0 & rest & E). rewrite E.
  unfold group_of, incr_count, push_beat.
  cbn [act_no act_id act_title beats beat_count app].
  rewrite map_app, length_app. cbn [map List.length].
  f_equal. lia.
Qed.

Lemma group_of_other (a : Z) (seen : list BeatRow) (r : BeatRow) :
  row_act_no r <> a ->
  group_of a (filter (in_act a) (seen ++ [r]))
  = group_of a (filter (in_act a) seen).
Proof.
  intros Hr. rewrite filter_app. cbn [filter]. unfold in_act at 2.
  destruct (Z.eqb_spec (row_act_no r) a); [contradiction|].
  now rewrite app_nil_r.
Qed.

(** With keys made of the act numbers and one group for each number, an
    update under the key of [a] rewrites the group of [a] and no other. *)
Lemma store_update_by_act (a : Z) (f : ActGroup -> ActGroup) (st : Store) :
  Forall (fun kg => fst kg = actKey (act_no (snd kg))) st ->
  NoDup (map act_no (values st)) ->
  values (store_update (actKey a) f st)
  = map (fun g => if Z.eqb (act_no g) a then f g else g) (values st).
Proof.
  induction st as [|[k g] st IH]; intros Hk Hn; [reflexivity|].
  inversion Hk as [|? ? Hkg Hk']; subst. cbn [fst snd] in Hkg.
  cbn [values map snd] in Hn. inversion Hn as [|? ? Hnotin Hn']; subst.
  cbn [store_update].
  destruct (String.eqb (actKey (act_no g)) (actKey a)) eqn:E.
  - apply String.eqb_eq, actKey_inj in E. subst a.
    cbn [values map snd]. rewrite Z.eqb_refl. f_equal.
    fold (values st). symmetry.
    rewrite <- (map_id (values st)) at 2. apply map_ext_in.
    intros g' Hin. destruct (Z.eqb_spec (act_no g') (act_no g)) as [E|E];
      [|reflexivity].
    exfalso. apply Hnotin. rewrite <- E. now apply in_map.
  - cbn [values map snd].
    destruct (Z.eqb_spec (act_no g) a) as [Ea|Hne].
    + rewrite Ea, String.eqb_refl in E. discriminate.
    + f_equal. now apply IH.
Qed.

Lemma store_update_keys k f st :
  (forall g, act_no (f g) = act_no g) ->
  Forall (fun kg => fst kg = actKey (act_no (snd kg))) st ->
  Forall (fun kg => fst kg = actKey (act_no (snd kg))) (store_update k f st).
Proof.
  intros Hf. induction 1 as [|[k' g] st Hkg Hk IH]; [constructor|].
  cbn [store_update]. destruct (String.eqb k' k); constructor; auto.
  cbn [fst snd] in *. now rewrite Hf.
Qed.

Lemma store_get_by_act (a : Z) (st : Store) :
  Forall (fun kg => fst kg = actKey (act_no (snd kg))) st ->
  (store_get (actKey a) st = None <-> ~ In a (map act_no (values st))).
Proof.
  induction 1 as [|[k g] st Hkg Hk IH]; [cbn; tauto|].
  cbn [fst snd] in Hkg. subst k. cbn [store_get values map snd In].
  destruct (String.eqb (actKey (act_no g)) (actKey a)) eqn:E.
  - apply String.eqb_eq, actKey_inj in E. split; [discriminate|].
    intros H. exfalso. apply H. now left.
  - rewrite IH. fold (values st). split.
    + intros H [Hg|Hin]; [|now apply H].
      subst a. rewrite String.eqb_refl in E. discriminate.
    + intros H Hin. apply H. now right.
Qed.

(** The loop invariant: after the rows [seen], [reportData] holds the
    grouping of [seen] under the keys of the act numbers. *)
Lemma step_group_by (seen : list BeatRow) (st : Store) (n : nat) (r : BeatRow) :
  Forall (fun kg => fst kg = actKey (act_no (snd kg))) st ->
  values st = group_by_act seen ->
  Forall (fun kg => fst kg = actKey (act_no (snd kg))) (fst (step (st, n) r)) /\
  values (fst (step (st, n) r)) = group_by_act (seen ++ [r]).
Proof.
  intros Hk Hv.
  assert (Hnos : map act_no (values st) = first_seen (map row_act_no seen)).
  { rewrite Hv. unfold group_by_act. rewrite map_map. cbn [group_of act_no].
    apply map_id. }
  assert (Hpres : forall g, act_no (push_beat (beatView r) g) = act_no g)
    by reflexivity.
  assert (Hpres' : forall g, act_no (incr_count g) = act_no g) by reflexivity.
  set (a := row_act_no r).
  assert (Hcase : forall st',
             Forall (fun kg => fst kg = actKey (act_no (snd kg))) st' ->
             NoDup (map act_no (values st')) ->
             values (store_update (actKey a) incr_count
                       (store_update (actKey a) (push_beat (beatView r)) st'))
             = map (fun g => if Z.eqb (act_no g) a
                             then incr_count (push_beat (beatView r) g) else g)
                   (values st')).
  { intros st' Hk' Hn'.
    rewrite (store_update_by_act a incr_count);
      [|now apply store_update_keys|].
    - rewrite (store_update_by_act a _ st' Hk' Hn'). rewrite map_map.
      apply map_ext. intros g.
      destruct (Z.eqb_spec (act_no g) a) as [E|E].
      + cbn [push_beat act_no]. rewrite E, Z.eqb_refl. reflexivity.
      + destruct (Z.eqb_spec (act_no g) a); [contradiction|reflexivity].
    - rewrite (store_update_by_act a _ st' Hk' Hn'). rewrite map_map.
      erewrite map_ext; [exact Hn'|].
      intros g. now destruct (Z.eqb (act_no g) a). }
  unfold step. cbn [fst]. fold a.
  unfold group_by_act. rewrite map_app. cbn [map]. fold a.
  rewrite first_seen_snoc.
  destruct (store_get (actKey a) st) as [g0|] eqn:Eget.
  - (* the act has a group *)
    assert (Hin : In a (map row_act_no seen)).
    { apply first_seen_In. rewrite <- Hnos.
      destruct (in_dec Z.eq_dec a (map act_no (values st))) as [H|H];
        [exact H|].
      apply (store_get_by_act a st Hk) in H. congruence. }
    assert (Hex : existsb (Z.eqb a) (map row_act_no seen) = true)
      by now apply existsb_act.
    rewrite Hex. split.
    + now apply store_update_keys; [|apply store_update_keys].
    + rewrite (Hcase st Hk); [|rewrite Hnos; apply first_seen_NoDup].
      rewrite Hv. unfold group_by_act. rewrite map_map.
      apply map_ext_in. intros a' Ha'. cbn [group_of act_no].
      destruct (Z.eqb_spec a' a) as [->|Hne].
      * apply group_of_push; [exact Hin|reflexivity].
      * symmetry. apply group_of_other. fold a. congruence.
  - (* the act is new *)
    assert (Hnotin : ~ In a (map row_act_no seen)).
    { rewrite <- first_seen_In, <- Hnos.
      now apply (store_get_by_act a st Hk). }
    assert (Hex : existsb (Z.eqb a) (map row_act_no seen) = false).
    { destruct (existsb (Z.eqb a) (map row_act_no seen)) eqn:E;
        [|reflexivity].
      apply existsb_act in E. contradiction. }
    rewrite Hex.
    assert (Hk1 : Forall (fun kg => fst kg = actKey (act_no (snd kg)))
                         (st ++ [(actKey a, newGroup r)])).
    { apply Forall_app. split; [exact Hk|].
      constructor; [reflexivity|constructor]. }
    assert (Hn1 : NoDup (map act_no (values (st ++ [(actKey a, newGroup r)])))).
    { rewrite values_app, map_app, Hnos. cbn [values map snd newGroup act_no].
      fold a. rewrite <- (first_seen_snoc_new a); [apply first_seen_NoDup|].
      exact Hex. }
    split.
    + now apply store_update_keys; [|apply store_update_keys].
    + rewrite (Hcase _ Hk1 Hn1). rewrite values_app, map_app, Hv.
      unfold group_by_act. rewrite !map_map, map_app. f_equal.
      * apply map_ext_in. intros a' Ha'. cbn [group_of act_no].
        assert (Hne : a' <> a).
        { intros ->. apply Hnotin. now apply first_seen_In. }
        destruct (Z.eqb_spec a' a); [contradiction|].
        symmetry. apply group_of_other. fold a. congruence.
      * cbn [values map snd newGroup act_no]. fold a. rewrite Z.eqb_refl.
        rewrite filter_app, (filter_in_act_absent a seen Hnotin).
        cbn [filter app]. unfold in_act. fold a. rewrite Z.eqb_refl.
        reflexivity.
Qed.

End GroupBy.

Section GroupByFold.

Lemma fold_step_group_by (rows : list BeatRow) : forall seen acc,
  Forall (fun kg => fst kg = actKey (act_no (snd kg))) (fst acc) ->
  values (fst acc) = group_by_act seen ->
  values (fst (fold_left step rows acc)) = group_by_act (seen ++ rows).
Proof.
  induction rows as [|r rows IH]; intros seen acc Hk Hv.
  - cbn [fold_left]. now rewrite app_nil_r.
  - cbn [fold_left]. destruct acc as [st n]. cbn [fst] in Hk, Hv.
    destruct (step_group_by seen st n r Hk Hv) as [Hk' Hv'].
    replace (seen ++ r :: rows) with ((seen ++ [r]) ++ rows)
      by (rewrite <- app_assoc; reflexivity).
    now apply IH.
Qed.

Lemma group_rows_group_by (rows : list BeatRow) :
  values (fst (group_rows rows)) = group_by_act rows.
Proof.
  unfold group_rows.
  apply (fold_step_group_by rows [] ([], 0)); [constructor|reflexivity].
Qed.

Lemma group_by_act_numbers (rows : list BeatRow) :
  map act_no (group_by_act rows) = first_seen (map row_act_no rows).
Proof.
  unfold group_by_act. rewrite map_map. cbn [group_of act_no]. apply map_id.
Qed.

End GroupByFold.

(** X11.  For rows in any order, the acts of the report are the grouping of
    the rows by act number: one group for each number, in the order in which
    the numbers first occur among the rows; the group has the identifier and
    the title of the first row of its act, the beats of all rows of the act
    in the order of the rows, and their number as its count.  No two groups
    have the same act number and no group is without beats. *)
Theorem aggregate_groups_by_act (now_iso : string) (rows : list BeatRow) :
  let report := aggregate now_iso rows in
  acts report = group_by_act rows /\
  NoDup (map act_no (acts report)) /\
  Forall (fun g => beats g <> []) (acts report).
Proof.
  assert (E : acts (aggregate now_iso rows) = group_by_act rows).
  { unfold aggregate. pose proof (group_rows_group_by rows) as H.
    destruct (group_rows rows) as [st n]. exact H. }
  cbv zeta. rewrite E. split; [reflexivity|]. split.
  - rewrite group_by_act_numbers. apply first_seen_NoDup.
  - unfold group_by_act. apply Forall_forall. intros g Hg.
    apply in_map_iff in Hg. destruct Hg as (a & <- & Ha).
    apply (proj1 (first_seen_In _ _)) in Ha.
    destruct (filter_in_act_nonempty a rows Ha) as (r & rest & Ef).
    rewrite Ef. cbn [group_of beats map]. discriminate.
Qed.

(** ** The CSV document keeps the order of the query *)

Section CsvOrder.

Lemma fold_append_lines {A} (f : A -> string) (l : list A) (acc : string) :
  fold_left (fun acc x => (acc ++ f x)%string) l acc
  = (acc ++ concat_all (map f l))%string.
Proof.
  revert acc. induction l as [|x l IH]; intros acc; cbn [fold_left map].
  - cbn. now rewrite append_nil_r.
  - rewrite IH. cbn [concat_all fold_right]. now rewrite append_assoc.
Qed.

Lemma concat_all_app (l1 l2 : list string) :
  concat_all (l1 ++ l2) = (concat_all l1 ++ concat_all l2)%string.
Proof.
  induction l1 as [|x l1 IH]; [reflexivity|].
  rewrite <- app_comm_cons. unfold concat_all in *. cbn [fold_right].
  now rewrite IH, append_assoc.
Qed.

(** The document is the header followed by the lines of the beats, act by
    act. *)
Lemma generateCSVReport_lines (report : Report) :
  generateCSVReport report
  = (csv_header
     ++ concat_all (flat_map (fun act => map (csv_line act) (beats act))
                             (acts report)))%string.
Proof.
  unfold generateCSVReport. generalize csv_header as acc.
  induction (acts report) as [|act l IH]; intros acc; cbn [fold_left flat_map].
  - cbn. now rewrite append_nil_r.
  - rewrite IH. unfold csv_act. rewrite fold_append_lines.
    now rewrite concat_all_app, append_assoc.
Qed.

Lemma flat_map_ext_on {A B} (f g : A -> list B) (l : list A) :
  (forall a, In a l -> f a = g a) -> flat_map f l = flat_map g l.
Proof.
  induction l as [|x l IH]; intros H; [reflexivity|].
  cbn [flat_map]. rewrite (H x) by now left.
  rewrite IH; [reflexivity|]. intros a Ha. apply H. now right.
Qed.

Lemma flat_map_map_filter (f : BeatRow -> string) (rows : list BeatRow)
      (nos : list Z) :
  flat_map (fun a => map f (filter (in_act a) rows)) nos
  = map f (flat_map (fun a => filter (in_act a) rows) nos).
Proof.
  induction nos as [|a nos IH]; [reflexivity|].
  cbn [flat_map]. now rewrite map_app, IH.
Qed.

Lemma filter_ne_twice (k : Z) (l : list Z) :
  filter (fun y => negb (Z.eqb y k)) (filter (fun y => negb (Z.eqb y k)) l)
  = filter (fun y => negb (Z.eqb y k)) l.
Proof.
  induction l as [|y l IH]; [reflexivity|].
  cbn [filter]. destruct (negb (Z.eqb y k)) eqn:E; [|exact IH].
  cbn [filter]. now rewrite E, IH.
Qed.

(** In rows sorted by act number, the rows of the first act stand first. *)
Lemma regroup_head (k : Z) (rest : list BeatRow) :
  StronglySorted act_le rest ->
  Forall (fun r => (k <= row_act_no r)%Z) rest ->
  flat_map (fun a => filter (in_act a) rest) (first_seen (map row_act_no rest))
  = filter (in_act k) rest
    ++ flat_map (fun a => filter (in_act a) rest)
         (filter (fun y => negb (Z.eqb y k)) (first_seen (map row_act_no rest))).
Proof.
  intros Hs Hk. destruct rest as [|r' rest']; [reflexivity|].
  destruct (Z.eq_dec (row_act_no r') k) as [E|E].
  - cbn [map first_seen]. rewrite E. cbn [filter].
    rewrite Z.eqb_refl. cbn [negb]. rewrite filter_ne_twice.
    cbn [flat_map]. reflexivity.
  - assert (Habs : ~ In k (map row_act_no (r' :: rest'))).
    { intros Hin. apply in_map_iff in Hin. destruct Hin as (r & Hr & Hin).
      inversion Hs as [|? ? Hs' Hall]; subst.
      inversion Hk as [|? ? Hk1 Hk']; subst.
      destruct Hin as [->|Hin]; [now apply E|].
      rewrite Forall_forall in Hall. specialize (Hall r Hin).
      unfold act_le in Hall. lia. }
    rewrite (filter_in_act_absent k _ Habs).
    rewrite filter_ne_absent; [reflexivity|].
    now rewrite first_seen_In.
Qed.

(** Taking the rows act by act gives back rows that are sorted by act
    number. *)
Lemma regroup_sorted (rows : list BeatRow) :
  StronglySorted act_le rows ->
  flat_map (fun a => filter (in_act a) rows) (first_seen (map row_act_no rows))
  = rows.
Proof.
  induction 1 as [|r rest Hs IH Hall]; [reflexivity|].
  cbn [map first_seen flat_map filter]. unfold in_act at 1.
  rewrite Z.eqb_refl. rewrite <- app_comm_cons. f_equal.
  etransitivity; [|exact IH].
  rewrite (regroup_head (row_act_no r) rest Hs Hall). f_equal.
  apply flat_map_ext_on. intros a Ha. apply filter_In in Ha.
  destruct Ha as [_ Ha]. unfold in_act at 1.
  destruct (Z.eqb_spec (row_act_no r) a) as [<-|_]; [|reflexivity].
  rewrite Z.eqb_refl in Ha. discriminate.
Qed.

Lemma act_le_trans : Relations_1.Transitive act_le.
Proof. intros x y z. unfold act_le. lia. Qed.

End CsvOrder.

(** X12.  When the rows come sorted by act number, as the query of
    [generateBeatReport] orders them, and rows of one act number carry one
    act title, the CSV document of the report is the header followed by one
    line for each row, in the order of the rows: grouping by act and
    flattening again loses no row, repeats none and moves none. *)
Theorem csv_keeps_query_order (now_iso : string) (rows : list BeatRow) :
  Sorted act_le rows ->
  titles_agree rows ->
  generateCSVReport (aggregate now_iso rows)
  = (csv_header ++ concat_all (map row_line rows))%string.
Proof.
  intros Hs Ht.
  apply (Sorted_StronglySorted act_le_trans) in Hs.
  rewrite generateCSVReport_lines. f_equal. f_equal.
  assert (E : acts (aggregate now_iso rows) = group_by_act rows).
  { unfold aggregate. pose proof (group_rows_group_by rows) as H.
    destruct (group_rows rows) as [st n]. exact H. }
  rewrite E. unfold group_by_act. rewrite flat_map_concat_map, map_map.
  rewrite <- flat_map_concat_map.
  transitivity
    (map row_line
       (flat_map (fun a => filter (in_act a) rows)
                 (first_seen (map row_act_no rows))));
    [|now rewrite (regroup_sorted rows Hs)].
  rewrite <- flat_map_map_filter.
  apply flat_map_ext_on. intros a Ha.
  cbn [group_of beats]. rewrite map_map.
  apply map_ext_in. intros r Hr. apply filter_In in Hr.
  destruct Hr as [Hin Hra]. unfold in_act in Hra. apply Z.eqb_eq in Hra.
  apply (proj1 (first_seen_In _ _)) in Ha.
  destruct (filter_in_act_nonempty a rows Ha) as (r0 & rest & Ef).
  assert (H0 : In r0 (filter (in_act a) rows)) by (rewrite Ef; now left).
  apply filter_In in H0. destruct H0 as [Hin0 Hr0].
  unfold in_act in Hr0. apply Z.eqb_eq in Hr0.
  rewrite Ef. unfold row_line, csv_line, csv_row.
  cbn [act_no act_title newGroup group_of].
  rewrite (Ht r0 r Hin0 Hin) by congruence. now rewrite Hra.
Qed.

(** ** The helpers of utils.js *)

Section BeatIds.

Lemma no_underscore_uint (d : uint) :
  includes_char "_" (NilEmpty.string_of_uint d) = false.
Proof.
  induction d; cbn [NilEmpty.string_of_uint includes_char];
    [reflexivity | rewrite IHd; reflexivity ..].
Qed.

Lemma no_underscore_nz_uint (d : uint) :
  includes_char "_" (NilZero.string_of_uint d) = false.
Proof. destruct d; try apply no_underscore_uint. reflexivity. Qed.

(** The decimal text of an integer has no underscore. *)
Lemma no_underscore_Z (z : Z) : includes_char "_" (string_of_Z z) = false.
Proof.
  unfold string_of_Z. destruct (Z.to_int z) as [d|d];
    cbn [NilZero.string_of_int includes_char].
  - apply no_underscore_nz_uint.
  - rewrite no_underscore_nz_uint. reflexivity.
Qed.

(** Two texts cut at their first occurrence of a character agree part by
    part. *)
Lemma split_at_char (c : ascii) (x x' r r' : string) :
  includes_char c x = false -> includes_char c x' = false ->
  (x ++ String c r)%string = (x' ++ String c r')%string ->
  x = x' /\ r = r'.
Proof.
  revert x'. induction x as [|a x IH]; intros [|a' x'] Hx Hx' E;
    cbn [append includes_char] in *.
  - inversion E. now split.
  - inversion E; subst. rewrite Ascii.eqb_refl in Hx'. discriminate.
  - inversion E; subst. rewrite Ascii.eqb_refl in Hx. discriminate.
  - inversion E; subst. apply orb_false_iff in Hx, Hx'.
    destruct (IH x' (proj2 Hx) (proj2 Hx') H1) as [-> ->]. now split.
Qed.

End BeatIds.

(** X13.  The identifier of a beat identifies it: two beats have the same
    identifier exactly when they have the same act number and the same beat
    number. *)
Theorem beat_id_identifies (a b a' b' : Z) :
  generateBeatId a b = generateBeatId a' b' <-> a = a' /\ b = b'.
Proof.
  split; [|intros [-> ->]; reflexivity].
  unfold generateBeatId. intros E.
  apply append_inj_l in E.
  change ("_beat" ++ string_of_Z b)%string
    with (String "_" ("beat" ++ string_of_Z b))%string in E.
  change ("_beat" ++ string_of_Z b')%string
    with (String "_" ("beat" ++ string_of_Z b'))%string in E.
  apply split_at_char in E; try apply no_underscore_Z.
  destruct E as [Ea Eb]. apply append_inj_l in Eb.
  split; now apply string_of_Z_inj.
Qed.

Section ActNumbers.

Lemma first_digits_skip (pre s : string) :
  digit_free pre = true -> first_digits (pre ++ s) = first_digits s.
Proof.
  induction pre as [|c pre IH]; intros H; [reflexivity|].
  cbn [digit_free] in H. apply andb_true_iff in H. destruct H as [Hc Hp].
  cbn [append first_digits]. apply negb_true_iff in Hc. rewrite Hc.
  now apply IH.
Qed.

Lemma first_digits_span (s : string) :
  nonempty (fst (span_digits s)) = true ->
  first_digits s = Some (fst (span_digits s)).
Proof.
  destruct s as [|c s]; [discriminate|].
  cbn [span_digits first_digits]. destruct (is_digit c); [reflexivity|].
  discriminate.
Qed.

Lemma string_of_Z_opp (p : positive) :
  string_of_Z (Z.neg p) = String "-" (string_of_Z (Z.pos p)).
Proof. reflexivity. Qed.

(** The first run of digits of a text that holds the decimal text of [n]
    after a part without digits. *)
Lemma first_digits_number (pre post : string) (n : Z) :
  digit_free pre = true -> no_digit_ahead post = true ->
  first_digits (pre ++ string_of_Z n ++ post)
  = Some (string_of_Z (Z.abs n)).
Proof.
  intros Hpre Hpost. rewrite (first_digits_skip _ _ Hpre).
  assert (H : forall z, (0 <= z)%Z ->
              first_digits (string_of_Z z ++ post) = Some (string_of_Z z)).
  { intros z Hz. rewrite first_digits_span;
      rewrite (span_digits_Z z post Hz Hpost); cbn [fst];
      [reflexivity|apply nonempty_string_of_Z]. }
  destruct n as [|p|p].
  - apply (H 0%Z). lia.
  - apply (H (Z.pos p)). lia.
  - rewrite string_of_Z_opp. cbn [append first_digits].
    change (is_digit "-") with false. cbn iota.
    apply (H (Z.pos p)). lia.
Qed.

End ActNumbers.

(** X14.  [parseActNumber] reads the first run of digits of a text and
    nothing else.  For a safe integer [n], whose decimal text and whose
    parsed value are exact, and a text that holds the decimal text of [n]
    after a part without digits and before a part that does not start with
    a digit, the result is the absolute value of [n], the sign being read
    as a character that is no digit; the text is accepted by
    [isValidActNumber] exactly when that absolute value is; in particular
    the text of a number from -10 to -1 is accepted and the number itself
    is refused, and the identifier of a beat of act [n] gives back the
    absolute value of [n]. *)
Theorem parseActNumber_first_digits (pre post : string) (n : Z) :
  safe_integer n ->
  digit_free pre = true -> no_digit_ahead post = true ->
  let text := ActText (pre ++ string_of_Z n ++ post) in
  parseActNumber text = Some (Z.abs n) /\
  isValidActNumber text = isValidActNumber (ActNumber (Z.abs n)) /\
  ((-10 <= n <= -1)%Z ->
   isValidActNumber (ActText (string_of_Z n)) = true /\
   isValidActNumber (ActNumber n) = false) /\
  (forall b,
     safe_integer b ->
     parseActNumber (ActText (generateBeatId n b)) = Some (Z.abs n)).
Proof.
  intros _ Hpre Hpost. cbv zeta.
  assert (Hparse : forall pre' post',
            digit_free pre' = true -> no_digit_ahead post' = true ->
            parseActNumber (ActText (pre' ++ string_of_Z n ++ post'))
            = Some (Z.abs n)).
  { intros pre' post' H1 H2. unfold parseActNumber.
    rewrite (first_digits_number _ _ _ H1 H2).
    rewrite parseInt_string_of_Z; [reflexivity|lia]. }
  split; [now apply Hparse|]. split; [|split].
  - unfold isValidActNumber. rewrite (Hparse _ _ Hpre Hpost). reflexivity.
  - intros Hn. split.
    + unfold isValidActNumber.
      pose proof (Hparse EmptyString EmptyString eq_refl eq_refl) as H.
      cbn [append] in H. rewrite append_nil_r in H. rewrite H.
      apply andb_true_iff. split; apply Z.leb_le; lia.
    + unfold isValidActNumber, parseActNumber.
      apply andb_false_iff. left. apply Z.leb_gt. lia.
  - intros b _. unfold generateBeatId.
    apply (Hparse "act" ("_beat" ++ string_of_Z b)%string); reflexivity.
Qed.

Section Truncation.

Lemma length_append (a b : string) :
  String.length (a ++ b) = String.length a + String.length b.
Proof. induction a as [|c a IH]; [reflexivity|]. cbn. now rewrite IH. Qed.

(** The first [k] characters of a text. *)
Lemma substring_prefix (k : nat) : forall s : string,
  String.length (String.substring 0 k s) = Nat.min k (String.length s) /\
  exists rest, s = (String.substring 0 k s ++ rest)%string.
Proof.
  induction k as [|k IH]; intros [|c s]; cbn [String.substring String.length].
  - split; [reflexivity|]. now exists EmptyString.
  - split; [reflexivity|]. now exists (String c s).
  - split; [reflexivity|]. now exists EmptyString.
  - destruct (IH s) as [Hl [rest Hr]]. split.
    + cbn [Nat.min]. now rewrite Hl.
    + exists rest. cbn [append]. now rewrite <- Hr.
Qed.

End Truncation.

(** X15.  [truncateText] and its limit.  A text no longer than the limit is
    returned as it is.  With a limit of at least 3, a longer text is cut to
    exactly the limit: its first characters, three fewer than the limit,
    followed by three dots; the result is never longer than the limit, and
    truncating it again changes nothing.  With a limit below 3, a longer
    text that is not empty becomes the three dots alone, which is longer
    than the limit. *)
Theorem truncateText_limit (s : string) (maxLength : Z) :
  exists r,
    truncateText (Some s) maxLength = Some r /\
    ((Z.of_nat (String.length s) <= maxLength)%Z -> r = s) /\
    ((3 <= maxLength)%Z ->
     (Z.of_nat (String.length r) <= maxLength)%Z /\
     truncateText (Some r) maxLength = Some r /\
     ((maxLength < Z.of_nat (String.length s))%Z ->
      Z.of_nat (String.length r) = maxLength /\
      exists kept dropped,
        s = (kept ++ dropped)%string /\ r = (kept ++ "...")%string /\
        Z.of_nat (String.length kept) = (maxLength - 3)%Z)) /\
    ((maxLength < 3)%Z -> (maxLength < Z.of_nat (String.length s))%Z ->
     s <> EmptyString ->
     r = "..."%string /\ (maxLength < Z.of_nat (String.length r))%Z).
Proof.
  unfold truncateText at 1.
  destruct (String.eqb_spec s EmptyString) as [->|Hne]; cbn [orb].
  - exists EmptyString. split; [reflexivity|]. split; [reflexivity|].
    split; [|intros _ _ H; now contradiction H].
    intros Hm. cbn [String.length]. split; [lia|]. split; [reflexivity|].
    cbn. lia.
  - destruct (Z.leb_spec (Z.of_nat (String.length s)) maxLength) as [Hle|Hgt].
    + exists s. split; [reflexivity|]. split; [reflexivity|].
      split; [|lia]. intros Hm. split; [exact Hle|]. split; [|lia].
      unfold truncateText. apply Z.leb_le in Hle. rewrite Hle.
      now rewrite orb_true_r.
    + eexists. split; [reflexivity|]. split; [lia|].
      destruct (substring_prefix (Z.to_nat (maxLength - 3)) s)
        as [Hlen [rest Hrest]].
      split.
      * intros Hm.
        assert (Hk : Z.of_nat (String.length
                       (String.substring 0 (Z.to_nat (maxLength - 3)) s))
                     = (maxLength - 3)%Z) by (rewrite Hlen; lia).
        assert (Hr : Z.of_nat (String.length
                       (String.substring 0 (Z.to_nat (maxLength - 3)) s
                        ++ "..."))
                     = maxLength).
        { rewrite length_append. cbn [String.length]. lia. }
        split; [lia|]. split.
        -- unfold truncateText. rewrite Hr, Z.leb_refl.
           now rewrite orb_true_r.
        -- intros _. split; [exact Hr|].
           exists (String.substring 0 (Z.to_nat (maxLength - 3)) s), rest.
           now repeat split.
      * intros Hm _ _.
        replace (Z.to_nat (maxLength - 3)) with 0%nat by lia.
        assert (E0 : String.substring 0 0 s = EmptyString)
          by (destruct s; reflexivity).
        rewrite E0. cbn. split; [reflexivity|lia].
Qed.

(** ** The rate limiter *)

Section Limiter.

Lemma valid_requests_app (w : Z) (l1 l2 : list Z) :
  valid_requests w (l1 ++ l2) = valid_requests w l1 ++ valid_requests w l2.
Proof. apply filter_app. Qed.

(** Filtering with a later start after an earlier one is filtering with the
    later one. *)
Lemma valid_requests_twice (w0 w : Z) (l : list Z) :
  (w0 <= w)%Z -> valid_requests w (valid_requests w0 l) = valid_requests w l.
Proof.
  intros Hw. unfold valid_requests.
  induction l as [|t l IH]; [reflexivity|]. cbn [filter].
  destruct (Z.ltb_spec w0 t) as [H0|H0]; cbn [filter]; rewrite IH.
  - reflexivity.
  - destruct (Z.ltb_spec w t); [lia|reflexivity].
Qed.

Lemma granted_app (identifier : string) (l1 l2 : list (Call * bool)) :
  granted identifier (l1 ++ l2)
  = granted identifier l1 ++ granted identifier l2.
Proof.
  induction l1 as [|[[t i] ok] l1 IH]; [reflexivity|].
  rewrite <- app_comm_cons. cbn [granted].
  destruct (ok && String.eqb i identifier)%bool; now rewrite IH.
Qed.

(** The answer of one call, by the history. *)
Lemma isAllowed_answer cur hist this now identifier :
  limiter_inv cur hist this -> (cur <= now)%Z ->
  fst (isAllowed now identifier this)
  = Z.ltb (granted_since (now - windowMs this) identifier hist)
          (maxRequests this).
Proof.
  intros Hinv Hcur. specialize (Hinv identifier).
  unfold isAllowed, granted_since. cbv zeta.
  assert (E : valid_requests (now - windowMs this)
                match requests this identifier with
                | Some stamps => stamps
                | None => []
                end
              = valid_requests (now - windowMs this)
                               (granted identifier hist)).
  { destruct (requests this identifier) as [stamps|].
    - apply Hinv. lia.
    - now rewrite Hinv. }
  rewrite E, Z.ltb_antisym.
  now destruct (Z.leb (maxRequests this) _).
Qed.

Lemma isAllowed_settings now identifier this :
  maxRequests (snd (isAllowed now identifier this)) = maxRequests this /\
  windowMs (snd (isAllowed now identifier this)) = windowMs this.
Proof.
  unfold isAllowed. cbv zeta.
  now destruct (Z.leb (maxRequests this) _).
Qed.

(** What one call stores: the timestamps of the window, and the time of the
    call when it is allowed. *)
Lemma isAllowed_requests now identifier this :
  requests (snd (isAllowed now identifier this))
  = requests_set identifier
      (valid_requests (now - windowMs this)
         match requests this identifier with
         | Some stamps => stamps
         | None => []
         end
       ++ (if fst (isAllowed now identifier this) then [now] else []))
      (requests this).
Proof.
  unfold isAllowed. cbv zeta.
  destruct (Z.leb (maxRequests this) _); cbn [fst snd requests];
    [now rewrite app_nil_r|reflexivity].
Qed.

(** One call keeps the invariant. *)
Lemma isAllowed_inv cur hist this now identifier :
  limiter_inv cur hist this -> (cur <= now)%Z ->
  limiter_inv now
    (hist ++ [((now, identifier), fst (isAllowed now identifier this))])
    (snd (isAllowed now identifier this)).
Proof.
  intros Hinv Hcur id.
  destruct (isAllowed_settings now identifier this) as [_ Hw].
  rewrite Hw, isAllowed_requests, granted_app. unfold requests_set.
  cbn [granted].
  destruct (String.eqb_spec id identifier) as [->|Hne].
  - rewrite String.eqb_refl, andb_true_r. intros w Hwin.
    rewrite !valid_requests_app.
    f_equal; try (now destruct (fst (isAllowed now identifier this))).
    rewrite valid_requests_twice by exact Hwin.
    specialize (Hinv identifier).
    destruct (requests this identifier) as [stamps|].
    + apply Hinv. lia.
    + now rewrite Hinv.
  - assert (E : String.eqb identifier id = false).
    { apply String.eqb_neq. congruence. }
    rewrite E, andb_false_r, app_nil_r.
    specialize (Hinv id). destruct (requests this id) as [stamps|].
    + intros w Hwin. apply Hinv. lia.
    + exact Hinv.
Qed.

Lemma serve_cons this now identifier rest :
  fst (serve this ((now, identifier) :: rest))
  = ((now, identifier), fst (isAllowed now identifier this))
    :: fst (serve (snd (isAllowed now identifier this)) rest).
Proof.
  cbn [serve]. destruct (isAllowed now identifier this) as [ok this'].
  cbn [fst snd]. now destruct (serve this' rest).
Qed.

Lemma serve_settings calls : forall this,
  maxRequests (snd (serve this calls)) = maxRequests this /\
  windowMs (snd (serve this calls)) = windowMs this.
Proof.
  induction calls as [|[now identifier] calls IH]; intros this;
    [now split|].
  cbn [serve].
  destruct (isAllowed_settings now identifier this) as [Hm Hw].
  destruct (isAllowed now identifier this) as [ok this']. cbn [snd] in Hm, Hw.
  specialize (IH this'). destruct (serve this' calls) as [log final].
  cbn [snd] in *. split; lia.
Qed.

(** Every answer of a run, by the history before it. *)
Lemma serve_answers calls : forall cur hist this,
  limiter_inv cur hist this ->
  Sorted Z.le (cur :: map fst calls) ->
  forall before now identifier ok after,
    fst (serve this calls) = before ++ ((now, identifier), ok) :: after ->
    ok = Z.ltb (granted_since (now - windowMs this) identifier
                              (hist ++ before))
               (maxRequests this).
Proof.
  induction calls as [|[t i] calls IH];
    intros cur hist this Hinv Hs before now identifier ok after E.
  - destruct before; discriminate.
  - rewrite serve_cons in E.
    apply Sorted_inv in Hs. destruct Hs as [Hs Hhd].
    apply HdRel_inv in Hhd. cbn [fst] in Hhd.
    destruct before as [|x before].
    + cbn [app] in E. inversion E; subst. rewrite app_nil_r.
      now apply (isAllowed_answer cur).
    + rewrite <- app_comm_cons in E. inversion E as [[Hx Hrest]].
      destruct (isAllowed_settings t i this) as [Hm Hw].
      rewrite <- Hm, <- Hw.
      replace (hist ++ ((t, i), fst (isAllowed t i this)) :: before)
        with ((hist ++ [((t, i), fst (isAllowed t i this))]) ++ before)
        by (rewrite <- app_assoc; reflexivity).
      apply (IH t _ _ (isAllowed_inv cur hist this t i Hinv Hhd))
        with (after := after); [exact Hs|exact Hrest].
Qed.

Lemma newRateLimiter_inv (m w cur : Z) :
  limiter_inv cur [] (newRateLimiter m w).
Proof. intros identifier. reflexivity. Qed.

Lemma clock_ok_head (t : Z) (i : string) (calls : list Call) :
  clock_ok ((t, i) :: calls) -> Sorted Z.le (t :: map fst ((t, i) :: calls)).
Proof.
  unfold clock_ok. cbn [map fst]. intros H.
  constructor; [exact H|]. constructor. lia.
Qed.

End Limiter.

(** X16.  The limiter keeps its promise, and refuses no more than it must.
    When the clock does not go back between the calls, a call of
    [isAllowed] on a new limiter is allowed exactly when fewer than
    [maxRequests] earlier calls of the same identifier were allowed at times
    later than [windowMs] before the call.  Hence, counting an allowed call
    itself, no more than [maxRequests] calls of an identifier are allowed
    within that window. *)
Theorem rate_limit_by_history (maxRequests windowMs : Z) (calls : list Call) :
  clock_ok calls ->
  let log := fst (serve (newRateLimiter maxRequests windowMs) calls) in
  map fst log = calls /\
  forall before now identifier ok after,
    log = before ++ ((now, identifier), ok) :: after ->
    ok = Z.ltb (granted_since (now - windowMs) identifier before) maxRequests /\
    (ok = true ->
     (granted_since (now - windowMs) identifier
                    (before ++ [((now, identifier), true)])
      <= maxRequests)%Z).
Proof.
  intros Hclock. cbv zeta. split.
  - clear Hclock. generalize (newRateLimiter maxRequests windowMs).
    induction calls as [|[t i] calls IH]; intros this; [reflexivity|].
    rewrite serve_cons. cbn [map fst]. now rewrite IH.
  - intros before now identifier ok after E.
    assert (Hok : ok = Z.ltb (granted_since (now - windowMs) identifier before)
                             maxRequests).
    { destruct calls as [|[t i] calls]; [destruct before; discriminate|].
      apply (serve_answers _ t [] (newRateLimiter maxRequests windowMs)
               (newRateLimiter_inv _ _ _) (clock_ok_head _ _ _ Hclock)
               before now identifier ok after E). }
    split; [exact Hok|]. intros ->.
    symmetry in Hok. apply Z.ltb_lt in Hok.
    unfold granted_since in *. rewrite granted_app, valid_requests_app.
    rewrite length_app. cbn [granted]. rewrite String.eqb_refl.
    cbn [andb valid_requests filter].
    destruct (Z.ltb (now - windowMs) now); cbn [List.length]; lia.
Qed.

(** X17.  The two methods of the limiter agree.  At one reading of the
    clock, [isAllowed] answers yes exactly when [getRemainingRequests] is
    positive just before; when the window is positive, an allowed call
    lowers the remaining number by one; and a call of one identifier
    changes nothing for another, at any time. *)
Theorem limiter_methods_agree (this : RateLimiter) (now : Z)
  (identifier : string) :
  let after := snd (isAllowed now identifier this) in
  fst (isAllowed now identifier this)
  = Z.ltb 0 (getRemainingRequests now identifier this) /\
  ((0 < windowMs this)%Z ->
   fst (isAllowed now identifier this) = true ->
   getRemainingRequests now identifier after
   = (getRemainingRequests now identifier this - 1)%Z) /\
  (forall other later,
     other <> identifier ->
     getRemainingRequests later other after
     = getRemainingRequests later other this).
Proof.
  cbv zeta. split; [|split].
  - unfold isAllowed, getRemainingRequests. cbv zeta.
    destruct (requests this identifier) as [stamps|].
    + destruct (Z.leb_spec (maxRequests this)
                  (Z.of_nat (List.length
                     (valid_requests (now - windowMs this) stamps))));
        cbn [fst]; symmetry; [apply Z.ltb_ge|apply Z.ltb_lt]; lia.
    + cbn [valid_requests filter List.length].
      destruct (Z.leb_spec (maxRequests this) (Z.of_nat 0));
        cbn [fst]; symmetry; [apply Z.ltb_ge|apply Z.ltb_lt]; lia.
  - intros Hw Hok.
    destruct (isAllowed_settings now identifier this) as [Hm Hwin].
    unfold getRemainingRequests. cbv zeta.
    rewrite Hm, Hwin, isAllowed_requests, Hok. unfold requests_set.
    rewrite String.eqb_refl.
    rewrite valid_requests_app, valid_requests_twice by lia.
    rewrite length_app. cbn [valid_requests filter].
    destruct (Z.ltb_spec (now - windowMs this) now) as [_|H]; [|lia].
    cbn [List.length].
    unfold isAllowed in Hok. cbv zeta in Hok.
    destruct (requests this identifier) as [stamps|].
    + fold (valid_requests (now - windowMs this) stamps) in *.
      destruct (Z.leb_spec (maxRequests this)
                  (Z.of_nat (List.length
                     (valid_requests (now - windowMs this) stamps))));
        [discriminate|]. lia.
    + cbn [valid_requests filter List.length] in *.
      destruct (Z.leb_spec (maxRequests this) (Z.of_nat 0));
        [discriminate|]. lia.
  - intros other later Hne.
    destruct (isAllowed_settings now identifier this) as [Hm Hwin].
    unfold getRemainingRequests. cbv zeta.
    rewrite Hm, Hwin, isAllowed_requests. unfold requests_set.
    destruct (String.eqb_spec other identifier); [contradiction|reflexivity].
Qed.

Section EmptyWindow.

Lemma serve_calls calls : forall this, map fst (fst (serve this calls)) = calls.
Proof.
  induction calls as [|[t i] calls IH]; intros this; [reflexivity|].
  rewrite serve_cons. cbn [map fst]. now rewrite IH.
Qed.

Lemma sorted_before (l1 l2 : list Z) (x : Z) :
  StronglySorted Z.le (l1 ++ x :: l2) -> Forall (fun y => (y <= x)%Z) l1.
Proof.
  induction l1 as [|y l1 IH]; [constructor|].
  rewrite <- app_comm_cons. intros H. inversion H as [|? ? Hs Hall]; subst.
  constructor; [|now apply IH].
  rewrite Forall_forall in Hall. apply Hall, in_or_app. right. now left.
Qed.

Lemma granted_times (P : Z -> Prop) (identifier : string)
      (log : list (Call * bool)) :
  Forall P (map fst (map fst log)) -> Forall P (granted identifier log).
Proof.
  induction log as [|[[t i] ok] log IH]; [constructor|].
  cbn [map fst granted]. intros H. inversion H; subst.
  destruct (ok && String.eqb i identifier)%bool; [constructor|]; auto.
Qed.

Lemma valid_requests_none (w : Z) (l : list Z) :
  Forall (fun t => (t <= w)%Z) l -> valid_requests w l = [].
Proof.
  induction 1 as [|t l Ht Hl IH]; [reflexivity|].
  unfold valid_requests in *. cbn [filter].
  destruct (Z.ltb_spec w t); [lia|exact IH].
Qed.

Lemma Z_le_trans : Relations_1.Transitive Z.le.
Proof. intros x y z. lia. Qed.

End EmptyWindow.

(** X21.  A window that is not positive switches the limiter off: with
    [windowMs] zero or negative and room for at least one request, every
    call is allowed, however many there are, as long as the clock does not
    go back. *)
Theorem empty_window_never_limits (maxRequests windowMs : Z)
  (calls : list Call) :
  clock_ok calls -> (windowMs <= 0)%Z -> (1 <= maxRequests)%Z ->
  Forall (fun entry => snd entry = true)
         (fst (serve (newRateLimiter maxRequests windowMs) calls)).
Proof.
  intros Hclock Hw Hm. apply Forall_forall. intros [[now identifier] ok] Hin.
  apply in_split in Hin. destruct Hin as (before & after & E).
  cbn [snd].
  assert (Hok : ok = Z.ltb (granted_since (now - windowMs) identifier before)
                           maxRequests).
  { destruct calls as [|[t i] calls]; [destruct before; discriminate|].
    apply (serve_answers _ t [] (newRateLimiter maxRequests windowMs)
             (newRateLimiter_inv _ _ _) (clock_ok_head _ _ _ Hclock)
             before now identifier ok after E). }
  rewrite Hok. apply Z.ltb_lt.
  assert (Hcalls : calls = map fst before ++ (now, identifier) :: map fst after).
  { rewrite <- (serve_calls calls (newRateLimiter maxRequests windowMs)), E.
    now rewrite map_app. }
  unfold clock_ok in Hclock. rewrite Hcalls, map_app in Hclock.
  cbn [map fst] in Hclock.
  apply (Sorted_StronglySorted Z_le_trans), sorted_before in Hclock.
  unfold granted_since. rewrite valid_requests_none; [cbn; lia|].
  apply granted_times. eapply Forall_impl; [|exact Hclock].
  cbv beta. intros t Ht. lia.
Qed.

(** ** [normalizeText] *)

Section Normalize.

Lemma line_break_is_space (u : Z) : is_line_break u = true -> is_space u = true.
Proof.
  unfold is_line_break. intros H. apply orb_true_iff in H.
  destruct H as [H|H]; apply Z.eqb_eq in H; subst u; reflexivity.
Qed.

Lemma replace_runs_nonempty in_class by_ u rest :
  replace_runs in_class by_ (u :: rest) <> [].
Proof.
  revert u. induction rest as [|v rest IH]; intros u.
  - cbn [replace_runs]. destruct (in_class u); discriminate.
  - change (replace_runs in_class by_ (u :: v :: rest))
      with (if in_class u
            then if in_class v
                 then replace_runs in_class by_ (v :: rest)
                 else by_ :: replace_runs in_class by_ (v :: rest)
            else u :: replace_runs in_class by_ (v :: rest)).
    destruct (in_class u); [|discriminate].
    destruct (in_class v); [apply IH|discriminate].
Qed.

(** A text without code units of the class is not changed. *)
Lemma replace_runs_absent in_class by_ (text : CodeUnits) :
  Forall (fun u => in_class u = false) text ->
  replace_runs in_class by_ text = text.
Proof.
  induction 1 as [|u rest Hu Hrest IH]; [reflexivity|].
  cbn [replace_runs]. now rewrite Hu, IH.
Qed.

(** After the first pattern, white space is single spaces. *)
Lemma replace_runs_single_spaced (text : CodeUnits) :
  single_spaced (replace_runs is_space 32%Z text) = true.
Proof.
  induction text as [|u rest IH]; [reflexivity|].
  cbn [replace_runs]. destruct (is_space u) eqn:Eu.
  - destruct rest as [|v rest']; [reflexivity|].
    destruct (is_space v) eqn:Ev; [exact IH|].
    cbn [single_spaced]. change (is_space 32%Z) with true. cbn iota.
    rewrite IH. cbn [replace_runs] in *. rewrite Ev in *.
    cbn [negb]. now rewrite Ev.
  - cbn [single_spaced]. now rewrite Eu.
Qed.

Lemma single_spaced_fixed (text : CodeUnits) :
  single_spaced text = true -> replace_runs is_space 32%Z text = text.
Proof.
  induction text as [|u rest IH]; [reflexivity|].
  cbn [single_spaced replace_runs]. destruct (is_space u).
  - intros H. apply andb_true_iff in H. destruct H as [H Hrest].
    apply andb_true_iff in H. destruct H as [Hu Hv].
    apply Z.eqb_eq in Hu. subst u.
    destruct rest as [|v rest']; [reflexivity|].
    apply negb_true_iff in Hv. rewrite Hv. now rewrite (IH Hrest).
  - intros H. now rewrite (IH H).
Qed.

Lemma single_spaced_no_line_break (text : CodeUnits) :
  single_spaced text = true ->
  Forall (fun u => is_line_break u = false) text.
Proof.
  induction text as [|u rest IH]; [constructor|].
  cbn [single_spaced]. destruct (is_space u) eqn:Eu.
  - intros H. apply andb_true_iff in H. destruct H as [H Hrest].
    apply andb_true_iff in H. destruct H as [Hu _].
    apply Z.eqb_eq in Hu. subst u. constructor; [reflexivity|now apply IH].
  - intros H. constructor; [|now apply IH].
    destruct (is_line_break u) eqn:El; [|reflexivity].
    apply line_break_is_space in El. congruence.
Qed.

Lemma head_ok_trimStart (text : CodeUnits) : head_ok (trimStart text) = true.
Proof.
  induction text as [|u rest IH]; [reflexivity|].
  cbn [trimStart]. destruct (is_space u) eqn:Eu; [exact IH|].
  cbn [head_ok]. now rewrite Eu.
Qed.

Lemma head_ok_trimEnd (text : CodeUnits) :
  head_ok text = true -> head_ok (trimEnd text) = true.
Proof.
  destruct text as [|u rest]; [reflexivity|].
  cbn [head_ok trimEnd]. intros Hu.
  destruct (trimEnd rest); [|exact Hu].
  apply negb_true_iff in Hu. rewrite Hu. cbn [head_ok]. now rewrite Hu.
Qed.

Lemma head_ok_replace_runs (text : CodeUnits) :
  head_ok text = true -> head_ok (replace_runs is_space 32%Z text) = true.
Proof.
  destruct text as [|u rest]; [reflexivity|].
  cbn [head_ok replace_runs]. intros Hu.
  apply negb_true_iff in Hu. rewrite Hu. cbn [head_ok]. now rewrite Hu.
Qed.

Lemma head_ok_fixed (text : CodeUnits) :
  head_ok text = true -> trimStart text = text.
Proof.
  destruct text as [|u rest]; [reflexivity|].
  cbn [head_ok trimStart]. intros Hu.
  apply negb_true_iff in Hu. now rewrite Hu.
Qed.

Lemma last_ok_trimEnd (text : CodeUnits) : last_ok (trimEnd text) = true.
Proof.
  induction text as [|u rest IH]; [reflexivity|].
  cbn [trimEnd]. destruct (trimEnd rest) as [|k kept].
  - destruct (is_space u) eqn:Eu; [reflexivity|].
    cbn [last_ok]. now rewrite Eu.
  - exact IH.
Qed.

Lemma last_ok_fixed (text : CodeUnits) :
  last_ok text = true -> trimEnd text = text.
Proof.
  induction text as [|u rest IH]; [reflexivity|].
  destruct rest as [|v rest'].
  - cbn [last_ok trimEnd]. intros Hu.
    apply negb_true_iff in Hu. now rewrite Hu.
  - intros H. change (last_ok (u :: v :: rest')) with (last_ok (v :: rest')) in H.
    specialize (IH H).
    change (trimEnd (u :: v :: rest'))
      with (match trimEnd (v :: rest') with
            | [] => if is_space u then [] else [u]
            | kept => u :: kept
            end).
    now rewrite IH.
Qed.

Lemma last_ok_cons (u : Z) (text : CodeUnits) :
  text <> [] -> last_ok (u :: text) = last_ok text.
Proof. destruct text; [congruence|reflexivity]. Qed.

Lemma last_ok_replace_runs (text : CodeUnits) :
  last_ok text = true -> last_ok (replace_runs is_space 32%Z text) = true.
Proof.
  induction text as [|u rest IH]; [reflexivity|].
  destruct rest as [|v rest'].
  - cbn [last_ok replace_runs]. intros Hu.
    apply negb_true_iff in Hu. rewrite Hu. cbn [last_ok]. now rewrite Hu.
  - intros H. change (last_ok (u :: v :: rest')) with (last_ok (v :: rest')) in H.
    specialize (IH H).
    change (replace_runs is_space 32%Z (u :: v :: rest'))
      with (if is_space u
            then if is_space v
                 then replace_runs is_space 32%Z (v :: rest')
                 else 32%Z :: replace_runs is_space 32%Z (v :: rest')
            else u :: replace_runs is_space 32%Z (v :: rest')).
    destruct (is_space u); [destruct (is_space v)|];
      rewrite ?last_ok_cons by apply replace_runs_nonempty; exact IH.
Qed.

(** What the first two steps of [normalizeText] give. *)
Lemma normalizeText_steps (text : CodeUnits) :
  normalizeText (Some text)
  = replace_runs is_line_break 10%Z (replace_runs is_space 32%Z (trim text)).
Proof. destruct text; reflexivity. Qed.

End Normalize.

(** X18.  [normalizeText] gives a normal form.  In its result white space
    occurs only as single spaces between other code units: every white
    space code unit is a space that no white space follows, and the text
    neither begins nor ends with one; so the result has no line break, and
    the second replacement, of runs of line breaks by a line feed, never
    changes anything: the result is that of trimming and of the first
    replacement alone.  Normalizing a second time changes nothing. *)
Theorem normalizeText_normal_form (text : CodeUnits) :
  let result := normalizeText (Some text) in
  single_spaced result = true /\
  head_ok result = true /\
  last_ok result = true /\
  Forall (fun u => is_line_break u = false) result /\
  result = replace_runs is_space 32%Z (trim text) /\
  normalizeText (Some result) = result.
Proof.
  cbv zeta.
  assert (E : normalizeText (Some text)
              = replace_runs is_space 32%Z (trim text)).
  { rewrite normalizeText_steps. apply replace_runs_absent.
    apply single_spaced_no_line_break, replace_runs_single_spaced. }
  assert (Hs : single_spaced (normalizeText (Some text)) = true)
    by (rewrite E; apply replace_runs_single_spaced).
  assert (Hh : head_ok (normalizeText (Some text)) = true).
  { rewrite E. apply head_ok_replace_runs. unfold trim.
    apply head_ok_trimEnd, head_ok_trimStart. }
  assert (Hl : last_ok (normalizeText (Some text)) = true).
  { rewrite E. apply last_ok_replace_runs. unfold trim. apply last_ok_trimEnd. }
  repeat split; try assumption.
  - now apply single_spaced_no_line_break.
  - rewrite normalizeText_steps. unfold trim.
    rewrite (head_ok_fixed _ Hh), (last_ok_fixed _ Hl).
    rewrite (single_spaced_fixed _ Hs).
    apply replace_runs_absent. now apply single_spaced_no_line_break.
Qed.

(** ** The report endpoints *)

Section ReportEndpoints.

Lemma html_report_is_document dates report cors :
  is_html_document
    (textResponse (generateHTMLReport dates report) 200 "text/html" cors)
  = true.
Proof.
  unfold is_html_document, content_type, textResponse.
  cbn [headers body header String.eqb Ascii.eqb Bool.eqb andb].
  assert (Hend : ends_with "</html>" (generateHTMLReport dates report) = true).
  { unfold generateHTMLReport, report_body. repeat apply ends_with_app_r.
    vm_compute. reflexivity. }
  rewrite Hend. reflexivity.
Qed.

(** An authenticated [GET] request reaches the route of its path. *)
Lemma report_fetch_get rt p jwt key auth env :
  isAuthenticated (mkRequest "GET" p jwt key auth) env = true ->
  (p = "/api/reports/beats"%string ->
   fetch rt (mkRequest "GET" p jwt key auth) env
   = handleReportRequest rt env "json" corsHeaders) /\
  (p = "/api/reports/beats/csv"%string ->
   fetch rt (mkRequest "GET" p jwt key auth) env
   = handleReportRequest rt env "csv" corsHeaders) /\
  (p = "/api/reports/beats/html"%string \/ p = "/dashboard"%string
   \/ p = "/report"%string ->
   fetch rt (mkRequest "GET" p jwt key auth) env
   = handleReportRequest rt env "html" corsHeaders) /\
  (p = "/api/reports/beats/pdf"%string ->
   fetch rt (mkRequest "GET" p jwt key auth) env
   = handleReportRequest rt env "pdf" corsHeaders).
Proof.
  intros Ha.
  repeat split; intros Hp; repeat (destruct Hp as [Hp|Hp]); subst p;
    unfold fetch, handleRequest; cbv zeta; cbn [method path];
    rewrite Ha; reflexivity.
Qed.

End ReportEndpoints.

(** X19.  The report endpoints deliver the report in their format.  For an
    authenticated [GET] request, when the query of the report gives rows,
    the answer has status 200 and carries the report of the aggregator on
    those rows: as JSON text under [/api/reports/beats]; as the CSV
    document, declared [text/csv] and as an attachment named after the
    day, under [/api/reports/beats/csv]; as the HTML document under
    [/api/reports/beats/html], [/dashboard] and [/report]; and as the print
    document, declared [text/html], under [/api/reports/beats/pdf]. *)
Theorem report_endpoints_deliver (rt : Runtime) (request : Request)
  (env : Env) (rows : list BeatRow) :
  method request = "GET"%string ->
  isAuthenticated request env = true ->
  report_query (SCREENPLAY_DRAFT env) = Ok rows ->
  let report := aggregate (iso_now rt 0) rows in
  let answer := fetch rt request env in
  (path request = "/api/reports/beats"%string ->
   answer = jsonResponse (report_json report) 200 corsHeaders) /\
  (path request = "/api/reports/beats/csv"%string ->
   status answer = 200 /\
   content_type answer = Some "text/csv"%string /\
   header "Content-Disposition" (headers answer)
   = Some (csv_attachment (before_T (iso_now rt 1))) /\
   body answer = Some (generateCSVReport report) /\
   has_cors answer) /\
  (path request = "/api/reports/beats/html"%string
   \/ path request = "/dashboard"%string
   \/ path request = "/report"%string ->
   answer = textResponse (generateHTMLReport (long_date rt) report) 200
                         "text/html" corsHeaders /\
   is_html_document answer = true) /\
  (path request = "/api/reports/beats/pdf"%string ->
   answer = textResponse (generatePDFOptimizedHTML (long_date rt) report) 200
                         "text/html" corsHeaders).
Proof.
  destruct request as [m p jwt key auth].
  destruct env as [[q1 q2 q3 q4 q5] api_key].
  cbn [method path SCREENPLAY_DRAFT report_query].
  intros -> Ha ->. cbv zeta.
  destruct (report_fetch_get rt p jwt key auth _ Ha) as (Hj & Hc & Hh & Hp).
  destruct (generateBeatReport_success rt rows q2 q3 q4 q5 api_key)
    as (Gj & Gc & Gh & Gp).
  cbv zeta in Gj, Gc, Gh, Gp.
  split; [|split; [|split]].
  - intros E. rewrite (Hj E). unfold handleReportRequest. rewrite Gj.
    reflexivity.
  - intros E. rewrite (Hc E). unfold handleReportRequest. rewrite Gc.
    cbn [String.eqb Ascii.eqb Bool.eqb status headers body output_text].
    repeat split; try reflexivity.
    eexists [_; _]. reflexivity.
  - intros E. rewrite (Hh E). unfold handleReportRequest. rewrite Gh.
    cbn [String.eqb Ascii.eqb Bool.eqb output_text].
    split; [reflexivity|apply html_report_is_document].
  - intros E. rewrite (Hp E). unfold handleReportRequest. rewrite Gp.
    reflexivity.
Qed.

(** ** The anchors of the HTML report *)

Section Anchors.

Lemma includes_tail (needle : string) (c : ascii) (s : string) :
  includes needle s = true -> includes needle (String c s) = true.
Proof.
  intros H. change (String c s) with (String c EmptyString ++ s)%string.
  now apply includes_app_r.
Qed.

Ltac find_attribute :=
  repeat first
    [ solve [ eapply includes_prefix_eq;
              repeat (progress cbn [append] || rewrite append_assoc);
              reflexivity ]
    | progress cbn [append]
    | apply includes_tail
    | apply includes_app_r ].

Lemma nav_item_link (act : ActGroup) :
  includes (act_anchor_link (act_no act)) (nav_item act) = true.
Proof. unfold nav_item, act_anchor_link. find_attribute. Qed.

Lemma act_section_target (today : string) (act : ActGroup) :
  includes (act_anchor_target (act_no act)) (act_section today act) = true.
Proof. unfold act_section, act_anchor_target. find_attribute. Qed.

Lemma sidebar_has_link (report : Report) (act : ActGroup) :
  In act (acts report) ->
  includes (act_anchor_link (act_no act)) (sidebarHTML report) = true.
Proof.
  intros Hin.
  assert (Hc : includes (act_anchor_link (act_no act))
                        (concat_all (map nav_item (acts report))) = true).
  { apply (includes_concat_all _ (nav_item act));
      [now apply in_map|apply nav_item_link]. }
  unfold sidebarHTML. revert Hc.
  generalize (concat_all (map nav_item (acts report))). intros c Hc.
  repeat (first [ apply includes_app_l; exact Hc | apply includes_app_r ]).
Qed.

Lemma sections_have_target (dates : nat -> string) (acts : list ActGroup)
  (act : ActGroup) : forall k,
  In act acts ->
  includes (act_anchor_target (act_no act))
           (concat_all (act_sections dates k acts)) = true.
Proof.
  induction acts as [|a acts IH]; intros k Hact; [destruct Hact|].
  cbn [act_sections concat_all fold_right]. destruct Hact as [->|Hact].
  - apply includes_app_l, act_section_target.
  - apply includes_app_r. now apply IH.
Qed.

Lemma report_body_sidebar (dates : nat -> string) (report : Report)
  (s : string) :
  includes s (sidebarHTML report) = true ->
  includes s (report_body dates report) = true.
Proof.
  intros H. unfold report_body. revert H.
  generalize (sidebarHTML report). intros c Hc.
  repeat (first [ apply includes_app_l; exact Hc | apply includes_app_r ]).
Qed.

End Anchors.

(** X20.  The navigation of the HTML report leads somewhere: for every act
    of the report, the sidebar has a link to the fragment of the act and
    the sections of the acts have an element with that identifier, and both
    are in the document. *)
Theorem report_anchors_resolve (dates : nat -> string) (report : Report)
  (act : ActGroup) :
  In act (acts report) ->
  includes (act_anchor_link (act_no act)) (sidebarHTML report) = true /\
  includes (act_anchor_target (act_no act)) (beatsHTML dates report) = true /\
  (includes (act_anchor_link (act_no act)) (generateHTMLReport dates report)
   = true) /\
  (includes (act_anchor_target (act_no act)) (generateHTMLReport dates report)
   = true).
Proof.
  intros Hin.
  pose proof (sidebar_has_link report act Hin) as Hlink.
  pose proof (sections_have_target dates (acts report) act 0 Hin) as Htarget.
  fold (beatsHTML dates report) in Htarget.
  split; [exact Hlink|]. split; [exact Htarget|].
  unfold generateHTMLReport. split.
  - apply includes_app_r, includes_app_r. now apply report_body_sidebar.
  - apply includes_app_r, includes_app_r. now apply report_body_verbatim.
Qed.

(** ** The further statements at sample data *)

(** The key [secret], as a bearer token and without any header. *)
Lemma accepted_credentials_witness :
  isAuthenticated (key_request "GET" "/ally" None (Some "Bearer secret"))
                  (mkEnv sample_source (Some "secret")) = true /\
  isAuthenticated (key_request "GET" "/ally" None None)
                  (mkEnv sample_source (Some "secret")) = false.
Proof.
  assert (Hk : "secret"%string <> EmptyString) by discriminate.
  pose proof (accepted_credentials "/ally" "GET" "secret" sample_source Hk)
    as H.
  destruct H as (_ & _ & _ & _ & Hbearer & _ & Hnone).
  split; [exact Hbearer|exact Hnone].
Defined.

(** A [POST] to the JSON report. *)
Lemma report_routes_refusals_witness :
  fetch sample_runtime
        (mkRequest "POST" "/api/reports/beats" (Some "assertion") None None)
        sample_env
  = jsonResponse (JObj [("error", JStr "Method not allowed")]) 405 corsHeaders.
Proof.
  pose proof (report_routes_refusals sample_runtime
                (mkRequest "POST" "/api/reports/beats" (Some "assertion")
                           None None)
                sample_env eq_refl eq_refl eq_refl) as H.
  destruct H as [H _]. exact (H eq_refl).
Defined.

(** Beat 2 of act 1 on a database without its tables. *)
Lemma beat_page_failure_witness :
  status (fetch sample_runtime (get_request "/ally/act/1/beat/2")
                (mkEnv failing_source None)) = 500 /\
  is_html_document
    (fetch sample_runtime (get_request "/ally/act/1/beat/2")
           (mkEnv failing_source None)) = true.
Proof.
  pose proof (beat_page_failure sample_runtime
                (get_request "/ally/act/1/beat/2") (mkEnv failing_source None)
                1 2 database_error eq_refl eq_refl eq_refl
                (or_introl eq_refl)) as H.
  cbv zeta in H. destruct H as (Hfetch & Hdoc & _).
  split; [rewrite Hfetch; reflexivity|exact Hdoc].
Defined.

(** Beat 2 of act 1 on an empty database. *)
Lemma beat_page_without_act_witness :
  status (fetch sample_runtime (get_request "/ally/act/1/beat/2")
                (mkEnv bare_source None)) = 200 /\
  includes "Beat 2 was not found in Act 1."
    (generateBeatPage 1 2 (missing_beat_data 2 "Act 1") "Act 1") = true.
Proof.
  pose proof (beat_page_without_act sample_runtime
                (get_request "/ally/act/1/beat/2") (mkEnv bare_source None)
                1 2 eq_refl eq_refl eq_refl eq_refl eq_refl) as H.
  cbv zeta in H. destruct H as (Hfetch & Htext).
  split; [rewrite Hfetch; reflexivity|exact Htext].
Defined.

(** The links of beat 2 of act 1, and the card of that beat. *)
Lemma page_links_are_routed_witness :
  match_beat_path (beat_path 1 2) = Some (1, 2)%Z /\
  handleRequest sample_runtime (get_request (beat_path 1 (2 - 1))) sample_env
  = handleBeatPage sample_runtime sample_env 1 (2 - 1) corsHeaders /\
  handleRequest sample_runtime (get_request (beat_path 1 (2 + 1))) sample_env
  = handleBeatPage sample_runtime sample_env 1 (2 + 1) corsHeaders /\
  includes (dq ++ beat_path 1 (ab_beat_number sample_card) ++ dq)
           (act_beat_card 1 "Act One" sample_card) = true.
Proof.
  assert (H1 : (0 <= 1 <= max_safe_integer)%Z)
    by (unfold max_safe_integer; lia).
  assert (H2 : (0 <= 2 < max_safe_integer)%Z)
    by (unfold max_safe_integer; lia).
  pose proof (page_links_are_routed sample_runtime sample_env 1 2
                (missing_beat_data 2 "Act One") "Act One" sample_card H1 H2)
    as H.
  cbv zeta in H.
  destruct H as (Hbeat & _ & _ & _ & _ & _ & Hnext & _ & Hprev & Hcard).
  assert (Hk : (0 <= ab_beat_number sample_card <= max_safe_integer)%Z)
    by (unfold max_safe_integer; cbn; lia).
  assert (Hone : (1 <= 2)%Z) by lia.
  split; [exact Hbeat|]. split; [exact (Hprev Hone)|].
  split; [exact Hnext|exact (proj1 (Hcard Hk))].
Defined.

(** The link to the beat before beat 0 of act 1. *)
Lemma negative_beat_link_not_found_witness :
  fetch sample_runtime (get_request (beat_path 1 (-1))) sample_env
  = jsonResponse not_found 404 corsHeaders.
Proof.
  assert (H : (-1 < 0)%Z) by lia.
  exact (negative_beat_link_not_found sample_runtime sample_env 1 (-1) H).
Defined.

(** The three rows of the scenario, as a CSV document. *)
Lemma csv_keeps_query_order_witness :
  Sorted act_le scenario_rows /\
  titles_agree scenario_rows /\
  generateCSVReport (aggregate "2024-01-02T03:04:05.000Z" scenario_rows)
  = (csv_header ++ concat_all (map row_line scenario_rows))%string.
Proof.
  assert (Hs : Sorted act_le scenario_rows).
  { unfold scenario_rows.
    repeat first [ apply Sorted_cons | apply Sorted_nil
                 | apply HdRel_cons | apply HdRel_nil ];
      unfold act_le; cbn [row_act_no plain_row]; lia. }
  assert (Ht : titles_agree scenario_rows).
  { intros r1 r2 H1 H2 E. unfold scenario_rows in H1, H2. cbn [In] in H1, H2.
    destruct H1 as [<-|[<-|[<-|[]]]]; destruct H2 as [<-|[<-|[<-|[]]]];
      first [ reflexivity | discriminate E ]. }
  split; [exact Hs|]. split; [exact Ht|].
  exact (csv_keeps_query_order "2024-01-02T03:04:05.000Z" scenario_rows Hs Ht).
Defined.

(** The heading of an act, read as its number. *)
Lemma parseActNumber_first_digits_witness :
  parseActNumber (ActText "Act 3: Confrontation") = Some 3%Z /\
  isValidActNumber (ActText "Act 3: Confrontation") = true.
Proof.
  assert (Hs : safe_integer 3)
    by (unfold safe_integer, max_safe_integer; lia).
  pose proof (parseActNumber_first_digits "Act " ": Confrontation" 3
                Hs eq_refl eq_refl) as H.
  cbv zeta in H. destruct H as (Hparse & Hvalid & _).
  split; [exact Hparse|exact Hvalid].
Defined.

(** Two requests in a second: the second call of client [a] is within the
    limit, and its third call is refused. *)
Lemma rate_limit_by_history_witness :
  clock_ok sample_calls /\
  (granted_since (10 - 1000) "a"
     ([((0%Z, "a"%string), true)] ++ [((10%Z, "a"%string), true)])
   <= 2)%Z /\
  false
  = Z.ltb (granted_since (30 - 1000) "a"
             [((0%Z, "a"%string), true); ((10%Z, "a"%string), true);
              ((20%Z, "b"%string), true)])
          2.
Proof.
  assert (Hc : clock_ok sample_calls).
  { unfold clock_ok, sample_calls. cbn [map fst].
    repeat first [ apply Sorted_cons | apply Sorted_nil
                 | apply HdRel_cons | apply HdRel_nil ]; lia. }
  pose proof (rate_limit_by_history 2 1000 sample_calls Hc) as H.
  cbv zeta in H. destruct H as [_ H].
  split; [exact Hc|]. split.
  - destruct (H [((0%Z, "a"%string), true)] 10%Z "a"%string true
                [((20%Z, "b"%string), true); ((30%Z, "a"%string), false)]
                eq_refl) as [_ Hbound].
    exact (Hbound eq_refl).
  - destruct (H [((0%Z, "a"%string), true); ((10%Z, "a"%string), true);
                 ((20%Z, "b"%string), true)]
                30%Z "a"%string false [] eq_refl) as [Hok _].
    exact Hok.
Defined.

(** The CSV download of the scenario. *)
Lemma report_endpoints_deliver_witness :
  body (fetch sample_runtime (get_request "/api/reports/beats/csv")
              (mkEnv scenario_source None))
  = Some (generateCSVReport
            (aggregate "2024-01-02T03:04:05.000Z" scenario_rows)) /\
  header "Content-Disposition"
    (headers (fetch sample_runtime (get_request "/api/reports/beats/csv")
                    (mkEnv scenario_source None)))
  = Some (csv_attachment "2024-01-02").
Proof.
  pose proof (report_endpoints_deliver sample_runtime
                (get_request "/api/reports/beats/csv")
                (mkEnv scenario_source None) scenario_rows
                eq_refl eq_refl eq_refl) as H.
  cbv zeta in H. destruct H as (_ & Hcsv & _).
  destruct (Hcsv eq_refl) as (_ & _ & Hname & Hbody & _).
  split; [exact Hbody|exact Hname].
Defined.

(** The one act of the sample report. *)
Lemma report_anchors_resolve_witness :
  includes (act_anchor_link 1)
           (generateHTMLReport sample_dates (sample_report [])) = true /\
  includes (act_anchor_target 1)
           (generateHTMLReport sample_dates (sample_report [])) = true.
Proof.
  pose proof (report_anchors_resolve sample_dates (sample_report [])
                (sample_act []) (or_introl eq_refl)) as H.
  destruct H as (_ & _ & Hlink & Htarget).
  split; [exact Hlink|exact Htarget].
Defined.

(** A limiter of one request and no window lets every call through. *)
Lemma empty_window_never_limits_witness :
  Forall (fun entry => snd entry = true)
         (fst (serve (newRateLimiter 1 0) sample_calls)).
Proof.
  assert (Hc : clock_ok sample_calls).
  { unfold clock_ok, sample_calls. cbn [map fst].
    repeat first [ apply Sorted_cons | apply Sorted_nil
                 | apply HdRel_cons | apply HdRel_nil ]; lia. }
  assert (Hw : (0 <= 0)%Z) by lia. assert (Hm : (1 <= 1)%Z) by lia.
  exact (empty_window_never_limits 1 0 sample_calls Hc Hw Hm).
Defined.
